(** * SIENNA golden-vector generator: a shallow embedding of
    [sienna_test_gen_script.py] and the properties of its float codec,
    activation, max-pool, dropout and pipeline stages.

    Conventions of the embedding:
    - a numpy [float32] scalar is its IEEE-754 binary32 bit pattern, an
      integer in [0, 2^32); a Python [float] that is the widening of a
      [float32] (what [struct.unpack(">f", _)] returns) is written as the
      pattern of that [float32];
    - a Python [float] / numpy [float64] scalar is a [spec_float] of the
      binary64 format (Stdlib's executable IEEE-754 specification);
    - Python exceptions are the [Error] branch of [result];
    - a 2D numpy array is a record carrying its shape and its rows;
    - numpy's global random state is threaded explicitly;
    - numpy and the C float conversions are those of an x86-64 build: a
      float/double conversion quiets a signalling NaN, and the maximum of
      two numbers is taken by the [MAXSS]/[MAXPS] instructions. *)

From Stdlib Require Import ZArith Lia Bool List String Ascii.
From Stdlib Require Import Floats.SpecFloat.
From stdpp Require Import base tactics option list.

Local Open Scope Z_scope.

(** ** Exceptions and the error monad *)

Inductive exn :=
| ValueError
| ZeroDivisionError
| StructError
| IndexError
| OverflowError.

Inductive result (A : Type) :=
| Ok (a : A)
| Error (e : exn).
Arguments Ok {A} a.
Arguments Error {A} e.

#[global] Instance result_ret : MRet result := fun A a => Ok a.
#[global] Instance result_bind : MBind result := fun A B f r =>
  match r with Ok a => f a | Error e => Error e end.
#[global] Instance result_fmap : FMap result := fun A B f r =>
  match r with Ok a => Ok (f a) | Error e => Error e end.

(** ** IEEE-754 reading of a [float32] pattern *)

(** A [float32] value, as its binary32 bit pattern. *)
Definition float32 := Z.

Definition is_float32 (x : float32) : Prop := 0 <= x < 2 ^ 32.

Definition pos_zero : float32 := 0x00000000.
Definition neg_zero : float32 := 0x80000000.
Definition pos_inf : float32 := 0x7f800000.
Definition quiet_nan : float32 := 0x7fc00000.
Definition neg_one : float32 := 0xbf800000.
Definition pos_one : float32 := 0x3f800000.

Definition sign_bit (x : float32) : bool := Z.testbit x 31.
Definition exponent_bits (x : float32) : Z := Z.land (Z.shiftr x 23) 255.
Definition fraction_bits (x : float32) : Z := Z.land x (2 ^ 23 - 1).

(** The value a binary32 pattern denotes, in Stdlib's specification of
    IEEE-754 floats. *)
Definition float32_to_spec (x : float32) : spec_float :=
  let s := sign_bit x in
  let e := exponent_bits x in
  let m := fraction_bits x in
  if e =? 255 then (if m =? 0 then S754_infinity s else S754_nan)
  else if e =? 0 then
    (if m =? 0 then S754_zero s else S754_finite s (Z.to_pos m) (-149))
  else S754_finite s (Z.to_pos (m + 2 ^ 23)) (e - 150).

(** The binary32 pattern of a value that is canonical in binary32; NaN is
    encoded as the default quiet NaN. *)
Definition spec_to_float32 (v : spec_float) : float32 :=
  let sgn (s : bool) := if s then 2 ^ 31 else 0 in
  match v with
  | S754_zero s => sgn s
  | S754_infinity s => sgn s + 0x7f800000
  | S754_nan => quiet_nan
  | S754_finite s m e =>
      if Z.pos m <? 2 ^ 23 then sgn s + Z.pos m
      else sgn s + (e + 150) * 2 ^ 23 + (Z.pos m - 2 ^ 23)
  end.

Definition isnan (x : float32) : bool :=
  match float32_to_spec x with S754_nan => true | _ => false end.

(** A NaN whose quiet bit (the most significant bit of the fraction) is
    clear. *)
Definition is_signalling (x : float32) : bool :=
  isnan x && negb (Z.testbit x 22).

(** A zero of either sign. *)
Definition is_zero (x : float32) : bool :=
  (exponent_bits x =? 0) && (fraction_bits x =? 0).

(** ** Float codec *)

(** [struct] converts between a C float and a C double on the way in
    ([struct.pack] takes the [float32] through a Python [float]) and on the
    way out ([struct.unpack] returns a Python [float]). The conversion
    keeps every number and both infinities; of a NaN it keeps the sign and
    the payload and sets the quiet bit, so that a signalling NaN comes out
    as a quiet one. *)
Definition via_double (x : float32) : float32 :=
  if isnan x then Z.lor x 0x00400000 else x.

(** [struct.pack(">f", f)]: the four bytes of the pattern, most
    significant first. *)
Definition struct_pack_f (f : float32) : list Z :=
  let f := via_double f in
  [ Z.land (Z.shiftr f 24) 255;
    Z.land (Z.shiftr f 16) 255;
    Z.land (Z.shiftr f 8) 255;
    Z.land f 255 ].

(** [struct.unpack(">f", bs)[0]]: exactly four bytes are required,
    otherwise [struct.error]. *)
Definition struct_unpack_f (bs : list Z) : result float32 :=
  match bs with
  | [b0; b1; b2; b3] =>
      Ok (via_double
            (Z.lor (Z.shiftl b0 24)
               (Z.lor (Z.shiftl b1 16) (Z.lor (Z.shiftl b2 8) b3))))
  | _ => Error StructError
  end.

(** One lowercase hexadecimal digit, as printed by the format [x]. *)
Definition hex_char (d : Z) : ascii :=
  if d <? 10 then ascii_of_N (Z.to_N (48 + d))
  else ascii_of_N (Z.to_N (87 + d)).

(** [f"{b:02x}"] for a byte [b]. *)
Definition format_02x (b : Z) : string :=
  String (hex_char (b / 16)) (String (hex_char (b mod 16)) EmptyString).

(** ["".join(...)] *)
Definition join (l : list string) : string :=
  fold_right String.append EmptyString l.

Definition float_to_hex (f : float32) : string :=
  join (map format_02x (struct_pack_f f)).

(** Value of a character as a hexadecimal digit ([0-9], [a-f], [A-F]). *)
Definition hex_digit (c : ascii) : option Z :=
  let n := Z.of_N (N_of_ascii c) in
  if (48 <=? n) && (n <=? 57) then Some (n - 48)
  else if (97 <=? n) && (n <=? 102) then Some (n - 87)
  else if (65 <=? n) && (n <=? 70) then Some (n - 55)
  else None.

(** ASCII whitespace, as skipped by [bytes.fromhex]: space, [\t], [\n],
    [\v], [\f], [\r]. *)
Definition is_space (c : ascii) : bool :=
  let n := Z.of_N (N_of_ascii c) in
  (n =? 32) || ((9 <=? n) && (n <=? 13)).

(** [bytes.fromhex(s)]: two adjacent hexadecimal digits per byte, ASCII
    whitespace before a byte being skipped; anything else is a
    [ValueError]. *)
Fixpoint bytes_fromhex (s : string) : result (list Z) :=
  match s with
  | EmptyString => Ok []
  | String c s' =>
      if is_space c then bytes_fromhex s'
      else
        match hex_digit c with
        | None => Error ValueError
        | Some top =>
            match s' with
            | EmptyString => Error ValueError
            | String d s'' =>
                match hex_digit d with
                | None => Error ValueError
                | Some bot =>
                    bs ← bytes_fromhex s''; mret (top * 16 + bot :: bs)
                end
            end
        end
  end.

Definition hex_to_float (hex_str : string) : result float32 :=
  bs ← bytes_fromhex hex_str; struct_unpack_f bs.

(** *** Reference notions used to state the codec's contract *)

Fixpoint string_forall (P : ascii -> bool) (s : string) : bool :=
  match s with
  | EmptyString => true
  | String c s' => P c && string_forall P s'
  end.

Fixpoint string_filter (P : ascii -> bool) (s : string) : string :=
  match s with
  | EmptyString => EmptyString
  | String c s' => if P c then String c (string_filter P s') else string_filter P s'
  end.

Definition is_hex (c : ascii) : bool :=
  match hex_digit c with Some _ => true | None => false end.

Definition is_lower_hex (c : ascii) : bool :=
  let n := Z.of_N (N_of_ascii c) in
  ((48 <=? n) && (n <=? 57)) || ((97 <=? n) && (n <=? 102)).

(** The string without its ASCII whitespace. *)
Definition strip_spaces (s : string) : string :=
  string_filter (fun c => negb (is_space c)) s.

(** A string of exactly eight hexadecimal characters. *)
Definition eight_hex (s : string) : bool :=
  (Nat.eqb (String.length s) 8) && string_forall is_hex s.

(** The number a string of hexadecimal digits denotes, most significant
    digit first. *)
Fixpoint hex_value_from (acc : Z) (s : string) : Z :=
  match s with
  | EmptyString => acc
  | String c s' => hex_value_from (acc * 16 + default 0 (hex_digit c)) s'
  end.

Definition hex_value (s : string) : Z := hex_value_from 0 s.



(** ** Order and arithmetic of [float32] patterns *)

(** [a >= b], [a < b], [a > b] on [float32] (false when either is NaN). *)
Definition f32_ge (a b : float32) : bool :=
  SFleb (float32_to_spec b) (float32_to_spec a).
Definition f32_lt (a b : float32) : bool :=
  SFltb (float32_to_spec a) (float32_to_spec b).
Definition f32_gt (a b : float32) : bool := f32_lt b a.

(** Sign-magnitude reading of a pattern: an integer that orders the
    non-NaN patterns as their values are ordered. *)
Definition f32_key (x : float32) : Z :=
  let mag := exponent_bits x * 2 ^ 23 + fraction_bits x in
  if sign_bit x then - mag else mag.

(** Rounding to binary32 and binary64 (round to nearest, ties to even). *)
Definition round_to (prec emax : Z) (v : spec_float) : spec_float :=
  match v with
  | S754_finite s m e => binary_round prec emax s m e
  | _ => v
  end.

Definition float64 := spec_float.

Definition f64_add := SFadd 53 1024.
Definition f64_sub := SFsub 53 1024.
Definition f64_mul := SFmul 53 1024.
Definition f64_div := SFdiv 53 1024.
Definition f64_of_Z (z : Z) : float64 := binary_normalize 53 1024 z 0 false.
Definition f64_one : float64 := f64_of_Z 1.
Definition f64_zero : float64 := S754_zero false.

(** [float32 -> float64] conversion (exact). *)
Definition float32_to_f64 (x : float32) : float64 :=
  round_to 53 1024 (float32_to_spec x).

(** [.astype(np.float32)] *)
Definition f64_astype_float32 (v : float64) : float32 :=
  spec_to_float32 (round_to 24 128 v).
Definition Z_astype_float32 (z : Z) : float32 :=
  spec_to_float32 (binary_normalize 24 128 z 0 false).

(** Arithmetic of [float32] arrays. *)
Definition f32_add (a b : float32) : float32 :=
  spec_to_float32 (SFadd 24 128 (float32_to_spec a) (float32_to_spec b)).
Definition f32_div (a b : float32) : float32 :=
  spec_to_float32 (SFdiv 24 128 (float32_to_spec a) (float32_to_spec b)).
Definition f32_neg (a : float32) : float32 := Z.lxor a (2 ^ 31).

(** [np.maximum(a, b)] on scalars, as numpy's x86 kernels compute it:
    [a] when [a] is a NaN, and otherwise what the [MAXSS]/[MAXPS]
    instruction gives, [a > b ? a : b]. A NaN in [b] is returned as it is,
    and of two zeros of different sign the second one is returned. *)
Definition np_maximum (a b : float32) : float32 :=
  if isnan a then a else if f32_gt a b then a else b.

(** [np.clip(x, lo, hi)] on a scalar; NaN is propagated. *)
Definition np_clip (x lo hi : float32) : float32 :=
  if isnan x then x
  else if f32_lt x lo then lo
  else if f32_gt x hi then hi
  else x.

(** ** 2D arrays *)

(** A 2D numpy array of shape [(length rows, width)]. *)
Record ndarray (A : Type) := mk_ndarray {
  width : nat;
  rows : list (list A)
}.
Arguments mk_ndarray {A} width rows.
Arguments width {A} n.
Arguments rows {A} n.

Definition shape_h {A} (m : ndarray A) : nat := length (rows m).
Definition shape_w {A} (m : ndarray A) : nat := width m.
Definition shape {A} (m : ndarray A) : nat * nat := (shape_h m, shape_w m).

(** Every row has the declared width. *)
Definition wf_ndarray {A} (m : ndarray A) : Prop :=
  Forall (fun r => length r = width m) (rows m).

(** [m[i, j]] for in-range non-negative indices. *)
Definition lookup2 {A} (m : ndarray A) (i j : nat) : option A :=
  r ← rows m !! i; r !! j.

(** [m.flatten()], row-major. *)
Definition flatten {A} (m : ndarray A) : list A := concat (rows m).

Definition ndarray_map {A B} (f : A -> B) (m : ndarray A) : ndarray B :=
  {| width := width m; rows := map (map f) (rows m) |}.

(** [np.zeros((h, w), dtype=np.float32)]; a negative dimension is a
    [ValueError]. *)
Definition np_zeros (h w : Z) : result (ndarray float32) :=
  if (h <? 0) || (w <? 0) then Error ValueError
  else Ok {| width := Z.to_nat w;
             rows := replicate (Z.to_nat h) (replicate (Z.to_nat w) pos_zero) |}.

(** [np.pad(m, p, mode="constant", constant_values=0)] for [p > 0]. *)
Definition np_pad (m : ndarray float32) (p : nat) : ndarray float32 :=
  let w' := (p + width m + p)%nat in
  let zero_rows := replicate p (replicate w' pos_zero) in
  {| width := w';
     rows := zero_rows
             ++ map (fun r => replicate p pos_zero ++ r ++ replicate p pos_zero)
                    (rows m)
             ++ zero_rows |}.

(** Python's clamping of a slice bound to a sequence of length [n]. *)
Definition slice_bound (i : Z) (n : nat) : nat :=
  if i <? 0 then Z.to_nat (Z.max (i + Z.of_nat n) 0)
  else Z.to_nat (Z.min i (Z.of_nat n)).

(** [l[start:stop]] *)
Definition py_slice {A} (start stop : Z) (l : list A) : list A :=
  let a := slice_bound start (length l) in
  let b := slice_bound stop (length l) in
  take (b - a) (drop a l).

(** [m[r0:r1, c0:c1]] *)
Definition slice2 {A} (m : ndarray A) (r0 r1 c0 c1 : Z) : ndarray A :=
  {| width := slice_bound c1 (width m) - slice_bound c0 (width m);
     rows := map (py_slice c0 c1) (py_slice r0 r1 (rows m)) |}.

(** An index into an axis of length [n], negative indices counting from
    the end. *)
Definition norm_index (i : Z) (n : nat) : result nat :=
  if (0 <=? i) && (i <? Z.of_nat n) then Ok (Z.to_nat i)
  else if (- Z.of_nat n <=? i) && (i <? 0) then Ok (Z.to_nat (i + Z.of_nat n))
  else Error IndexError.

(** [m[i, j]] *)
Definition getitem2 {A} (m : ndarray A) (i j : Z) : result A :=
  i' ← norm_index i (shape_h m);
  j' ← norm_index j (shape_w m);
  match lookup2 m i' j' with
  | Some v => Ok v
  | None => Error IndexError
  end.

(** [m[i, j] = v], in place. *)
Definition setitem2 {A} (m : ndarray A) (i j : Z) (v : A) : result (ndarray A) :=
  i' ← norm_index i (shape_h m);
  j' ← norm_index j (shape_w m);
  mret {| width := width m;
          rows := alter (fun r => <[j' := v]> r) i' (rows m) |}.

(** [range(n)] *)
Definition range (n : Z) : list Z := map Z.of_nat (seq 0 (Z.to_nat n)).

(** [for i in l: s = body(i, s)], stopping at the first exception. *)
Fixpoint for_each {S : Type} (l : list Z) (body : Z -> S -> result S) (s : S)
  : result S :=
  match l with
  | [] => Ok s
  | i :: l' => s' ← body i s; for_each l' body s'
  end.

(** Python's [a // b]. *)
Definition floordiv (a b : Z) : result Z :=
  if b =? 0 then Error ZeroDivisionError else Ok (a / b).

(** ** The parts of numpy that are taken as given

    Transcendental functions, the inner product of [np.matmul] (whose
    rounding and summation order are numpy's business), the kernel of the
    maximum-reduction (which value it returns is fixed by the IEEE order;
    which NaN pattern it returns for a window that holds a NaN, and which
    zero for a window that holds both, depends on the vector width of the
    machine), and the samplers of the global Mersenne-Twister state. *)
Class Numpy := {
  np_exp : float32 -> float32;
  np_tanh : float32 -> float32;
  (** inner product of a row and a column, in [float32] *)
  np_dot : list float32 -> list float32 -> float32;
  (** [np.maximum.reduce] over all the elements of an array that has at
      least two *)
  maximum_reduce : ndarray float32 -> float32;
  (** the global random state *)
  rng : Type;
  (** the state installed by [np.random.seed(s)] *)
  seeded : Z -> rng;
  (** one draw of [np.random.uniform(lo, hi)] *)
  draw_uniform : float64 -> float64 -> rng -> float64 * rng;
  (** one draw of [np.random.randint(lo, hi)] *)
  draw_randint : Z -> Z -> rng -> Z * rng;
  (** one draw of [np.random.binomial(n, p)] *)
  draw_binomial : Z -> float64 -> rng -> Z * rng
}.

(** ** Max-pool stage *)

Section MaxPool.
Context `{Numpy}.

(** [np.max(m)]: an empty array is a [ValueError]; the reduction starts
    from a copy of the first element, which is the result when there is no
    other, and otherwise runs the kernel over the rest. *)
Definition np_max (m : ndarray float32) : result float32 :=
  match flatten m with
  | [] => Error ValueError
  | [x] => Ok x
  | _ => Ok (maximum_reduce m)
  end.

Definition apply_maxpool_2d (input_matrix : ndarray float32)
    (pool_h pool_w : Z) (stride_h stride_w : option Z) (padding : Z)
  : result (ndarray float32) :=
  let stride_h := default pool_h stride_h in
  let stride_w := default pool_w stride_w in
  let input_matrix :=
    if 0 <? padding then np_pad input_matrix (Z.to_nat padding)
    else input_matrix in
  let in_h := Z.of_nat (shape_h input_matrix) in
  let in_w := Z.of_nat (shape_w input_matrix) in
  qh ← floordiv (in_h - pool_h) stride_h;
  let out_h := qh + 1 in
  qw ← floordiv (in_w - pool_w) stride_w;
  let out_w := qw + 1 in
  output ← np_zeros out_h out_w;
  for_each (range out_h) (fun i output =>
    for_each (range out_w) (fun j output =>
      let h_start := i * stride_h in
      let w_start := j * stride_w in
      let window :=
        slice2 input_matrix h_start (h_start + pool_h)
                            w_start (w_start + pool_w) in
      v ← np_max window;
      setitem2 output i j v) output) output.

End MaxPool.

(** *** Reference notions used to state the max-pool contract *)

(** [v] is the maximum of the values [l], as IEEE-754 orders them and with
    NaN propagated: [v] is a NaN exactly when [l] holds a NaN, and
    otherwise [v] is one of the values of [l] and is [>=] every one of
    them. *)
Definition is_maximum (l : list float32) (v : float32) : Prop :=
  (isnan v = true <-> exists w, w ∈ l /\ isnan w = true) /\
  (isnan v = false -> v ∈ l /\ forall w, w ∈ l -> f32_ge v w = true).

(** What numpy documents of its maximum-reduction: the result is the
    maximum of the elements, NaN being propagated. *)
Definition maximum_reduce_contract `{Numpy} : Prop :=
  forall m, flatten m <> [] -> is_maximum (flatten m) (maximum_reduce m).

(** [w] is a value of the window of [ph] rows and [pw] columns of [m]
    whose top-left cell is [(r0, c0)]. *)
Definition in_window (m : ndarray float32) (r0 c0 ph pw : nat) (w : float32)
  : Prop :=
  exists a b, (a < ph)%nat /\ (b < pw)%nat /\
              lookup2 m (r0 + a) (c0 + b) = Some w.

(** [v] is the maximum of that window: a NaN exactly when the window holds
    a NaN, and otherwise one of its values that is [>=] every value of
    it. *)
Definition is_window_max (m : ndarray float32) (r0 c0 ph pw : nat) (v : float32)
  : Prop :=
  (isnan v = true <-> exists w, in_window m r0 c0 ph pw w /\ isnan w = true) /\
  (isnan v = false ->
   in_window m r0 c0 ph pw v /\
   forall w, in_window m r0 c0 ph pw w -> f32_ge v w = true).

(** The matrix the pooling loop reads: the input, zero-padded when
    [padding > 0]. *)
Definition padded (m : ndarray float32) (padding : Z) : ndarray float32 :=
  if 0 <? padding then np_pad m (Z.to_nat padding) else m.

(** The output dimension computed for an input extent [n], window [k],
    stride [s] and padding [p]. *)
Definition out_dim (n k s p : Z) : Z := (n + 2 * p - k) / s + 1.

(** An [n] x [n] array. *)
Definition square (n : Z) (m : ndarray float32) : Prop :=
  wf_ndarray m /\ shape m = (Z.to_nat n, Z.to_nat n).

(** [y] is [max(0, x)]: [x] itself when [x] is a NaN, otherwise one of
    [0.0] and [x] that is [>=] both. *)
Definition is_relu (x y : float32) : Prop :=
  if isnan x then y = x
  else (y = pos_zero \/ y = x) /\
       f32_ge y pos_zero = true /\ f32_ge y x = true.

(** [np.isfinite] on a [float64]. *)
Definition np_isfinite (v : float64) : bool :=
  match v with
  | S754_zero _ | S754_finite _ _ _ => true
  | S754_infinity _ | S754_nan => false
  end.

(** ** Activation stage *)

Section Activation.
Context `{Numpy}.

Definition sigmoid (x : float32) : float32 :=
  f32_div pos_one
    (f32_add pos_one
       (np_exp (f32_neg (np_clip x (Z_astype_float32 (-500))
                                   (Z_astype_float32 500))))).

Definition apply_activation (x : ndarray float32) (activation_type : string)
  : ndarray float32 :=
  if String.eqb activation_type "relu" then
    ndarray_map (np_maximum pos_zero) x
  else if String.eqb activation_type "sigmoid" then
    ndarray_map sigmoid x
  else if String.eqb activation_type "tanh" then
    ndarray_map np_tanh x
  else if String.eqb activation_type "none" then
    x
  else
    x.

End Activation.

(** ** Dropout stage *)

Section Dropout.
Context `{Numpy}.

(** [np.random.seed(s)]: the seed must fit in 32 bits. *)
Definition np_random_seed (s : Z) : result rng :=
  if (0 <=? s) && (s <? 2 ^ 32) then Ok (seeded s) else Error ValueError.

(** [h * w] successive draws, laid out row-major. *)
Fixpoint draw_list {A} (n : nat) (draw : rng -> A * rng) (g : rng)
  : list A * rng :=
  match n with
  | O => ([], g)
  | S n' => let '(x, g1) := draw g in
            let '(l, g2) := draw_list n' draw g1 in
            (x :: l, g2)
  end.

Fixpoint draw_rows {A} (h w : nat) (draw : rng -> A * rng) (g : rng)
  : list (list A) * rng :=
  match h with
  | O => ([], g)
  | S h' => let '(r, g1) := draw_list w draw g in
            let '(rs, g2) := draw_rows h' w draw g1 in
            (r :: rs, g2)
  end.

Definition draw_ndarray {A} (h w : nat) (draw : rng -> A * rng) (g : rng)
  : ndarray A * rng :=
  let '(rs, g') := draw_rows h w draw g in
  ({| width := w; rows := rs |}, g').

(** [np.random.binomial(n, p, size=(h, w))]; [p] outside [0, 1] (or NaN)
    is a [ValueError]. *)
Definition np_random_binomial (n : Z) (p : float64) (h w : nat) (g : rng)
  : result (ndarray Z * rng) :=
  if SFleb f64_zero p && SFleb p f64_one
  then Ok (draw_ndarray h w (draw_binomial n p) g)
  else Error ValueError.

(** Element-wise combination of two arrays of the same shape. *)
Definition ndarray_zip {A B C} (f : A -> B -> C) (x : ndarray A) (y : ndarray B)
  : ndarray C :=
  {| width := width x;
     rows := zip_with (zip_with f) (rows x) (rows y) |}.

(** Element type of the array [apply_dropout] returns: the input array
    itself in inference mode, a [float64] array in training mode. *)
Definition dropout_dtype (training_mode : bool) : Type :=
  if training_mode then float64 else float32.

Definition apply_dropout (x : ndarray float32) (dropout_p : float64)
    (training_mode : bool) (seed : option Z) (g : rng)
  : result (ndarray (dropout_dtype training_mode) * rng) :=
  match training_mode
        return result (ndarray (dropout_dtype training_mode) * rng) with
  | true =>
      g ← match seed with
          | Some s => np_random_seed s
          | None => Ok g
          end;
      '(mask, g) ← np_random_binomial 1 (f64_sub f64_one dropout_p)
                      (shape_h x) (shape_w x) g;
      mret (ndarray_zip
              (fun xv mk =>
                 f64_div (f64_mul (float32_to_f64 xv) (f64_of_Z mk))
                         (f64_sub f64_one dropout_p))
              x mask, g)
  | false =>
      (* Inference mode - no dropout *)
      Ok (x, g)
  end.

End Dropout.

(** ** Matrix generator and pipeline orchestrator *)

Section Pipeline.
Context `{Numpy}.

(** A dimension passed to an array constructor; negative is a
    [ValueError]. *)
Definition dimension (n : Z) : result nat :=
  if n <? 0 then Error ValueError else Ok (Z.to_nat n).

(** [np.eye(n, dtype=np.float32)] *)
Definition np_eye (n : Z) : result (ndarray float32) :=
  k ← dimension n;
  mret {| width := k;
          rows := map (fun i => map (fun j => if Nat.eqb i j then pos_one
                                              else pos_zero) (seq 0 k))
                      (seq 0 k) |}.

(** [np.ones((n, n), dtype=np.float32)] *)
Definition np_ones (n : Z) : result (ndarray float32) :=
  k ← dimension n;
  mret {| width := k; rows := replicate k (replicate k pos_one) |}.

(** [np.random.randint(lo, hi, size=(n, n)).astype(np.float32)] *)
Definition np_random_randint_f32 (lo hi n : Z) (g : rng)
  : result (ndarray float32 * rng) :=
  k ← dimension n;
  let '(m, g') := draw_ndarray k k (draw_randint lo hi) g in
  mret (ndarray_map Z_astype_float32 m, g').

(** [np.random.uniform(lo, hi, size=(n, n)).astype(np.float32)]; a range
    that is not finite is an [OverflowError]. *)
Definition np_random_uniform_f32 (lo hi : float64) (n : Z) (g : rng)
  : result (ndarray float32 * rng) :=
  match f64_sub hi lo with
  | S754_infinity _ | S754_nan => Error OverflowError
  | _ =>
      k ← dimension n;
      let '(m, g') := draw_ndarray k k (draw_uniform lo hi) g in
      mret (ndarray_map f64_astype_float32 m, g')
  end.

(** Column [j] of an array. *)
Definition column {A} (m : ndarray A) (j : nat) : list A :=
  omap (fun r => r !! j) (rows m).

(** [np.matmul(a, b).astype(np.float32)] on [float32] arrays. *)
Definition np_matmul (a b : ndarray float32) : result (ndarray float32) :=
  if Nat.eqb (shape_w a) (shape_h b) then
    Ok {| width := width b;
          rows := map (fun ra => map (fun j => np_dot ra (column b j))
                                     (seq 0 (width b)))
                      (rows a) |}
  else Error ValueError.

Record PipelineResult := {
  r_A : ndarray float32;
  r_B : ndarray float32;
  r_matmul : ndarray float32;
  r_activated : ndarray float32;
  r_pooled : ndarray float32;
  r_final : ndarray float32
}.

(** The hex files written, by name, one line per list element. *)
Record PipelineFiles := {
  matrix_north : list string;
  matrix_west : list string;
  expected_output : list string
}.

(** STEP 1: the two input matrices, [A] drawn before [B]. *)
Definition generate_matrices (n : Z) (matrix_type : string)
    (value_range : float64 * float64) (g : rng)
  : result (ndarray float32 * ndarray float32 * rng) :=
  if String.eqb matrix_type "identity" then
    a ← np_eye n; b ← np_eye n; mret (a, b, g)
  else if String.eqb matrix_type "ones" then
    a ← np_ones n; b ← np_ones n; mret (a, b, g)
  else if String.eqb matrix_type "small_int" then
    '(a, g) ← np_random_randint_f32 (-3) 4 n g;
    '(b, g) ← np_random_randint_f32 (-3) 4 n g;
    mret (a, b, g)
  else
    '(a, g) ← np_random_uniform_f32 value_range.1 value_range.2 n g;
    '(b, g) ← np_random_uniform_f32 value_range.1 value_range.2 n g;
    mret (a, b, g).

(** The rows and columns taken for the max-pool input. *)
Definition in_rows : Z := 5.
Definition in_cols : Z := 5.

(** [activated[:in_rows, :in_cols]] *)
Definition maxpool_input (activated : ndarray float32) : ndarray float32 :=
  slice2 activated 0 in_rows 0 in_cols.

(** [a.flatten()[0]] *)
Definition first_element {A} (a : ndarray A) : result A :=
  match flatten a with
  | [] => Error IndexError
  | v :: _ => Ok v
  end.

Definition generate_pipeline_test_vectors (n : Z) (activation_type : string)
    (pool_h pool_w pool_padding : Z) (dropout_p : float64) (seed : option Z)
    (matrix_type : string) (value_range : float64 * float64) (g : rng)
  : result (PipelineResult * PipelineFiles * rng) :=
  g ← match seed with
      | Some s => np_random_seed s
      | None => Ok g
      end;
  '(A, B, g) ← generate_matrices n matrix_type value_range g;
  C ← np_matmul A B;
  let activated := apply_activation C activation_type in
  let maxpool_input := maxpool_input activated in
  pooled ← apply_maxpool_2d maxpool_input pool_h pool_w None None pool_padding;
  '(final_output, g) ← apply_dropout pooled dropout_p false None g;
  expected ← first_element final_output;
  (* the data preview of the summary reads A[0,0], B[0,0] and C[0,0] *)
  _ ← getitem2 A 0 0;
  _ ← getitem2 B 0 0;
  _ ← getitem2 C 0 0;
  mret ({| r_A := A; r_B := B; r_matmul := C; r_activated := activated;
           r_pooled := pooled; r_final := final_output |},
        {| matrix_north := map float_to_hex (flatten A);
           matrix_west := map float_to_hex (flatten B);
           expected_output := [float_to_hex expected] |},
        g).

End Pipeline.

(** ** A reference instance of the numpy interface

    A sequential [float32] inner product, the maximum-reduction kernel of
    an x86 build on rows shorter than a vector, and a linear congruential
    generator; it makes every definition above executable. *)

(** The kernel on one row of the array, [acc] being the running maximum:
    the running maximum goes through a vector register, out of which a NaN
    comes as the default quiet NaN, and is then combined with the elements
    of the row one by one. *)
Definition reduce_row (acc : float32) (row : list float32) : float32 :=
  match row with
  | [] => acc
  | _ :: _ => fold_left np_maximum row (if isnan acc then quiet_nan else acc)
  end.

(** The reduction starts from a copy of the first element and calls the
    kernel once per row, on what is left of the row. *)
Fixpoint reduce_rows (acc : option float32) (rs : list (list float32))
  : option float32 :=
  match rs with
  | [] => acc
  | r :: rs' =>
      reduce_rows
        match acc, r with
        | None, [] => None
        | None, x :: r' => Some (reduce_row x r')
        | Some a, _ => Some (reduce_row a r)
        end rs'
  end.

Definition f32_mul (a b : float32) : float32 :=
  spec_to_float32 (SFmul 24 128 (float32_to_spec a) (float32_to_spec b)).

Definition lcg_next (g : Z) : Z := (g * 1103515245 + 12345) mod 2 ^ 31.

#[local] Instance reference_numpy : Numpy := {|
  np_exp := fun _ => pos_one;
  np_tanh := fun x => x;
  np_dot := fun r c => fold_left f32_add (zip_with f32_mul r c) pos_zero;
  maximum_reduce := fun m => default pos_zero (reduce_rows None (rows m));
  rng := Z;
  seeded := fun s => s;
  draw_uniform := fun lo hi g => (if Z.even g then lo else hi, lcg_next g);
  draw_randint := fun lo hi g => (lo + g mod (hi - lo), lcg_next g);
  draw_binomial := fun n p g =>
    (if SFleb p f64_zero then 0
     else if SFleb f64_one p then n
     else g mod (n + 1), lcg_next g)
|}.

(** The 2x2 array of [-1.0] and the 4x4 array [0 .. 15] used as examples. *)
Definition minus_ones_2x2 : ndarray float32 :=
  {| width := 2; rows := [[neg_one; neg_one]; [neg_one; neg_one]] |}.

Definition counting_4x4 : ndarray float32 :=
  ndarray_map Z_astype_float32
    {| width := 4;
       rows := [[0; 1; 2; 3]; [4; 5; 6; 7]; [8; 9; 10; 11]; [12; 13; 14; 15]] |}.

(** *** Reference notions used to state the orchestrator's preconditions *)

(** The seed is absent or fits in 32 bits. *)
Definition seed_ok (seed : option Z) : bool :=
  match seed with
  | Some s => (0 <=? s) && (s <? 2 ^ 32)
  | None => true
  end.

(** The matrix kind does not sample uniformly, or the range given for the
    uniform samples is finite. *)
Definition range_ok (matrix_type : string) (value_range : float64 * float64)
  : bool :=
  String.eqb matrix_type "identity" || String.eqb matrix_type "ones" ||
  String.eqb matrix_type "small_int" ||
  np_isfinite (f64_sub value_range.2 value_range.1).

(** A run of the orchestrator on 2x2 identity matrices, evaluated. *)
Definition identity_run
  : result (PipelineResult * PipelineFiles * rng (Numpy := reference_numpy)) :=
  Eval vm_compute in
    generate_pipeline_test_vectors (H := reference_numpy) 2 "relu" 2 2 1
      f64_one (Some 42) "identity" (f64_zero, f64_one) 0.

(** * Properties *)

(** ** Bit-level arithmetic *)

Lemma land_shiftl_small a b k :
  0 <= k -> 0 <= b < 2 ^ k -> Z.land (Z.shiftl a k) b = 0.
Proof.
  intros Hk Hb. apply Z.bits_inj'. intros n Hn.
  rewrite Z.land_spec, Z.bits_0.
  destruct (Z.ltb_spec n k) as [Hlt | Hge].
  - rewrite Z.shiftl_spec_low by lia. reflexivity.
  - rewrite <- (Z.mod_small b (2 ^ k)) by lia.
    rewrite Z.mod_pow2_bits_high by lia. apply andb_false_r.
Qed.

Lemma lor_shiftl_add a b k :
  0 <= k -> 0 <= b < 2 ^ k -> Z.lor (Z.shiftl a k) b = a * 2 ^ k + b.
Proof.
  intros Hk Hb.
  rewrite <- Z.lxor_lor by (apply land_shiftl_small; lia).
  rewrite <- Z.add_nocarry_lxor by (apply land_shiftl_small; lia).
  rewrite Z.shiftl_mul_pow2 by lia. reflexivity.
Qed.

Lemma land_255 x : Z.land x 255 = x mod 256.
Proof. change 255 with (Z.ones 8). rewrite Z.land_ones by lia. reflexivity. Qed.

(** ** Quieting of a signalling NaN *)

Lemma isnan_bits x :
  isnan x = (exponent_bits x =? 255) && negb (fraction_bits x =? 0).
Proof.
  unfold isnan, float32_to_spec.
  destruct (exponent_bits x =? 255), (fraction_bits x =? 0),
    (exponent_bits x =? 0); reflexivity.
Qed.

Lemma exponent_bits_quiet x :
  exponent_bits (Z.lor x 0x00400000) = exponent_bits x.
Proof.
  unfold exponent_bits. rewrite Z.shiftr_lor.
  change (Z.shiftr 0x00400000 23) with 0. rewrite Z.lor_0_r. reflexivity.
Qed.

Lemma fraction_bits_quiet x :
  fraction_bits (Z.lor x 0x00400000) = Z.lor (fraction_bits x) 0x00400000.
Proof. unfold fraction_bits. rewrite Z.land_lor_distr_l. reflexivity. Qed.

Lemma isnan_quiet x : isnan x = true -> isnan (Z.lor x 0x00400000) = true.
Proof.
  rewrite !isnan_bits, exponent_bits_quiet, fraction_bits_quiet.
  intros H. apply andb_true_iff in H as [-> _]. cbn [andb].
  apply negb_true_iff, Z.eqb_neq. intros H0.
  apply Z.lor_eq_0_iff in H0 as [_ H0]. discriminate H0.
Qed.

Lemma testbit_quiet_bit n : 0 <= n -> Z.testbit 0x00400000 n = (n =? 22).
Proof.
  intros Hn. change 0x00400000 with (2 ^ 22).
  rewrite Z.pow2_bits_eqb by lia. apply Z.eqb_sym.
Qed.

(** [via_double] keeps the NaNs apart from the other values, is the
    identity on everything but the signalling NaNs, which it moves, and
    returns no signalling NaN. *)
Lemma isnan_via_double x : isnan (via_double x) = isnan x.
Proof.
  unfold via_double. destruct (isnan x) eqn:Hx; [| exact Hx].
  apply isnan_quiet, Hx.
Qed.

Lemma via_double_quiet x : is_signalling x = false -> via_double x = x.
Proof.
  unfold is_signalling, via_double. destruct (isnan x); [| reflexivity].
  cbn [andb]. intros Hq. apply negb_false_iff in Hq.
  apply Z.bits_inj'. intros n Hn.
  rewrite Z.lor_spec, testbit_quiet_bit by exact Hn.
  destruct (Z.eqb_spec n 22) as [-> | _];
    [rewrite Hq; reflexivity | apply orb_false_r].
Qed.

Lemma via_double_signalling x : is_signalling x = true -> via_double x <> x.
Proof.
  unfold is_signalling, via_double. intros H.
  apply andb_true_iff in H as [-> Hq]. apply negb_true_iff in Hq.
  intros Heq. apply (f_equal (fun z => Z.testbit z 22)) in Heq.
  rewrite Z.lor_spec, Hq in Heq. discriminate Heq.
Qed.

Lemma is_signalling_via_double x : is_signalling (via_double x) = false.
Proof.
  unfold is_signalling. rewrite isnan_via_double. unfold via_double.
  destruct (isnan x); [| reflexivity].
  rewrite Z.lor_spec. change (Z.testbit 0x00400000 22) with true.
  rewrite orb_true_r. reflexivity.
Qed.

Lemma via_double_idempotent x : via_double (via_double x) = via_double x.
Proof. apply via_double_quiet, is_signalling_via_double. Qed.

Lemma via_double_float32 x : is_float32 x -> is_float32 (via_double x).
Proof.
  unfold via_double. destruct (isnan x); [| auto].
  unfold is_float32. intros Hx.
  assert (Hl : Z.land (Z.lor x 0x00400000) (Z.ones 32) = Z.lor x 0x00400000).
  { rewrite Z.land_lor_distr_l, Z.land_ones, Z.mod_small by lia.
    reflexivity. }
  rewrite Z.land_ones in Hl by lia.
  pose proof (Z.mod_pos_bound (Z.lor x 0x00400000) (2 ^ 32)). lia.
Qed.

(** ** Bytes of a pattern *)

Lemma struct_pack_f_bytes x :
  struct_pack_f x =
  let y := via_double x in
  [ (y / 2 ^ 24) mod 256; (y / 2 ^ 16) mod 256; (y / 2 ^ 8) mod 256;
    y mod 256 ].
Proof.
  unfold struct_pack_f. cbn zeta.
  rewrite !land_255, !Z.shiftr_div_pow2 by lia. reflexivity.
Qed.

Lemma struct_unpack_f_sum b0 b1 b2 b3 :
  0 <= b1 < 256 -> 0 <= b2 < 256 -> 0 <= b3 < 256 ->
  struct_unpack_f [b0; b1; b2; b3] =
  Ok (via_double (b0 * 2 ^ 24 + b1 * 2 ^ 16 + b2 * 2 ^ 8 + b3)).
Proof.
  intros H1 H2 H3. unfold struct_unpack_f. do 2 f_equal.
  rewrite (lor_shiftl_add b2 b3 8) by lia.
  rewrite (lor_shiftl_add b1 _ 16) by lia.
  rewrite (lor_shiftl_add b0 _ 24) by lia.
  lia.
Qed.

Lemma bytes_of_pattern y :
  0 <= y < 2 ^ 32 ->
  (y / 2 ^ 24) mod 256 * 2 ^ 24 + (y / 2 ^ 16) mod 256 * 2 ^ 16 +
  (y / 2 ^ 8) mod 256 * 2 ^ 8 + y mod 256 = y.
Proof.
  intros Hy. change (2 ^ 24) with 16777216. change (2 ^ 16) with 65536.
  change (2 ^ 8) with 256. change (2 ^ 32) with 4294967296 in Hy.
  Z.div_mod_to_equations. lia.
Qed.

Lemma struct_unpack_pack x :
  is_float32 x -> struct_unpack_f (struct_pack_f x) = Ok (via_double x).
Proof.
  intros Hx. apply via_double_float32 in Hx. unfold is_float32 in Hx.
  rewrite struct_pack_f_bytes. cbn zeta.
  rewrite struct_unpack_f_sum by (apply Z.mod_pos_bound; lia).
  rewrite bytes_of_pattern by exact Hx.
  rewrite via_double_idempotent. reflexivity.
Qed.

(** ** Float codec *)

Ltac cases_below_16 d :=
  let H := fresh in
  assert (H : d = 0 \/ d = 1 \/ d = 2 \/ d = 3 \/ d = 4 \/ d = 5 \/ d = 6 \/
              d = 7 \/ d = 8 \/ d = 9 \/ d = 10 \/ d = 11 \/ d = 12 \/
              d = 13 \/ d = 14 \/ d = 15) by lia;
  repeat (destruct H as [-> | H]); [.. | subst d].

Lemma hex_char_props d :
  0 <= d < 16 ->
  hex_digit (hex_char d) = Some d /\
  is_space (hex_char d) = false /\
  is_lower_hex (hex_char d) = true.
Proof. intros Hd. cases_below_16 d; vm_compute; auto. Qed.

Lemma byte_digits b :
  0 <= b < 256 -> 0 <= b / 16 < 16 /\ 0 <= b mod 16 < 16 /\
                  b / 16 * 16 + b mod 16 = b.
Proof. intros Hb. Z.div_mod_to_equations. lia. Qed.

Lemma bytes_fromhex_format_02x b s :
  0 <= b < 256 ->
  bytes_fromhex (format_02x b ++ s) = bs ← bytes_fromhex s; mret (b :: bs).
Proof.
  intros Hb. destruct (byte_digits b Hb) as (Hhi & Hlo & Heq).
  destruct (hex_char_props _ Hhi) as (Hd1 & Hs1 & _).
  destruct (hex_char_props _ Hlo) as (Hd2 & _ & _).
  unfold format_02x. cbn [String.append bytes_fromhex].
  rewrite Hs1, Hd1, Hd2, Heq. reflexivity.
Qed.

Lemma hex_value_from_format_02x acc b s :
  0 <= b < 256 ->
  hex_value_from acc (format_02x b ++ s) = hex_value_from (acc * 256 + b) s.
Proof.
  intros Hb. destruct (byte_digits b Hb) as (Hhi & Hlo & Heq).
  destruct (hex_char_props _ Hhi) as (Hd1 & _ & _).
  destruct (hex_char_props _ Hlo) as (Hd2 & _ & _).
  unfold format_02x. cbn [String.append hex_value_from].
  rewrite Hd1, Hd2. unfold default, from_option, id.
  replace ((acc * 16 + b / 16) * 16 + b mod 16) with (acc * 256 + b) by lia.
  reflexivity.
Qed.

Lemma string_forall_app P s t :
  string_forall P (s ++ t) = string_forall P s && string_forall P t.
Proof.
  induction s as [| c s IH]; cbn [String.append string_forall]; [reflexivity |].
  rewrite IH. apply andb_assoc.
Qed.

Lemma format_02x_lower b :
  0 <= b < 256 -> string_forall is_lower_hex (format_02x b) = true.
Proof.
  intros Hb. destruct (byte_digits b Hb) as (Hhi & Hlo & _).
  destruct (hex_char_props _ Hhi) as (_ & _ & H1).
  destruct (hex_char_props _ Hlo) as (_ & _ & H2).
  unfold format_02x. cbn [string_forall]. rewrite H1, H2. reflexivity.
Qed.

(** The text written for [x] spells the pattern of [via_double x]. *)
Lemma float_to_hex_unfold x :
  float_to_hex x =
  let y := via_double x in
  (format_02x ((y / 2 ^ 24) mod 256) ++ format_02x ((y / 2 ^ 16) mod 256) ++
   format_02x ((y / 2 ^ 8) mod 256) ++ format_02x (y mod 256) ++ "")%string.
Proof. unfold float_to_hex. rewrite struct_pack_f_bytes. reflexivity. Qed.

Lemma float_to_hex_via_double x : float_to_hex (via_double x) = float_to_hex x.
Proof. rewrite !float_to_hex_unfold, via_double_idempotent. reflexivity. Qed.

Lemma hex_to_float_float_to_hex x :
  is_float32 x -> hex_to_float (float_to_hex x) = Ok (via_double x).
Proof.
  intros Hx. unfold hex_to_float. rewrite float_to_hex_unfold. cbn zeta.
  rewrite !bytes_fromhex_format_02x by (apply Z.mod_pos_bound; lia).
  cbn [bytes_fromhex mbind result_bind mret result_ret].
  pose proof (struct_unpack_pack x Hx) as Hup.
  rewrite struct_pack_f_bytes in Hup. exact Hup.
Qed.

Lemma hex_value_float_to_hex x :
  is_float32 x -> hex_value (float_to_hex x) = via_double x.
Proof.
  intros Hx. apply via_double_float32 in Hx. unfold is_float32 in Hx.
  unfold hex_value. rewrite float_to_hex_unfold. cbn zeta.
  rewrite !hex_value_from_format_02x by (apply Z.mod_pos_bound; lia).
  cbn [hex_value_from].
  rewrite <- (bytes_of_pattern (via_double x) Hx) at 5. lia.
Qed.

(** C1 (as amended). Round trip of the float codec: for every 32-bit
    pattern [x], [float_to_hex x] is exactly eight lowercase hexadecimal
    characters, which spell the pattern of [x] after the quieting of a
    signalling NaN, most significant digit first, and [hex_to_float]
    returns that pattern. For every [x] that is not a signalling NaN the
    round trip returns [x] bit for bit; for a signalling NaN it does not. *)
Theorem float_codec_roundtrip (x : float32) :
  is_float32 x ->
  String.length (float_to_hex x) = 8%nat /\
  string_forall is_lower_hex (float_to_hex x) = true /\
  hex_value (float_to_hex x) = via_double x /\
  hex_to_float (float_to_hex x) = Ok (via_double x) /\
  (is_signalling x = false ->
   hex_to_float (float_to_hex x) = Ok x /\ hex_value (float_to_hex x) = x) /\
  (is_signalling x = true -> hex_to_float (float_to_hex x) <> Ok x).
Proof.
  intros Hx.
  pose proof (hex_to_float_float_to_hex x Hx) as Hrt.
  pose proof (hex_value_float_to_hex x Hx) as Hval.
  split; [| split; [| split; [exact Hval | split; [exact Hrt | split]]]].
  - rewrite float_to_hex_unfold. reflexivity.
  - rewrite float_to_hex_unfold. cbn zeta. rewrite !string_forall_app.
    rewrite !format_02x_lower by (apply Z.mod_pos_bound; lia). reflexivity.
  - intros Hq. rewrite Hrt, Hval, (via_double_quiet x Hq). auto.
  - intros Hs. rewrite Hrt. intros [= Heq].
    exact (via_double_signalling x Hs Heq).
Qed.

(** The patterns of [0.0], [-0.0], the quiet NaN and [+Infinity] are
    32-bit patterns, none of them a signalling NaN, with four distinct
    encodings. *)
Lemma special_patterns :
  is_float32 pos_zero /\ is_float32 neg_zero /\
  is_float32 quiet_nan /\ is_float32 pos_inf /\
  is_signalling pos_zero = false /\ is_signalling neg_zero = false /\
  is_signalling quiet_nan = false /\ is_signalling pos_inf = false /\
  float_to_hex pos_zero = "00000000"%string /\
  float_to_hex neg_zero = "80000000"%string /\
  float_to_hex quiet_nan = "7fc00000"%string /\
  float_to_hex pos_inf = "7f800000"%string.
Proof. unfold is_float32. vm_compute. intuition congruence. Qed.

(** C1, counterexample: the signalling NaN [0x7fa00000] is written
    ["7fe00000"] and read back as the quiet NaN [0x7fe00000]. *)
Lemma float_codec_quiets_signalling_nan :
  is_float32 0x7fa00000 /\ isnan 0x7fa00000 = true /\
  float_to_hex 0x7fa00000 = "7fe00000"%string /\
  hex_to_float (float_to_hex 0x7fa00000) = Ok 0x7fe00000 /\
  hex_to_float (float_to_hex 0x7fa00000) <> Ok 0x7fa00000.
Proof. unfold is_float32. vm_compute. intuition congruence. Qed.

Lemma float_codec_roundtrip_witness :
  is_float32 neg_zero /\ is_signalling neg_zero = false /\
  hex_to_float (float_to_hex neg_zero) = Ok neg_zero /\
  hex_value (float_to_hex neg_zero) = neg_zero.
Proof.
  assert (H : is_float32 neg_zero) by (unfold is_float32, neg_zero; lia).
  split; [exact H |]. split; [reflexivity |].
  exact (proj1 (proj2 (proj2 (proj2 (proj2
           (float_codec_roundtrip neg_zero H))))) eq_refl).
Defined.

Lemma hex_digit_range c d : hex_digit c = Some d -> 0 <= d < 16.
Proof.
  unfold hex_digit. generalize (Z.of_N (N_of_ascii c)). intros n.
  repeat case_match; intros [= <-]; lia.
Qed.

Lemma hex_digit_not_space c d : hex_digit c = Some d -> is_space c = false.
Proof.
  unfold hex_digit, is_space. generalize (Z.of_N (N_of_ascii c)). intros n.
  repeat case_match; intros [= <-]; lia.
Qed.

Lemma is_hex_digit c : is_hex c = true -> exists d, hex_digit c = Some d.
Proof. unfold is_hex. destruct (hex_digit c); [eauto | discriminate]. Qed.


(** What [bytes.fromhex] has accepted is, whitespace apart, an even
    number of hexadecimal digits, two per byte, and the bytes are the
    digits read in base 16. *)
Lemma bytes_fromhex_ok s bs :
  bytes_fromhex s = Ok bs ->
  string_forall is_hex (strip_spaces s) = true /\
  String.length (strip_spaces s) = (2 * length bs)%nat /\
  forall acc, hex_value_from acc (strip_spaces s)
              = fold_left (fun a b => a * 256 + b) bs acc.
Proof.
  remember (String.length s) as n eqn:Hn.
  revert s bs Hn. induction (lt_wf n) as [n _ IH]. intros s bs -> .
  destruct s as [| c s]; cbn [bytes_fromhex].
  { intros [= <-]. repeat split; reflexivity. }
  unfold strip_spaces. cbn [string_filter].
  destruct (is_space c) eqn:Hsp; cbn [negb].
  { apply (IH (String.length s)); [cbn; lia | reflexivity]. }
  destruct (hex_digit c) as [top |] eqn:Hc; [| discriminate].
  destruct s as [| c' s]; [discriminate |].
  destruct (hex_digit c') as [bot |] eqn:Hc'; [| discriminate].
  destruct (bytes_fromhex s) as [bs' |] eqn:Hs; [| discriminate].
  cbn. intros [= <-].
  destruct (IH (String.length s)) with (s := s) (bs := bs')
    as (Hall & Hlen & Hval); [cbn; lia | reflexivity | exact Hs |].
  rewrite (hex_digit_not_space _ _ Hc').
  cbn [negb string_forall String.length hex_value_from fold_left].
  unfold is_hex at 1 2. rewrite Hc, Hc'. fold (strip_spaces s).
  rewrite Hall, Hlen. split; [reflexivity |]. split; [cbn; lia |].
  intros acc. unfold default, from_option, id. rewrite Hval. f_equal. lia.
Qed.

Lemma struct_unpack_f_ok bs v : struct_unpack_f bs = Ok v -> length bs = 4%nat.
Proof.
  destruct bs as [| ? [| ? [| ? [| ? [| ? ?]]]]]; cbn; congruence.
Qed.

Lemma bytes_fromhex_bytes s bs :
  bytes_fromhex s = Ok bs -> Forall (fun b => 0 <= b < 256) bs.
Proof.
  remember (String.length s) as n eqn:Hn.
  revert s bs Hn. induction (lt_wf n) as [n _ IH]. intros s bs -> .
  destruct s as [| c s]; cbn [bytes_fromhex].
  { intros [= <-]. constructor. }
  destruct (is_space c).
  { apply (IH (String.length s)); [cbn; lia | reflexivity]. }
  destruct (hex_digit c) as [top |] eqn:Hc; [| discriminate].
  destruct s as [| c' s]; [discriminate |].
  destruct (hex_digit c') as [bot |] eqn:Hc'; [| discriminate].
  destruct (bytes_fromhex s) as [bs' |] eqn:Hs; [| discriminate].
  cbn. intros [= <-].
  apply hex_digit_range in Hc, Hc'. constructor; [lia |].
  apply (IH (String.length s)) with (s := s); [cbn; lia | reflexivity | exact Hs].
Qed.

(** What a successful decoding returns: the string is, whitespace apart,
    eight hexadecimal characters, and the value is the pattern they
    denote, a signalling NaN quieted. *)
Lemma hex_to_float_ok s v :
  hex_to_float s = Ok v ->
  eight_hex (strip_spaces s) = true /\
  v = via_double (hex_value (strip_spaces s)) /\
  0 <= hex_value (strip_spaces s) < 2 ^ 32.
Proof.
  unfold hex_to_float. destruct (bytes_fromhex s) as [bs |] eqn:Hbs;
    [| discriminate].
  cbn [mbind result_bind]. intros Hv.
  pose proof (bytes_fromhex_bytes _ _ Hbs) as Hall.
  destruct (bytes_fromhex_ok _ _ Hbs) as (Hhex & Hlen & Hval).
  pose proof (struct_unpack_f_ok _ _ Hv) as H4.
  split; [unfold eight_hex; rewrite Hhex, Hlen, H4; reflexivity |].
  destruct bs as [| b0 [| b1 [| b2 [| b3 [| ? ?]]]]]; try discriminate.
  repeat match goal with
         | H : Forall _ (_ :: _) |- _ => apply Forall_cons in H as [? H]
         end.
  rewrite struct_unpack_f_sum in Hv by assumption. injection Hv as <-.
  unfold hex_value. rewrite Hval. cbn [fold_left].
  change (2 ^ 24) with 16777216. change (2 ^ 16) with 65536.
  change (2 ^ 8) with 256. change (2 ^ 32) with 4294967296.
  split; [f_equal; lia | lia].
Qed.


Lemma eight_hex_decode s :
  eight_hex s = true ->
  hex_to_float s = Ok (via_double (hex_value s)) /\ is_float32 (hex_value s).
Proof.
  unfold eight_hex. intros H. apply andb_true_iff in H as [Hlen Hall].
  apply Nat.eqb_eq in Hlen.
  do 8 (destruct s as [| ? s]; [discriminate |]).
  destruct s; [| discriminate]. clear Hlen.
  cbn [string_forall] in Hall.
  repeat match goal with
         | H : _ && _ = true |- _ => apply andb_true_iff in H as [? H]
         end.
  repeat match goal with
         | H : is_hex ?c = true |- _ =>
             let d := fresh "d" in let Hd := fresh "Hd" in
             apply is_hex_digit in H as [d Hd];
             pose proof (hex_digit_range _ _ Hd);
             pose proof (hex_digit_not_space _ _ Hd)
         end.
  unfold hex_to_float, hex_value. cbn [bytes_fromhex hex_value_from].
  repeat match goal with H : is_space _ = false |- _ => rewrite H; clear H end.
  repeat match goal with H : hex_digit _ = Some _ |- _ => rewrite H; clear H end.
  cbn [mbind result_bind mret result_ret]. unfold default, from_option, id.
  rewrite struct_unpack_f_sum by lia.
  unfold is_float32. change (2 ^ 24) with 16777216.
  change (2 ^ 16) with 65536. change (2 ^ 8) with 256.
  change (2 ^ 32) with 4294967296.
  split; [do 2 f_equal |]; lia.
Qed.










(** ** Order of [float32] patterns *)

Lemma exponent_bits_range x : 0 <= exponent_bits x <= 255.
Proof.
  unfold exponent_bits. rewrite land_255.
  pose proof (Z.mod_pos_bound (Z.shiftr x 23) 256). lia.
Qed.

Lemma fraction_bits_range x : 0 <= fraction_bits x < 2 ^ 23.
Proof.
  unfold fraction_bits. change (2 ^ 23 - 1) with (Z.ones 23).
  rewrite Z.land_ones by lia. apply Z.mod_pos_bound. lia.
Qed.

(** Comparing the values two patterns denote is comparing their
    sign-magnitude keys, unless one of them is a NaN. *)
Lemma SFcompare_float32 a b :
  SFcompare (float32_to_spec a) (float32_to_spec b) =
  if isnan a || isnan b then None else Some (f32_key a ?= f32_key b).
Proof.
  unfold isnan, float32_to_spec, f32_key.
  pose proof (exponent_bits_range a) as Hea.
  pose proof (fraction_bits_range a) as Hma.
  pose proof (exponent_bits_range b) as Heb.
  pose proof (fraction_bits_range b) as Hmb.
  revert Hea Hma Heb Hmb.
  generalize (exponent_bits a) (fraction_bits a) (sign_bit a)
             (exponent_bits b) (fraction_bits b) (sign_bit b).
  intros e1 m1 s1 e2 m2 s2. change (2 ^ 23) with 8388608. intros.
  destruct (Z.eqb_spec e1 255), (Z.eqb_spec m1 0), (Z.eqb_spec e1 0),
           (Z.eqb_spec e2 255), (Z.eqb_spec m2 0), (Z.eqb_spec e2 0),
           s1, s2; cbn [SFcompare orb]; try reflexivity; try lia;
    f_equal; symmetry;
    repeat match goal with
      | |- context [Pos.compare_cont Eq ?p ?q] =>
          change (Pos.compare_cont Eq p q) with (Pos.compare p q);
          destruct (Pos.compare_spec p q)
      | |- context [Z.compare ?x ?y] =>
          lazymatch goal with
          | |- Z.compare x y = _ => fail
          | _ => destruct (Z.compare_spec x y)
          end
      end;
    cbn [CompOpp];
    first [ apply Z.compare_eq_iff | apply Z.compare_lt_iff
          | apply Z.compare_gt_iff ]; lia.
Qed.

Lemma f32_ge_key a b :
  f32_ge a b = negb (isnan a) && negb (isnan b) && (f32_key b <=? f32_key a).
Proof.
  unfold f32_ge, SFleb. rewrite SFcompare_float32.
  destruct (isnan a), (isnan b); reflexivity.
Qed.

Lemma f32_lt_key a b :
  f32_lt a b = negb (isnan a) && negb (isnan b) && (f32_key a <? f32_key b).
Proof.
  unfold f32_lt, SFltb. rewrite SFcompare_float32.
  destruct (isnan a), (isnan b); reflexivity.
Qed.

Lemma f32_ge_refl a : isnan a = false -> f32_ge a a = true.
Proof. intros Ha. rewrite f32_ge_key, Ha. apply Z.leb_refl. Qed.

(** ** The maximum of two numbers, and of a sequence *)

Lemma np_maximum_cases a b :
  np_maximum a b = a \/ np_maximum a b = b.
Proof. unfold np_maximum. destruct (isnan a), (f32_gt a b); auto. Qed.

(** [np.maximum] propagates NaN. *)
Lemma np_maximum_nan a b :
  isnan (np_maximum a b) = isnan a || isnan b.
Proof.
  unfold np_maximum, f32_gt. rewrite f32_lt_key.
  destruct (isnan a) eqn:Ha; [exact Ha |].
  destruct (isnan b) eqn:Hb; cbn [negb andb orb]; [exact Hb |].
  destruct (f32_key b <? f32_key a); assumption.
Qed.

(** On values that are not NaN, [np.maximum] is the larger of the two. *)
Lemma np_maximum_key a b :
  isnan a = false -> isnan b = false ->
  f32_key (np_maximum a b) = Z.max (f32_key a) (f32_key b).
Proof.
  intros Ha Hb. unfold np_maximum, f32_gt. rewrite f32_lt_key, Ha, Hb.
  cbn [negb andb].
  destruct (Z.ltb_spec (f32_key b) (f32_key a)); lia.
Qed.

(** Of two zeros the second one is returned, whatever their signs. *)
Lemma np_maximum_zeros a b :
  is_zero a = true -> is_zero b = true -> np_maximum a b = b.
Proof.
  unfold is_zero. intros Ha Hb.
  apply andb_true_iff in Ha as [Ea Fa]. apply andb_true_iff in Hb as [Eb Fb].
  apply Z.eqb_eq in Ea, Fa, Eb, Fb.
  unfold np_maximum, f32_gt. rewrite f32_lt_key, !isnan_bits, Ea, Eb.
  cbn [Z.eqb andb negb]. unfold f32_key. rewrite Ea, Fa, Eb, Fb.
  destruct (sign_bit a), (sign_bit b); reflexivity.
Qed.

(** The running maximum over a non-empty sequence: it is one
    of the elements, it is a NaN as soon as one element is, and otherwise
    no element is above it. *)
Lemma fold_np_maximum l x :
  let v := fold_left np_maximum l x in
  v ∈ x :: l /\
  isnan v = existsb isnan (x :: l) /\
  (existsb isnan (x :: l) = false ->
   forall w, w ∈ x :: l -> f32_key w <= f32_key v).
Proof.
  revert x. induction l as [| y l IH]; intros x; cbn [fold_left].
  - cbn [existsb]. rewrite orb_false_r. repeat split.
    + apply list_elem_of_here.
    + intros _ w Hw. apply list_elem_of_singleton in Hw as ->. lia.
  - destruct (IH (np_maximum x y)) as (Hin & Hnan & Hmax).
    cbn zeta in *. set (v := fold_left np_maximum l (np_maximum x y)) in *.
    cbn [existsb] in *. rewrite np_maximum_nan in Hnan.
    split; [| split].
    + apply elem_of_cons in Hin as [Hv | Hin].
      * rewrite Hv. destruct (np_maximum_cases x y) as [-> | ->].
        -- apply list_elem_of_here.
        -- apply list_elem_of_further, list_elem_of_here.
      * do 2 apply list_elem_of_further. exact Hin.
    + rewrite Hnan. rewrite orb_assoc. reflexivity.
    + intros Hno w Hw.
      apply orb_false_iff in Hno as [Hx Hno].
      apply orb_false_iff in Hno as [Hy Hno].
      rewrite np_maximum_nan, Hx, Hy in Hmax. cbn [orb] in Hmax.
      specialize (Hmax Hno).
      pose proof (Hmax _ (list_elem_of_here _ _)) as Hxy.
      rewrite np_maximum_key in Hxy by assumption.
      apply elem_of_cons in Hw as [-> | Hw]; [lia |].
      apply elem_of_cons in Hw as [-> | Hw]; [lia |].
      apply Hmax, list_elem_of_further, Hw.
Qed.

(** ** The reference kernel of the maximum-reduction *)

Lemma existsb_isnan l :
  existsb isnan l = true <-> exists w, w ∈ l /\ isnan w = true.
Proof.
  rewrite existsb_exists. split; intros (w & Hw & Hn); exists w;
    (split; [apply list_elem_of_In, Hw | exact Hn]).
Qed.

(** One call of the kernel extends the running maximum of [l] to the
    running maximum of [l] and the row. *)
Lemma reduce_row_spec l a row :
  isnan a = existsb isnan l ->
  (isnan a = false -> a ∈ l /\ forall w, w ∈ l -> f32_key w <= f32_key a) ->
  let v := reduce_row a row in
  isnan v = existsb isnan (l ++ row) /\
  (isnan v = false ->
   v ∈ l ++ row /\ forall w, w ∈ l ++ row -> f32_key w <= f32_key v).
Proof.
  intros Hnan Hmax. cbn zeta. rewrite existsb_app, <- Hnan.
  destruct row as [| y row].
  { cbn [reduce_row existsb]. rewrite app_nil_r, orb_false_r.
    split; [reflexivity | exact Hmax]. }
  unfold reduce_row.
  destruct (fold_np_maximum (y :: row) (if isnan a then quiet_nan else a))
    as (Hin & Hn & Hle). cbn zeta in *.
  set (v := fold_left np_maximum (y :: row) _) in *.
  destruct (isnan a) eqn:Ha.
  - cbn [existsb] in Hn. change (isnan quiet_nan) with true in Hn.
    cbn [orb] in *. split; [exact Hn | congruence].
  - specialize (Hmax eq_refl) as [Hal Hbound].
    change (existsb isnan (a :: y :: row))
      with (isnan a || existsb isnan (y :: row)) in Hn, Hle.
    rewrite Ha in Hn, Hle. cbn [orb] in *.
    split; [exact Hn |]. intros Hv. rewrite Hn in Hv. specialize (Hle Hv).
    split.
    + apply elem_of_app. apply elem_of_cons in Hin as [-> | Hin]; auto.
    + intros w Hw. apply elem_of_app in Hw as [Hw | Hw].
      * pose proof (Hle a (list_elem_of_here _ _)). specialize (Hbound w Hw).
        lia.
      * apply Hle, list_elem_of_further, Hw.
Qed.

Lemma reduce_rows_some rs : forall l a,
  isnan a = existsb isnan l ->
  (isnan a = false -> a ∈ l /\ forall w, w ∈ l -> f32_key w <= f32_key a) ->
  exists v, reduce_rows (Some a) rs = Some v /\
    isnan v = existsb isnan (l ++ concat rs) /\
    (isnan v = false ->
     v ∈ l ++ concat rs /\
     forall w, w ∈ l ++ concat rs -> f32_key w <= f32_key v).
Proof.
  induction rs as [| r rs IH]; intros l a Hnan Hmax; cbn [reduce_rows concat].
  - exists a. rewrite app_nil_r. auto.
  - destruct (reduce_row_spec l a r Hnan Hmax) as [Hn Hm]. cbn zeta in *.
    destruct (IH (l ++ r) (reduce_row a r) Hn Hm) as (v & Hv & Hvn & Hvm).
    exists v. rewrite app_assoc. auto.
Qed.

Lemma reduce_rows_none rs :
  concat rs <> [] ->
  exists v, reduce_rows None rs = Some v /\
    isnan v = existsb isnan (concat rs) /\
    (isnan v = false ->
     v ∈ concat rs /\ forall w, w ∈ concat rs -> f32_key w <= f32_key v).
Proof.
  induction rs as [| r rs IH]; cbn [reduce_rows concat]; [congruence |].
  destruct r as [| x r]; [exact IH |]. intros _.
  destruct (reduce_row_spec [x] x r) as [Hn Hm].
  { cbn [existsb]. rewrite orb_false_r. reflexivity. }
  { intros _. split; [apply list_elem_of_here |].
    intros w Hw. apply list_elem_of_singleton in Hw as ->. lia. }
  cbn zeta in *.
  destruct (reduce_rows_some rs ([x] ++ r) (reduce_row x r) Hn Hm)
    as (v & Hv & Hvn & Hvm).
  exists v. rewrite <- app_assoc in Hvn, Hvm. auto.
Qed.

(** The reference kernel fulfils the contract of the maximum-reduction. *)
Lemma reference_maximum_reduce_contract :
  maximum_reduce_contract (H := reference_numpy).
Proof.
  intros m Hne. unfold flatten in *. cbn [maximum_reduce reference_numpy].
  destruct (reduce_rows_none (rows m) Hne) as (v & -> & Hn & Hm).
  cbn [default from_option]. unfold id. split.
  - rewrite Hn. apply existsb_isnan.
  - intros Hv. destruct (Hm Hv) as [Hin Hle]. split; [exact Hin |].
    intros w Hw. rewrite f32_ge_key, Hv.
    assert (Hwn : isnan w = false).
    { destruct (isnan w) eqn:Hw'; [| reflexivity].
      rewrite Hn in Hv. apply not_true_iff_false in Hv. exfalso. apply Hv.
      apply existsb_isnan. eauto. }
    rewrite Hwn. cbn [negb andb]. apply Z.leb_le, Hle, Hw.
Qed.

(** ** Loops and in-place updates *)

Lemma for_each_seq_inv {S : Type} (P : nat -> S -> Prop)
    (body : Z -> S -> result S) (a k : nat) (s : S) :
  P a s ->
  (forall i s, (a <= i < a + k)%nat -> P i s ->
               exists s', body (Z.of_nat i) s = Ok s' /\ P (Datatypes.S i) s') ->
  exists s', for_each (map Z.of_nat (seq a k)) body s = Ok s' /\ P (a + k)%nat s'.
Proof.
  revert a s. induction k as [| k IH]; intros a s H0 Hstep; cbn [seq map for_each].
  - exists s. rewrite Nat.add_0_r. auto.
  - destruct (Hstep a s) as (s1 & Hb & H1); [lia | exact H0 |].
    rewrite Hb. cbn [mbind result_bind].
    destruct (IH (Datatypes.S a) s1) as (s' & Hr & H'); [exact H1 | |].
    + intros i s2 Hi. apply Hstep. lia.
    + exists s'. split; [exact Hr |].
      replace (a + Datatypes.S k)%nat with (Datatypes.S a + k)%nat by lia.
      exact H'.
Qed.

Lemma for_each_range_inv {S : Type} (P : nat -> S -> Prop)
    (body : Z -> S -> result S) (n : Z) (s : S) :
  P 0%nat s ->
  (forall i s, (i < Z.to_nat n)%nat -> P i s ->
               exists s', body (Z.of_nat i) s = Ok s' /\ P (Datatypes.S i) s') ->
  exists s', for_each (range n) body s = Ok s' /\ P (Z.to_nat n) s'.
Proof.
  intros H0 Hstep. unfold range.
  apply (for_each_seq_inv P body 0 (Z.to_nat n) s H0).
  intros i s1 Hi. apply Hstep. lia.
Qed.

Lemma norm_index_in_range (i n : nat) :
  (i < n)%nat -> norm_index (Z.of_nat i) n = Ok i.
Proof.
  intros Hi. unfold norm_index.
  destruct (Z.leb_spec 0 (Z.of_nat i)); [| lia].
  destruct (Z.ltb_spec (Z.of_nat i) (Z.of_nat n)); [| lia].
  cbn [andb]. rewrite Nat2Z.id. reflexivity.
Qed.

(** An assignment [m[i, j] = v] inside the array: the shape is kept, the
    cell reads [v] and every other cell is unchanged. *)
Lemma setitem2_spec (m : ndarray float32) (i j : nat) (v : float32) :
  wf_ndarray m -> (i < shape_h m)%nat -> (j < shape_w m)%nat ->
  exists m', setitem2 m (Z.of_nat i) (Z.of_nat j) v = Ok m' /\
    wf_ndarray m' /\ shape m' = shape m /\
    lookup2 m' i j = Some v /\
    forall i' j', (i', j') <> (i, j) -> lookup2 m' i' j' = lookup2 m i' j'.
Proof.
  intros Hwf Hi Hj. unfold setitem2.
  rewrite !norm_index_in_range by assumption. cbn [mbind result_bind mret result_ret].
  eexists. split; [reflexivity |].
  unfold wf_ndarray, shape, shape_h, shape_w, lookup2 in *. cbn [width rows].
  destruct (lookup_lt_is_Some_2 (rows m) i Hi) as [r Hr].
  assert (Hlen : length r = width m).
  { eapply (proj1 (Forall_lookup _ _) Hwf); eauto. }
  split; [| split; [| split]].
  - apply Forall_lookup. intros k r' Hk.
    rewrite list_lookup_alter in Hk.
    case_decide as Hik.
    + subst k. rewrite Hr in Hk. cbn in Hk. injection Hk as <-.
      rewrite length_insert. exact Hlen.
    + eapply (proj1 (Forall_lookup _ _) Hwf); eauto.
  - rewrite length_alter. reflexivity.
  - rewrite list_lookup_alter. case_decide; [| congruence].
    rewrite Hr. cbn. apply list_lookup_insert_eq. lia.
  - intros i' j' Hne. rewrite list_lookup_alter. case_decide as Hik.
    + subst i'. rewrite Hr. cbn. apply list_lookup_insert_ne. congruence.
    + reflexivity.
Qed.

(** The nested loop that fills an [h] x [w] array cell by cell, row by
    row: when every cell value is computed without error, the loop ends
    and the array holds exactly these values. *)
Lemma fill_cells (cell : Z -> Z -> result float32) (f : nat -> nat -> float32)
    (h w : Z) (o : ndarray float32) :
  wf_ndarray o -> shape o = (Z.to_nat h, Z.to_nat w) ->
  (forall i j, (i < Z.to_nat h)%nat -> (j < Z.to_nat w)%nat ->
               cell (Z.of_nat i) (Z.of_nat j) = Ok (f i j)) ->
  exists o',
    for_each (range h) (fun i o =>
      for_each (range w) (fun j o => v ← cell i j; setitem2 o i j v) o) o
    = Ok o' /\
    wf_ndarray o' /\ shape o' = (Z.to_nat h, Z.to_nat w) /\
    forall i j, (i < Z.to_nat h)%nat -> (j < Z.to_nat w)%nat ->
                lookup2 o' i j = Some (f i j).
Proof.
  intros Hwf Hshape Hcell.
  set (P := fun (i : nat) (o : ndarray float32) =>
    wf_ndarray o /\ shape o = (Z.to_nat h, Z.to_nat w) /\
    forall i' j', (i' < i)%nat -> (j' < Z.to_nat w)%nat ->
                  lookup2 o i' j' = Some (f i' j')).
  destruct (for_each_range_inv P
    (fun i o => for_each (range w)
                  (fun j o => v ← cell i j; setitem2 o i j v) o) h o)
    as (o' & Hrun & Hwf' & Hshape' & Hcells).
  - repeat split; [exact Hwf | exact Hshape | intros; lia].
  - intros i o1 Hi (Hwf1 & Hshape1 & Hdone).
    set (Q := fun (j : nat) (o : ndarray float32) =>
      wf_ndarray o /\ shape o = (Z.to_nat h, Z.to_nat w) /\
      forall i' j', (i' < i \/ (i' = i /\ j' < j))%nat ->
                    (j' < Z.to_nat w)%nat ->
                    lookup2 o i' j' = Some (f i' j')).
    destruct (for_each_range_inv Q
      (fun j o => v ← cell (Z.of_nat i) j; setitem2 o (Z.of_nat i) j v) w o1)
      as (o2 & Hrun2 & Hwf2 & Hshape2 & Hcells2).
    + repeat split; [exact Hwf1 | exact Hshape1 |].
      intros i' j' [Hlt | [_ Hlt]] Hj'; [auto | lia].
    + intros j o3 Hj (Hwf3 & Hshape3 & Hdone3).
      rewrite (Hcell i j Hi Hj). cbn [mbind result_bind].
      injection Hshape3 as Hh3 Hw3.
      destruct (setitem2_spec o3 i j (f i j) Hwf3) as
        (o4 & Hset & Hwf4 & Hshape4 & Hget & Hother); [lia | lia |].
      exists o4. split; [exact Hset |].
      repeat split; [exact Hwf4 | |].
      * rewrite Hshape4. unfold shape. congruence.
      * intros i' j' Hij Hj'.
        destruct (decide ((i', j') = (i, j))) as [[= -> ->] | Hne];
          [exact Hget |].
        rewrite (Hother _ _ Hne). apply Hdone3; [| exact Hj'].
        destruct Hij as [Hlt | [-> Hlt]]; [auto |].
        right. split; [reflexivity |].
        assert (j' <> j) by congruence. lia.
    + exists o2. split; [exact Hrun2 |].
      repeat split; [exact Hwf2 | exact Hshape2 |].
      intros i' j' Hi' Hj'. apply Hcells2; [| exact Hj']. lia.
  - exists o'. repeat split; assumption.
Qed.

Lemma np_zeros_spec (h w : Z) :
  0 <= h -> 0 <= w ->
  exists o, np_zeros h w = Ok o /\ wf_ndarray o /\
            shape o = (Z.to_nat h, Z.to_nat w).
Proof.
  intros Hh Hw. unfold np_zeros.
  destruct (Z.ltb_spec h 0); [lia |]. destruct (Z.ltb_spec w 0); [lia |].
  eexists. split; [reflexivity |]. split.
  - unfold wf_ndarray. cbn [rows width]. apply Forall_replicate.
    apply length_replicate.
  - unfold shape, shape_h, shape_w. cbn [rows width].
    rewrite length_replicate. reflexivity.
Qed.

Lemma np_zeros_negative (h w : Z) :
  h < 0 \/ w < 0 -> np_zeros h w = Error ValueError.
Proof.
  intros Hneg. unfold np_zeros.
  destruct (Z.ltb_spec h 0), (Z.ltb_spec w 0); cbn [orb]; try reflexivity; lia.
Qed.

(** ** Padding and windows *)

Lemma map_fmap {A B} (f : A -> B) (l : list A) : map f l = f <$> l.
Proof. induction l as [| x l IH]; cbn; [reflexivity | rewrite IH; reflexivity]. Qed.

Lemma elem_of_concat {A} (x : A) (ls : list (list A)) :
  x ∈ concat ls <-> exists l, l ∈ ls /\ x ∈ l.
Proof.
  induction ls as [| l ls IH]; cbn [concat].
  - split; [intros H; inversion H | intros (l & Hl & _); inversion Hl].
  - rewrite elem_of_app, IH. split.
    + intros [Hx | (l' & Hl' & Hx)].
      * exists l. split; [apply list_elem_of_here | exact Hx].
      * exists l'. split; [apply list_elem_of_further, Hl' | exact Hx].
    + intros (l' & Hl' & Hx). apply elem_of_cons in Hl' as [-> | Hl'];
        [left; exact Hx | right; eauto].
Qed.

Lemma wf_row {A} (m : ndarray A) (i : nat) (r : list A) :
  wf_ndarray m -> rows m !! i = Some r -> length r = width m.
Proof. intros Hwf Hr. eapply (proj1 (Forall_lookup _ _) Hwf); eauto. Qed.

Lemma lookup2_is_Some {A} (m : ndarray A) (i j : nat) :
  wf_ndarray m -> (i < shape_h m)%nat -> (j < shape_w m)%nat ->
  is_Some (lookup2 m i j).
Proof.
  intros Hwf Hi Hj. unfold lookup2.
  destruct (lookup_lt_is_Some_2 (rows m) i Hi) as [r Hr]. rewrite Hr. cbn.
  apply lookup_lt_is_Some_2. rewrite (wf_row m i r Hwf Hr). exact Hj.
Qed.

Lemma np_pad_wf (m : ndarray float32) (p : nat) :
  wf_ndarray m -> wf_ndarray (np_pad m p).
Proof.
  intros Hwf. unfold wf_ndarray, np_pad in *. cbn [rows width].
  rewrite !Forall_app. repeat split.
  - apply Forall_replicate, length_replicate.
  - rewrite map_fmap. apply Forall_fmap. eapply Forall_impl; [exact Hwf |].
    intros r Hr. cbn in *. rewrite !length_app, !length_replicate. lia.
  - apply Forall_replicate, length_replicate.
Qed.

Lemma np_pad_shape (m : ndarray float32) (p : nat) :
  shape (np_pad m p) = (p + shape_h m + p, p + shape_w m + p)%nat.
Proof.
  unfold shape, shape_h, shape_w, np_pad. cbn [rows width].
  rewrite !length_app, !length_replicate, length_map. f_equal. lia.
Qed.

(** The cells of the padded array: the input, shifted by [p] in both
    directions, and zero everywhere around it. *)
Lemma np_pad_lookup (m : ndarray float32) (p r c : nat) :
  wf_ndarray m ->
  (r < p + shape_h m + p)%nat -> (c < p + shape_w m + p)%nat ->
  lookup2 (np_pad m p) r c =
  if (p <=? r)%nat && (r <? p + shape_h m)%nat &&
     (p <=? c)%nat && (c <? p + shape_w m)%nat
  then lookup2 m (r - p) (c - p) else Some pos_zero.
Proof.
  intros Hwf Hr Hc. unfold lookup2, np_pad, shape_h, shape_w in *.
  cbn [rows width].
  assert (Hz : forall k, (k < p)%nat ->
            replicate p (replicate (p + width m + p) pos_zero) !! k ≫=
              (fun r0 => r0 !! c) = Some pos_zero).
  { intros k Hk. rewrite lookup_replicate_2 by exact Hk. cbn.
    apply lookup_replicate_2. exact Hc. }
  destruct (Nat.leb_spec p r) as [Hpr | Hpr]; cbn [andb].
  2:{ rewrite lookup_app_l by (rewrite length_replicate; lia). apply Hz. lia. }
  rewrite lookup_app_r by (rewrite length_replicate; lia).
  rewrite length_replicate.
  destruct (Nat.ltb_spec r (p + length (rows m))) as [Hrh | Hrh]; cbn [andb].
  2:{ rewrite lookup_app_r by (rewrite length_map; lia).
      rewrite length_map. apply Hz. lia. }
  rewrite lookup_app_l by (rewrite length_map; lia).
  rewrite map_fmap, list_lookup_fmap.
  destruct (lookup_lt_is_Some_2 (rows m) (r - p)) as [row Hrow]; [lia |].
  rewrite Hrow. cbn [mbind option_bind fmap option_fmap option_map].
  pose proof (wf_row m _ _ Hwf Hrow) as Hlen.
  destruct (Nat.leb_spec p c) as [Hpc | Hpc]; cbn [andb].
  2:{ rewrite lookup_app_l by (rewrite length_replicate; lia).
      apply lookup_replicate_2. lia. }
  rewrite lookup_app_r by (rewrite length_replicate; lia).
  rewrite length_replicate.
  destruct (Nat.ltb_spec c (p + width m)) as [Hcw | Hcw].
  - rewrite lookup_app_l by lia. reflexivity.
  - rewrite lookup_app_r by lia. apply lookup_replicate_2. lia.
Qed.

Lemma slice_bound_in_range (i n : nat) :
  (i <= n)%nat -> slice_bound (Z.of_nat i) n = i.
Proof.
  intros Hi. unfold slice_bound.
  destruct (Z.ltb_spec (Z.of_nat i) 0); lia.
Qed.

Lemma py_slice_in_range {A} (a n : nat) (l : list A) :
  (a + n <= length l)%nat ->
  py_slice (Z.of_nat a) (Z.of_nat a + Z.of_nat n) l = take n (drop a l).
Proof.
  intros Hl. unfold py_slice. rewrite <- Nat2Z.inj_add.
  rewrite !slice_bound_in_range by lia. f_equal. lia.
Qed.

(** The values of a slice that lies inside the array are the values of
    the window it spans. *)
Lemma elem_of_window (m : ndarray float32) (r0 c0 ph pw : nat) (w : float32) :
  wf_ndarray m ->
  (r0 + ph <= shape_h m)%nat -> (c0 + pw <= shape_w m)%nat ->
  w ∈ flatten (slice2 m (Z.of_nat r0) (Z.of_nat r0 + Z.of_nat ph)
                        (Z.of_nat c0) (Z.of_nat c0 + Z.of_nat pw))
  <-> in_window m r0 c0 ph pw w.
Proof.
  intros Hwf Hr Hc. unfold flatten, slice2, in_window, lookup2, shape_h, shape_w in *.
  cbn [rows]. rewrite py_slice_in_range by exact Hr.
  rewrite elem_of_concat. split.
  - intros (l & Hl & Hw). rewrite map_fmap in Hl.
    apply list_elem_of_fmap in Hl as (row & -> & Hrow).
    apply elem_of_take in Hrow as (a & Ha & Hlt).
    rewrite lookup_drop in Ha.
    rewrite py_slice_in_range in Hw by (rewrite (wf_row m _ _ Hwf Ha); lia).
    apply elem_of_take in Hw as (b & Hb & Hltb). rewrite lookup_drop in Hb.
    exists a, b. rewrite Ha. cbn. auto.
  - intros (a & b & Ha & Hb & Hw).
    destruct (rows m !! (r0 + a)%nat) as [row |] eqn:Hrow; [| discriminate].
    cbn in Hw. exists (py_slice (Z.of_nat c0) (Z.of_nat c0 + Z.of_nat pw) row).
    split.
    + rewrite map_fmap. apply list_elem_of_fmap. exists row. split; [reflexivity |].
      apply elem_of_take. exists a. rewrite lookup_drop. auto.
    + rewrite py_slice_in_range by (rewrite (wf_row m _ _ Hwf Hrow); lia).
      apply elem_of_take. exists b. rewrite lookup_drop. auto.
Qed.

Lemma lookup2_Some_lt {A} (m : ndarray A) (i j : nat) (v : A) :
  wf_ndarray m -> lookup2 m i j = Some v ->
  (i < shape_h m)%nat /\ (j < shape_w m)%nat.
Proof.
  intros Hwf. unfold lookup2, shape_h, shape_w.
  destruct (rows m !! i) as [r |] eqn:Hr; [| discriminate]. cbn. intros Hv.
  split; [eapply lookup_lt_Some, Hr |].
  rewrite <- (wf_row m i r Hwf Hr). eapply lookup_lt_Some, Hv.
Qed.

Lemma ndarray_ext {A} (m1 m2 : ndarray A) :
  wf_ndarray m1 -> wf_ndarray m2 -> shape m1 = shape m2 ->
  (forall i j, (i < shape_h m1)%nat -> (j < shape_w m1)%nat ->
               lookup2 m1 i j = lookup2 m2 i j) ->
  m1 = m2.
Proof.
  destruct m1 as [w1 r1], m2 as [w2 r2].
  unfold wf_ndarray, shape, shape_h, shape_w, lookup2. cbn [width rows].
  intros Hwf1 Hwf2 [= Hlen <-] Hcells. f_equal.
  apply list_eq. intros i.
  destruct (r1 !! i) as [l1 |] eqn:H1.
  - pose proof (lookup_lt_Some _ _ _ H1) as Hi.
    destruct (lookup_lt_is_Some_2 r2 i) as [l2 H2]; [lia |].
    rewrite H2. f_equal.
    pose proof (proj1 (Forall_lookup _ _) Hwf1 i l1 H1) as Hl1.
    pose proof (proj1 (Forall_lookup _ _) Hwf2 i l2 H2) as Hl2.
    cbn in Hl1, Hl2. apply list_eq. intros j.
    destruct (Nat.lt_ge_cases j w1) as [Hj | Hj].
    + specialize (Hcells i j Hi Hj). rewrite H1, H2 in Hcells. exact Hcells.
    + rewrite !lookup_ge_None_2 by lia. reflexivity.
  - symmetry. apply lookup_ge_None_2. apply lookup_ge_None_1 in H1. lia.
Qed.

(** [m[0, 0]] of an array that has a cell, and of one that has none. *)
Lemma getitem2_origin {A} (m : ndarray A) :
  wf_ndarray m ->
  if ((0 <? shape_h m) && (0 <? shape_w m))%nat
  then exists v, getitem2 m 0 0 = Ok v
  else getitem2 m 0 0 = Error IndexError.
Proof.
  intros Hwf. unfold getitem2. change 0 with (Z.of_nat 0).
  destruct (Nat.ltb_spec 0 (shape_h m)) as [Hh | Hh]; cbn [andb].
  - rewrite (norm_index_in_range 0 (shape_h m) Hh). cbn [mbind result_bind].
    destruct (Nat.ltb_spec 0 (shape_w m)) as [Hw | Hw].
    + rewrite (norm_index_in_range 0 (shape_w m) Hw). cbn [mbind result_bind].
      destruct (lookup2_is_Some m 0 0 Hwf Hh Hw) as [v Hv].
      rewrite Hv. eauto.
    + replace (shape_w m) with 0%nat by lia. reflexivity.
  - replace (shape_h m) with 0%nat by lia. reflexivity.
Qed.

(** ** Max-pool stage *)

Lemma floordiv_nonzero (a b : Z) : b <> 0 -> floordiv a b = Ok (a / b).
Proof. intros Hb. unfold floordiv. destruct (Z.eqb_spec b 0); [lia | reflexivity]. Qed.

Lemma padded_wf (m : ndarray float32) (p : Z) :
  wf_ndarray m -> wf_ndarray (padded m p).
Proof.
  intros Hwf. unfold padded. destruct (0 <? p); [apply np_pad_wf |]; exact Hwf.
Qed.

Lemma padded_shape (m : ndarray float32) (p : Z) :
  0 <= p ->
  Z.of_nat (shape_h (padded m p)) = Z.of_nat (shape_h m) + 2 * p /\
  Z.of_nat (shape_w (padded m p)) = Z.of_nat (shape_w m) + 2 * p.
Proof.
  intros Hp. unfold padded. destruct (Z.ltb_spec 0 p) as [Hlt | Hge].
  - pose proof (np_pad_shape m (Z.to_nat p)) as Hs.
    pose proof (f_equal fst Hs) as H1. pose proof (f_equal snd Hs) as H2.
    unfold shape in H1, H2. cbn [fst snd] in H1, H2. lia.
  - lia.
Qed.

(** A window whose index is below the computed output dimension lies
    inside the array. *)
Lemma window_fits (n k s i : Z) :
  0 < s -> 0 <= i < (n - k) / s + 1 -> 0 <= i * s /\ i * s + k <= n.
Proof.
  intros Hs Hi. pose proof (Z.mul_div_le (n - k) s Hs).
  assert (i * s <= s * ((n - k) / s)) by nia. nia.
Qed.

Lemma out_dim_padded (m : ndarray float32) (p k s : Z) :
  0 <= p ->
  (Z.of_nat (shape_h (padded m p)) - k) / s + 1
    = out_dim (Z.of_nat (shape_h m)) k s p /\
  (Z.of_nat (shape_w (padded m p)) - k) / s + 1
    = out_dim (Z.of_nat (shape_w m)) k s p.
Proof.
  intros Hp. destruct (padded_shape m p Hp) as [-> ->]. unfold out_dim.
  split; reflexivity.
Qed.

Lemma flatten_empty {A} (m : ndarray A) :
  wf_ndarray m -> (shape_h m = 0 \/ shape_w m = 0)%nat -> flatten m = [].
Proof.
  unfold wf_ndarray, shape_h, shape_w, flatten. intros Hwf [Hh | Hw].
  - destruct (rows m); [reflexivity | discriminate].
  - rewrite Hw in Hwf. induction Hwf as [| r rs Hr _ IH]; [reflexivity |].
    cbn [concat]. rewrite IH. destruct r; [reflexivity | discriminate].
Qed.

Lemma padded_lookup_origin (m : ndarray float32) (p : Z) (r c : nat)
    (v : float32) :
  wf_ndarray m -> lookup2 (padded m p) r c = Some v ->
  (0 < p /\ v = pos_zero) \/ exists r' c', lookup2 m r' c' = Some v.
Proof.
  intros Hwf Hin.
  pose proof (lookup2_Some_lt _ _ _ _ (padded_wf m p Hwf) Hin) as [Hr Hc].
  unfold padded in *. destruct (Z.ltb_spec 0 p) as [Hp | Hp]; [| eauto].
  pose proof (f_equal fst (np_pad_shape m (Z.to_nat p))) as H1.
  pose proof (f_equal snd (np_pad_shape m (Z.to_nat p))) as H2.
  unfold shape in H1, H2. cbn [fst snd] in H1, H2.
  rewrite np_pad_lookup in Hin by (assumption || lia).
  destruct (_ && _) in Hin; [eauto |].
  injection Hin as <-. auto.
Qed.

(** A window that lies inside the array and has a cell is not empty. *)
Lemma window_not_empty (m : ndarray float32) (r0 c0 ph pw : nat) :
  wf_ndarray m ->
  (r0 + ph <= shape_h m)%nat -> (c0 + pw <= shape_w m)%nat ->
  (0 < ph)%nat -> (0 < pw)%nat ->
  flatten (slice2 m (Z.of_nat r0) (Z.of_nat r0 + Z.of_nat ph)
                    (Z.of_nat c0) (Z.of_nat c0 + Z.of_nat pw)) <> [].
Proof.
  intros Hwf Hr Hc Hph Hpw Hnil.
  destruct (lookup2_is_Some m r0 c0 Hwf) as [w Hw]; [lia | lia |].
  assert (Hin : in_window m r0 c0 ph pw w).
  { exists 0%nat, 0%nat. rewrite !Nat.add_0_r. auto. }
  apply (elem_of_window m r0 c0 ph pw w Hwf Hr Hc) in Hin.
  rewrite Hnil in Hin. inversion Hin.
Qed.

Lemma is_maximum_singleton (x : float32) : is_maximum [x] x.
Proof.
  split.
  - split.
    + intros Hx. exists x. split; [apply list_elem_of_here | exact Hx].
    + intros (w & Hw & Hn). apply list_elem_of_singleton in Hw as ->. exact Hn.
  - intros Hx. split; [apply list_elem_of_here |].
    intros w Hw. apply list_elem_of_singleton in Hw as ->.
    apply f32_ge_refl, Hx.
Qed.

Section MaxPoolShape.
Context `{Numpy}.

(** [np.max] raises on the empty array only. *)
Lemma np_max_total (m : ndarray float32) :
  flatten m <> [] -> exists v, np_max m = Ok v.
Proof.
  unfold np_max. destruct (flatten m) as [| x [| y l]]; [congruence | eauto ..].
Qed.

(** The run of [apply_maxpool_2d], given the value [f i j] that [np.max]
    returns on each window. *)
Lemma maxpool_run (m : ndarray float32) (ph pw : Z) (sh sw : option Z) (p : Z)
    (f : nat -> nat -> float32) :
  let sh' := default ph sh in
  let sw' := default pw sw in
  let pm := padded m p in
  let out_h := (Z.of_nat (shape_h pm) - ph) / sh' + 1 in
  let out_w := (Z.of_nat (shape_w pm) - pw) / sw' + 1 in
  wf_ndarray m -> sh' <> 0 -> sw' <> 0 -> 0 <= out_h -> 0 <= out_w ->
  (forall i j, (i < Z.to_nat out_h)%nat -> (j < Z.to_nat out_w)%nat ->
     np_max (slice2 pm (Z.of_nat i * sh') (Z.of_nat i * sh' + ph)
                       (Z.of_nat j * sw') (Z.of_nat j * sw' + pw))
     = Ok (f i j)) ->
  exists out,
    apply_maxpool_2d m ph pw sh sw p = Ok out /\
    wf_ndarray out /\ shape out = (Z.to_nat out_h, Z.to_nat out_w) /\
    forall i j, (i < Z.to_nat out_h)%nat -> (j < Z.to_nat out_w)%nat ->
                lookup2 out i j = Some (f i j).
Proof.
  intros sh' sw' pm out_h out_w Hwf Hsh Hsw Hoh How Hcell.
  unfold apply_maxpool_2d. fold (padded m p). fold sh' sw' pm.
  rewrite !floordiv_nonzero by assumption. cbn [mbind result_bind].
  fold out_h out_w.
  destruct (np_zeros_spec out_h out_w Hoh How) as (o & Hz & Hwfo & Hshape).
  rewrite Hz. cbn [mbind result_bind].
  exact (fill_cells
           (fun i j => np_max (slice2 pm (i * sh') (i * sh' + ph)
                                         (j * sw') (j * sw' + pw)))
           f out_h out_w o Hwfo Hshape Hcell).
Qed.

(** The run of [apply_maxpool_2d] on a positive window and positive
    strides, whenever the computed dimensions are not negative: every
    window lies inside the padded array, and every cell of the output is
    what [np.max] returns on its window. *)
Lemma maxpool_total (m : ndarray float32) (ph pw : Z) (sh sw : option Z) (p : Z) :
  let sh' := default ph sh in
  let sw' := default pw sw in
  let pm := padded m p in
  let out_h := (Z.of_nat (shape_h pm) - ph) / sh' + 1 in
  let out_w := (Z.of_nat (shape_w pm) - pw) / sw' + 1 in
  wf_ndarray m -> 0 < ph -> 0 < pw -> 0 < sh' -> 0 < sw' ->
  0 <= out_h -> 0 <= out_w ->
  exists out,
    apply_maxpool_2d m ph pw sh sw p = Ok out /\
    wf_ndarray out /\ shape out = (Z.to_nat out_h, Z.to_nat out_w) /\
    forall i j, (i < Z.to_nat out_h)%nat -> (j < Z.to_nat out_w)%nat ->
      (i * Z.to_nat sh' + Z.to_nat ph <= shape_h pm)%nat /\
      (j * Z.to_nat sw' + Z.to_nat pw <= shape_w pm)%nat /\
      exists v, lookup2 out i j = Some v /\
        np_max (slice2 pm
                  (Z.of_nat (i * Z.to_nat sh'))
                  (Z.of_nat (i * Z.to_nat sh') + Z.of_nat (Z.to_nat ph))
                  (Z.of_nat (j * Z.to_nat sw'))
                  (Z.of_nat (j * Z.to_nat sw') + Z.of_nat (Z.to_nat pw)))
        = Ok v.
Proof.
  intros sh' sw' pm out_h out_w Hwf Hph Hpw Hsh Hsw Hoh How.
  assert (Hwin : forall i j, (i < Z.to_nat out_h)%nat -> (j < Z.to_nat out_w)%nat ->
    (i * Z.to_nat sh' + Z.to_nat ph <= shape_h pm)%nat /\
    (j * Z.to_nat sw' + Z.to_nat pw <= shape_w pm)%nat /\
    Z.of_nat (i * Z.to_nat sh') = Z.of_nat i * sh' /\
    Z.of_nat (j * Z.to_nat sw') = Z.of_nat j * sw' /\
    exists v,
      np_max (slice2 pm (Z.of_nat i * sh') (Z.of_nat i * sh' + ph)
                        (Z.of_nat j * sw') (Z.of_nat j * sw' + pw)) = Ok v).
  { intros i j Hi Hj.
    destruct (window_fits (Z.of_nat (shape_h pm)) ph sh' (Z.of_nat i) Hsh)
      as [Hr0 Hr1]; [fold out_h; lia |].
    destruct (window_fits (Z.of_nat (shape_w pm)) pw sw' (Z.of_nat j) Hsw)
      as [Hc0 Hc1]; [fold out_w; lia |].
    split; [nia |]. split; [nia |].
    split; [rewrite Nat2Z.inj_mul, Z2Nat.id by lia; reflexivity |].
    split; [rewrite Nat2Z.inj_mul, Z2Nat.id by lia; reflexivity |].
    apply np_max_total.
    pose proof (window_not_empty pm (i * Z.to_nat sh') (j * Z.to_nat sw')
                  (Z.to_nat ph) (Z.to_nat pw)) as Hne.
    rewrite !Nat2Z.inj_mul, !Z2Nat.id in Hne by lia.
    apply Hne; [apply padded_wf, Hwf | nia | nia | lia | lia]. }
  set (f := fun i j =>
    match np_max (slice2 pm (Z.of_nat i * sh') (Z.of_nat i * sh' + ph)
                            (Z.of_nat j * sw') (Z.of_nat j * sw' + pw)) with
    | Ok v => v | Error _ => pos_zero end).
  destruct (maxpool_run m ph pw sh sw p f) as (out & Hrun & Hwfo & Hshape & Hcells);
    try assumption; try (fold sh' sw'; lia).
  - intros i j Hi Hj. destruct (Hwin i j Hi Hj) as (_ & _ & _ & _ & v & Hv).
    unfold f. fold sh' sw' pm. rewrite Hv. reflexivity.
  - exists out. split; [exact Hrun |]. split; [exact Hwfo |].
    split; [exact Hshape |]. intros i j Hi Hj.
    destruct (Hwin i j Hi Hj) as (Hr & Hc & Ei & Ej & v & Hv).
    split; [exact Hr |]. split; [exact Hc |].
    exists v. rewrite Ei, Ej, !Z2Nat.id by lia. split; [| exact Hv].
    rewrite (Hcells i j Hi Hj). unfold f. rewrite Hv. reflexivity.
Qed.

(** C2. Max-pool output shape: on a positive window and positive strides
    (a stride left unspecified being the window dimension) and a
    non-negative padding [p], whenever the dimensions
    [floor((H0 + 2p - ph) / sh) + 1] and [floor((W0 + 2p - pw) / sw) + 1]
    are not negative, [apply_maxpool_2d] returns a matrix of exactly
    these dimensions. *)
Theorem maxpool_output_shape (m : ndarray float32) (ph pw : Z)
    (sh sw : option Z) (p : Z) :
  wf_ndarray m -> 0 < ph -> 0 < pw ->
  0 < default ph sh -> 0 < default pw sw -> 0 <= p ->
  0 <= out_dim (Z.of_nat (shape_h m)) ph (default ph sh) p ->
  0 <= out_dim (Z.of_nat (shape_w m)) pw (default pw sw) p ->
  exists out,
    apply_maxpool_2d m ph pw sh sw p = Ok out /\
    wf_ndarray out /\
    Z.of_nat (shape_h out) = out_dim (Z.of_nat (shape_h m)) ph (default ph sh) p /\
    Z.of_nat (shape_w out) = out_dim (Z.of_nat (shape_w m)) pw (default pw sw) p.
Proof.
  intros Hwf Hph Hpw Hsh Hsw Hp Hoh How.
  destruct (out_dim_padded m p ph (default ph sh) Hp) as [Eh _].
  destruct (out_dim_padded m p pw (default pw sw) Hp) as [_ Ew].
  destruct (maxpool_total m ph pw sh sw p) as (out & Hrun & Hwfo & Hshape & _);
    try assumption; try (rewrite ?Eh, ?Ew; assumption).
  exists out. split; [exact Hrun |]. split; [exact Hwfo |].
  rewrite Eh, Ew in Hshape.
  pose proof (f_equal fst Hshape) as H1. pose proof (f_equal snd Hshape) as H2.
  unfold shape in H1, H2. cbn [fst snd] in H1, H2. lia.
Qed.

Lemma maxpool_negative_dim (m : ndarray float32) (ph pw : Z)
    (sh sw : option Z) (p : Z) :
  default ph sh <> 0 -> default pw sw <> 0 ->
  (Z.of_nat (shape_h (padded m p)) - ph) / default ph sh + 1 < 0 \/
  (Z.of_nat (shape_w (padded m p)) - pw) / default pw sw + 1 < 0 ->
  apply_maxpool_2d m ph pw sh sw p = Error ValueError.
Proof.
  intros Hsh Hsw Hneg. unfold apply_maxpool_2d. fold (padded m p).
  rewrite !floordiv_nonzero by assumption. cbn [mbind result_bind].
  rewrite np_zeros_negative by exact Hneg. reflexivity.
Qed.

Lemma maxpool_empty (m : ndarray float32) (ph pw : Z)
    (sh sw : option Z) (p : Z) :
  wf_ndarray m -> default ph sh <> 0 -> default pw sw <> 0 ->
  let out_h := (Z.of_nat (shape_h (padded m p)) - ph) / default ph sh + 1 in
  let out_w := (Z.of_nat (shape_w (padded m p)) - pw) / default pw sw + 1 in
  0 <= out_h -> 0 <= out_w -> out_h = 0 \/ out_w = 0 ->
  exists out, apply_maxpool_2d m ph pw sh sw p = Ok out /\
              shape out = (Z.to_nat out_h, Z.to_nat out_w) /\
              flatten out = [].
Proof.
  intros Hwf Hsh Hsw out_h out_w Hoh How Hzero.
  destruct (maxpool_run m ph pw sh sw p (fun _ _ => pos_zero))
    as (out & Hrun & Hwfo & Hshape & _); try assumption.
  { fold out_h out_w. intros i j Hi Hj. lia. }
  fold out_h out_w in Hshape.
  exists out. split; [exact Hrun |]. split; [exact Hshape |].
  apply flatten_empty; [exact Hwfo |].
  pose proof (f_equal fst Hshape) as H1. pose proof (f_equal snd Hshape) as H2.
  unfold shape in H1, H2. cbn [fst snd] in H1, H2. lia.
Qed.

(** C3 (as amended). When the window exceeds the padded input in some
    direction (positive strides, non-negative padding), the computed
    output dimension in that direction is not positive; the operation
    fails, with [ValueError], exactly when a computed dimension is
    negative, and otherwise returns an empty array without any error. With
    the default strides it always returns an empty array. *)
Theorem maxpool_oversized_window (m : ndarray float32) (ph pw : Z)
    (sh sw : option Z) (p : Z) :
  wf_ndarray m -> 0 < default ph sh -> 0 < default pw sw -> 0 <= p ->
  Z.of_nat (shape_h m) + 2 * p < ph \/ Z.of_nat (shape_w m) + 2 * p < pw ->
  let out_h := out_dim (Z.of_nat (shape_h m)) ph (default ph sh) p in
  let out_w := out_dim (Z.of_nat (shape_w m)) pw (default pw sw) p in
  (out_h <= 0 \/ out_w <= 0) /\
  (out_h < 0 \/ out_w < 0 ->
   apply_maxpool_2d m ph pw sh sw p = Error ValueError) /\
  (0 <= out_h -> 0 <= out_w ->
   exists out, apply_maxpool_2d m ph pw sh sw p = Ok out /\
               shape out = (Z.to_nat out_h, Z.to_nat out_w) /\
               flatten out = []) /\
  (sh = None -> sw = None ->
   exists out, apply_maxpool_2d m ph pw sh sw p = Ok out /\ flatten out = []).
Proof.
  intros Hwf Hsh Hsw Hp Hbig out_h out_w.
  destruct (out_dim_padded m p ph (default ph sh) Hp) as [Eh _].
  destruct (out_dim_padded m p pw (default pw sw) Hp) as [_ Ew].
  fold out_h in Eh. fold out_w in Ew.
  assert (Hnonpos : out_h <= 0 \/ out_w <= 0).
  { unfold out_h, out_w, out_dim. destruct Hbig as [Hb | Hb]; [left | right].
    - assert ((Z.of_nat (shape_h m) + 2 * p - ph) / default ph sh < 0)
        by (apply Z.div_lt_upper_bound; lia). lia.
    - assert ((Z.of_nat (shape_w m) + 2 * p - pw) / default pw sw < 0)
        by (apply Z.div_lt_upper_bound; lia). lia. }
  assert (Hok : 0 <= out_h -> 0 <= out_w ->
    exists out, apply_maxpool_2d m ph pw sh sw p = Ok out /\
                shape out = (Z.to_nat out_h, Z.to_nat out_w) /\
                flatten out = []).
  { intros Hoh How. rewrite <- Eh, <- Ew.
    apply maxpool_empty; rewrite ?Eh, ?Ew; try assumption; lia. }
  split; [exact Hnonpos |]. split; [| split; [exact Hok |]].
  - intros Hneg. apply maxpool_negative_dim; rewrite ?Eh, ?Ew; try assumption; lia.
  - intros -> -> . cbn [default from_option id] in *.
    destruct Hok as (out & Hrun & _ & Hfl).
    + unfold out_h, out_dim. unfold default, from_option, id.
      assert (-1 <= (Z.of_nat (shape_h m) + 2 * p - ph) / ph)
        by (apply Z.div_le_lower_bound; lia). lia.
    + unfold out_w, out_dim. unfold default, from_option, id.
      assert (-1 <= (Z.of_nat (shape_w m) + 2 * p - pw) / pw)
        by (apply Z.div_le_lower_bound; lia). lia.
    + exists out. auto.
Qed.

End MaxPoolShape.

Lemma counting_4x4_wf : wf_ndarray counting_4x4.
Proof. repeat constructor. Qed.

Lemma minus_ones_2x2_wf : wf_ndarray minus_ones_2x2.
Proof. repeat constructor. Qed.

Lemma maxpool_output_shape_witness :
  exists out,
    apply_maxpool_2d (H := reference_numpy) counting_4x4 2 2 (Some 2) (Some 2)
      0 = Ok out /\
    wf_ndarray out /\
    Z.of_nat (shape_h out) = 2 /\ Z.of_nat (shape_w out) = 2.
Proof.
  apply (maxpool_output_shape (H := reference_numpy) counting_4x4 2 2
           (Some 2) (Some 2) 0);
    [apply counting_4x4_wf | | | | | | |]; vm_compute; congruence.
Defined.

(** The 4x4 example: window 2x2, stride 2, no padding. *)
Lemma maxpool_counting_4x4 :
  apply_maxpool_2d (H := reference_numpy) counting_4x4 2 2 (Some 2) (Some 2) 0 =
  Ok (ndarray_map Z_astype_float32 {| width := 2; rows := [[5; 7]; [13; 15]] |}).
Proof. vm_compute. reflexivity. Qed.

(** C3, counterexample: a 3x3 window on a 2x2 input without padding
    exceeds the input, and the result is an empty array, not an error. *)
Lemma maxpool_silently_empty :
  Z.of_nat (shape_h (padded minus_ones_2x2 0)) < 3 /\
  out_dim (Z.of_nat (shape_h minus_ones_2x2)) 3 3 0 = 0 /\
  apply_maxpool_2d (H := reference_numpy) minus_ones_2x2 3 3 None None 0
    = Ok {| width := 0; rows := [] |}.
Proof. vm_compute. auto. Qed.

Lemma maxpool_oversized_window_witness :
  (out_dim 2 3 1 0 <= 0 \/ out_dim 2 2 1 0 <= 0) /\
  apply_maxpool_2d (H := reference_numpy) minus_ones_2x2 4 2 (Some 1) (Some 1)
    0 = Error ValueError /\
  exists out, apply_maxpool_2d (H := reference_numpy) minus_ones_2x2 3 2 None
                None 0 = Ok out /\
              flatten out = [].
Proof.
  assert (H1 : (0 : Z) < 1) by lia. assert (H0 : (0 : Z) <= 0) by lia.
  assert (H3 : (0 : Z) < 3) by lia. assert (H2 : (0 : Z) < 2) by lia.
  split; [| split].
  - apply (maxpool_oversized_window (H := reference_numpy) minus_ones_2x2 3 2 (Some 1) (Some 1) 0
             minus_ones_2x2_wf H1 H1 H0). left. vm_compute. reflexivity.
  - apply (maxpool_oversized_window (H := reference_numpy) minus_ones_2x2 4 2 (Some 1) (Some 1) 0
             minus_ones_2x2_wf H1 H1 H0); left; vm_compute; reflexivity.
  - apply (maxpool_oversized_window (H := reference_numpy) minus_ones_2x2 3 2 None None 0
             minus_ones_2x2_wf H3 H2 H0); [left; vm_compute |..]; reflexivity.
Defined.

Section MaxPoolCells.
Context `{Numpy}.

(** numpy's maximum-reduction is taken with what numpy documents of it. *)
Hypothesis maximum_reduce_ok : maximum_reduce_contract.

(** What [np.max] returns is the maximum of the elements. *)
Lemma np_max_spec (m : ndarray float32) (v : float32) :
  np_max m = Ok v -> is_maximum (flatten m) v.
Proof.
  unfold np_max. destruct (flatten m) as [| x [| y l]] eqn:Hfl;
    [discriminate | |]; intros [= <-].
  - apply is_maximum_singleton.
  - rewrite <- Hfl. apply maximum_reduce_ok. rewrite Hfl. discriminate.
Qed.

(** [np.max] over a window that lies inside the array returns the
    maximum of that window. *)
Lemma np_max_window (m : ndarray float32) (r0 c0 ph pw : nat) (v : float32) :
  wf_ndarray m ->
  (r0 + ph <= shape_h m)%nat -> (c0 + pw <= shape_w m)%nat ->
  np_max (slice2 m (Z.of_nat r0) (Z.of_nat r0 + Z.of_nat ph)
                   (Z.of_nat c0) (Z.of_nat c0 + Z.of_nat pw)) = Ok v ->
  is_window_max m r0 c0 ph pw v.
Proof.
  intros Hwf Hr Hc Hv.
  pose proof (fun w => elem_of_window m r0 c0 ph pw w Hwf Hr Hc) as Hwin.
  destruct (np_max_spec _ _ Hv) as [Hnan Hmax]. split.
  - rewrite Hnan. split; intros (w & Hw & Hn); exists w;
      (split; [apply Hwin, Hw | exact Hn]).
  - intros Hn. destruct (Hmax Hn) as [Hin Hge].
    split; [apply Hwin, Hin |]. intros w Hw. apply Hge, Hwin, Hw.
Qed.

(** The run of [apply_maxpool_2d] on a positive window and positive
    strides, whenever the computed dimensions are not negative. *)
Lemma maxpool_valid (m : ndarray float32) (ph pw : Z) (sh sw : option Z) (p : Z) :
  let sh' := default ph sh in
  let sw' := default pw sw in
  let pm := padded m p in
  let out_h := (Z.of_nat (shape_h pm) - ph) / sh' + 1 in
  let out_w := (Z.of_nat (shape_w pm) - pw) / sw' + 1 in
  wf_ndarray m -> 0 < ph -> 0 < pw -> 0 < sh' -> 0 < sw' ->
  0 <= out_h -> 0 <= out_w ->
  exists out,
    apply_maxpool_2d m ph pw sh sw p = Ok out /\
    wf_ndarray out /\ shape out = (Z.to_nat out_h, Z.to_nat out_w) /\
    forall i j, (i < Z.to_nat out_h)%nat -> (j < Z.to_nat out_w)%nat ->
      exists v, lookup2 out i j = Some v /\
        is_window_max pm (i * Z.to_nat sh') (j * Z.to_nat sw')
                      (Z.to_nat ph) (Z.to_nat pw) v.
Proof.
  intros sh' sw' pm out_h out_w Hwf Hph Hpw Hsh Hsw Hoh How.
  destruct (maxpool_total m ph pw sh sw p Hwf Hph Hpw Hsh Hsw Hoh How)
    as (out & Hrun & Hwfo & Hshape & Hcells).
  exists out. split; [exact Hrun |]. split; [exact Hwfo |].
  split; [exact Hshape |]. intros i j Hi Hj.
  destruct (Hcells i j Hi Hj) as (Hr & Hc & v & Hv & Hmaxv).
  exists v. split; [exact Hv |].
  exact (np_max_window pm _ _ _ _ v (padded_wf m p Hwf) Hr Hc Hmaxv).
Qed.

(** What a successful run on a positive window returns, cell by cell. *)
Lemma maxpool_ok_cells (m : ndarray float32) (ph pw : Z) (sh sw : option Z)
    (p : Z) (out : ndarray float32) :
  wf_ndarray m -> 0 < ph -> 0 < pw ->
  0 < default ph sh -> 0 < default pw sw ->
  apply_maxpool_2d m ph pw sh sw p = Ok out ->
  wf_ndarray out /\
  Z.of_nat (shape_h out)
    = (Z.of_nat (shape_h (padded m p)) - ph) / default ph sh + 1 /\
  Z.of_nat (shape_w out)
    = (Z.of_nat (shape_w (padded m p)) - pw) / default pw sw + 1 /\
  forall i j v, lookup2 out i j = Some v ->
    is_window_max (padded m p)
      (i * Z.to_nat (default ph sh)) (j * Z.to_nat (default pw sw))
      (Z.to_nat ph) (Z.to_nat pw) v.
Proof.
  intros Hwf Hph Hpw Hsh Hsw Hrun.
  set (oh := (Z.of_nat (shape_h (padded m p)) - ph) / default ph sh + 1).
  set (ow := (Z.of_nat (shape_w (padded m p)) - pw) / default pw sw + 1).
  assert (Hdims : 0 <= oh /\ 0 <= ow).
  { destruct (Z_lt_le_dec oh 0) as [Hneg | Hoh].
    { rewrite maxpool_negative_dim in Hrun; [discriminate | lia | lia |].
      left. exact Hneg. }
    destruct (Z_lt_le_dec ow 0) as [Hneg | How]; [| auto].
    rewrite maxpool_negative_dim in Hrun; [discriminate | lia | lia |].
    right. exact Hneg. }
  destruct Hdims as [Hoh How].
  destruct (maxpool_valid m ph pw sh sw p Hwf Hph Hpw Hsh Hsw Hoh How)
    as (out' & Hrun' & Hwfo & Hshape & Hcells).
  rewrite Hrun in Hrun'. injection Hrun' as <-.
  pose proof (f_equal fst Hshape) as H1. pose proof (f_equal snd Hshape) as H2.
  unfold shape in H1, H2. cbn [fst snd] in H1, H2. fold oh ow in H1, H2.
  split; [exact Hwfo |]. split; [lia |]. split; [lia |].
  intros i j v Hv.
  destruct (lookup2_Some_lt out i j v Hwfo Hv) as [Hi Hj].
  destruct (Hcells i j) as (v' & Hv' & Hmax); [fold oh; lia | fold ow; lia |].
  congruence.
Qed.

(** The example of the 2x2 array of [-1.0]: every window of the padded
    array holds a [0.0] of the padding, so every output cell is [0.0]. *)
Lemma maxpool_minus_ones :
  apply_maxpool_2d minus_ones_2x2 2 2 None None 1
    = Ok {| width := 2;
            rows := [[pos_zero; pos_zero]; [pos_zero; pos_zero]] |}.
Proof.
  destruct (maxpool_valid minus_ones_2x2 2 2 None None 1)
    as (out & Hrun & Hwfo & Hshape & Hcells);
    [apply minus_ones_2x2_wf | lia | lia | cbn; lia | cbn; lia
    | vm_compute; congruence | vm_compute; congruence |].
  rewrite Hrun. f_equal.
  change (Z.to_nat ((Z.of_nat (shape_h (padded minus_ones_2x2 1)) - 2)
                    / default 2 None + 1)) with 2%nat in Hshape, Hcells.
  change (Z.to_nat ((Z.of_nat (shape_w (padded minus_ones_2x2 1)) - 2)
                    / default 2 None + 1)) with 2%nat in Hshape, Hcells.
  change (Z.to_nat (default 2 None)) with 2%nat in Hcells.
  change (Z.to_nat 2) with 2%nat in Hcells.
  apply ndarray_ext; [exact Hwfo | repeat constructor | exact Hshape |].
  pose proof (f_equal fst Hshape) as H1. pose proof (f_equal snd Hshape) as H2.
  unfold shape in H1, H2. cbn [fst snd] in H1, H2. rewrite H1, H2.
  intros i j Hi Hj.
  destruct (Hcells i j Hi Hj) as (v & -> & Hnan & Hmax).
  assert (Hvals : forall w, in_window (padded minus_ones_2x2 1) (i * 2) (j * 2)
                              2 2 w -> w = pos_zero \/ w = neg_one).
  { intros w (a & b & _ & _ & Hw).
    destruct (padded_lookup_origin _ _ _ _ _ minus_ones_2x2_wf Hw)
      as [[_ ->] | (r & c & Hrc)]; [auto | right].
    destruct r as [| [| r]], c as [| [| c]]; vm_compute in Hrc;
      first [discriminate Hrc | injection Hrc as <-; reflexivity]. }
  assert (Hn : isnan v = false).
  { destruct (isnan v) eqn:Hv; [| reflexivity].
    destruct (proj1 Hnan eq_refl) as (w & Hw & Hwn).
    destruct (Hvals w Hw) as [-> | ->]; discriminate Hwn. }
  destruct (Hmax Hn) as [Hin Hge].
  assert (Hzero : in_window (padded minus_ones_2x2 1) (i * 2) (j * 2) 2 2
                    pos_zero).
  { exists (if i is 0 then 0 else 1)%nat, (if j is 0 then 0 else 1)%nat.
    destruct i as [| [| i]], j as [| [| j]]; try lia;
      (split; [lia |]; split; [lia | reflexivity]). }
  specialize (Hge pos_zero Hzero).
  destruct (Hvals v Hin) as [-> | ->]; [| discriminate Hge].
  destruct i as [| [| i]], j as [| [| j]]; try lia; reflexivity.
Qed.

(** C4. Max-pool cell semantics with zero padding: when [p > 0] the
    matrix that is pooled is the input surrounded by [p] rows and columns
    of exactly [0.0] on all four sides, and each output cell [(i, j)] is
    the maximum of the window of that matrix starting at row [i * sh],
    column [j * sw] and spanning [ph] rows and [pw] columns (a NaN exactly
    when the window holds a NaN, otherwise a value of the window that is
    [>=] all of them), [np.max] being what numpy documents; for the 2x2
    input of [-1.0] with a 2x2 window and padding 1, every output cell is
    [0.0]. *)
Theorem maxpool_cell_semantics (m : ndarray float32) (ph pw : Z)
    (sh sw : option Z) (p : Z) :
  wf_ndarray m -> 0 < ph -> 0 < pw ->
  0 < default ph sh -> 0 < default pw sw -> 0 <= p ->
  0 <= out_dim (Z.of_nat (shape_h m)) ph (default ph sh) p ->
  0 <= out_dim (Z.of_nat (shape_w m)) pw (default pw sw) p ->
  (0 < p ->
   shape (padded m p)
     = (Z.to_nat p + shape_h m + Z.to_nat p,
        Z.to_nat p + shape_w m + Z.to_nat p)%nat /\
   forall r c,
     (r < Z.to_nat p + shape_h m + Z.to_nat p)%nat ->
     (c < Z.to_nat p + shape_w m + Z.to_nat p)%nat ->
     lookup2 (padded m p) r c =
     if (Z.to_nat p <=? r)%nat && (r <? Z.to_nat p + shape_h m)%nat &&
        (Z.to_nat p <=? c)%nat && (c <? Z.to_nat p + shape_w m)%nat
     then lookup2 m (r - Z.to_nat p) (c - Z.to_nat p)
     else Some pos_zero) /\
  (exists out,
     apply_maxpool_2d m ph pw sh sw p = Ok out /\
     forall i j,
       Z.of_nat i < out_dim (Z.of_nat (shape_h m)) ph (default ph sh) p ->
       Z.of_nat j < out_dim (Z.of_nat (shape_w m)) pw (default pw sw) p ->
       exists v,
         lookup2 out i j = Some v /\
         is_window_max (padded m p)
           (i * Z.to_nat (default ph sh)) (j * Z.to_nat (default pw sw))
           (Z.to_nat ph) (Z.to_nat pw) v) /\
  apply_maxpool_2d minus_ones_2x2 2 2 None None 1
    = Ok {| width := 2;
            rows := [[pos_zero; pos_zero]; [pos_zero; pos_zero]] |}.
Proof.
  intros Hwf Hph Hpw Hsh Hsw Hp Hoh How.
  split; [| split; [| exact maxpool_minus_ones]].
  - intros Hpos. unfold padded. destruct (Z.ltb_spec 0 p); [| lia].
    split; [apply np_pad_shape |].
    intros r c Hr Hc. apply np_pad_lookup; assumption.
  - destruct (out_dim_padded m p ph (default ph sh) Hp) as [Eh _].
    destruct (out_dim_padded m p pw (default pw sw) Hp) as [_ Ew].
    destruct (maxpool_valid m ph pw sh sw p)
      as (out & Hrun & _ & _ & Hcells);
      try assumption; try (rewrite ?Eh, ?Ew; assumption).
    exists out. split; [exact Hrun |].
    intros i j Hi Hj. apply Hcells; rewrite ?Eh, ?Ew; lia.
Qed.

End MaxPoolCells.

Lemma maxpool_cell_semantics_witness :
  (exists out,
     apply_maxpool_2d (H := reference_numpy) minus_ones_2x2 2 2 None None 1
       = Ok out /\
     forall i j,
       Z.of_nat i < out_dim 2 2 2 1 -> Z.of_nat j < out_dim 2 2 2 1 ->
       exists v,
         lookup2 out i j = Some v /\
         is_window_max (padded minus_ones_2x2 1) (i * 2) (j * 2) 2 2 v) /\
  apply_maxpool_2d (H := reference_numpy) minus_ones_2x2 2 2 None None 1
    = Ok {| width := 2;
            rows := [[pos_zero; pos_zero]; [pos_zero; pos_zero]] |}.
Proof.
  refine (proj2 (maxpool_cell_semantics (H := reference_numpy)
                   reference_maximum_reduce_contract minus_ones_2x2 2 2 None
                   None 1 minus_ones_2x2_wf _ _ _ _ _ _ _));
    vm_compute; congruence.
Defined.

(** ** Activation stage *)

Lemma ndarray_map_shape {A B} (f : A -> B) (m : ndarray A) :
  shape (ndarray_map f m) = shape m.
Proof.
  unfold shape, shape_h, shape_w, ndarray_map. cbn [rows width].
  rewrite length_map. reflexivity.
Qed.

Lemma ndarray_map_wf {A B} (f : A -> B) (m : ndarray A) :
  wf_ndarray m -> wf_ndarray (ndarray_map f m).
Proof.
  unfold wf_ndarray, ndarray_map. cbn [rows width]. intros Hwf.
  rewrite map_fmap. apply Forall_fmap. eapply Forall_impl; [exact Hwf |].
  intros r Hr. cbn in *. rewrite length_map. exact Hr.
Qed.

Lemma ndarray_map_lookup {A B} (f : A -> B) (m : ndarray A) (i j : nat) :
  lookup2 (ndarray_map f m) i j = f <$> lookup2 m i j.
Proof.
  unfold lookup2, ndarray_map. cbn [rows]. rewrite map_fmap, list_lookup_fmap.
  destruct (rows m !! i) as [r |]; cbn; [| reflexivity].
  rewrite map_fmap. apply list_lookup_fmap.
Qed.

Lemma isnan_pos_zero : isnan pos_zero = false.
Proof. reflexivity. Qed.

Lemma f32_key_pos_zero : f32_key pos_zero = 0.
Proof. reflexivity. Qed.

(** [relu] on a scalar: [0.0] for a negative argument, the argument
    itself otherwise, [-0.0] and NaN included. *)
Lemma relu_scalar (x : float32) :
  np_maximum pos_zero x =
  if isnan x then x else if f32_key x <? 0 then pos_zero else x.
Proof.
  unfold np_maximum, f32_gt. rewrite f32_lt_key, isnan_pos_zero, f32_key_pos_zero.
  destruct (isnan x); reflexivity.
Qed.

Lemma relu_scalar_max (x : float32) :
  isnan x = false ->
  (np_maximum pos_zero x = pos_zero \/ np_maximum pos_zero x = x) /\
  f32_ge (np_maximum pos_zero x) pos_zero = true /\
  f32_ge (np_maximum pos_zero x) x = true.
Proof.
  intros Hx. rewrite relu_scalar, Hx.
  destruct (Z.ltb_spec (f32_key x) 0) as [Hneg | Hpos].
  - split; [auto |]. rewrite !f32_ge_key, Hx, isnan_pos_zero, f32_key_pos_zero.
    cbn [negb andb]. split; apply Z.leb_le; lia.
  - split; [auto |]. rewrite !f32_ge_key, Hx, isnan_pos_zero, f32_key_pos_zero.
    cbn [negb andb]. split; apply Z.leb_le; lia.
Qed.

Section ActivationFacts.
Context `{Numpy}.

Lemma apply_activation_shape (x : ndarray float32) (tag : string) :
  shape (apply_activation x tag) = shape x /\
  (wf_ndarray x -> wf_ndarray (apply_activation x tag)).
Proof.
  unfold apply_activation.
  repeat case_match; split;
    auto using ndarray_map_shape, ndarray_map_wf.
Qed.

(** C6. Activation fallback: every mode tag other than [relu], [sigmoid]
    and [tanh] (so [none] and every unrecognized tag) returns the input
    unchanged, without error; every tag preserves the shape; and [relu]
    computes [max(0, x)] element by element. *)
Theorem apply_activation_fallback (x : ndarray float32) (tag : string) :
  (tag <> "relu"%string -> tag <> "sigmoid"%string -> tag <> "tanh"%string ->
   apply_activation x tag = x) /\
  shape (apply_activation x tag) = shape x /\
  (forall i j,
     lookup2 (apply_activation x "relu") i j
       = np_maximum pos_zero <$> lookup2 x i j) /\
  (forall v, is_relu v (np_maximum pos_zero v)).
Proof.
  split; [| split; [apply apply_activation_shape | split]].
  - intros Hrelu Hsig Htanh. unfold apply_activation.
    apply String.eqb_neq in Hrelu, Hsig, Htanh.
    rewrite Hrelu, Hsig, Htanh. destruct (String.eqb tag "none"); reflexivity.
  - intros i j. unfold apply_activation.
    rewrite String.eqb_refl. apply ndarray_map_lookup.
  - intros v. unfold is_relu. destruct (isnan v) eqn:Hv.
    + rewrite relu_scalar, Hv. reflexivity.
    + apply relu_scalar_max, Hv.
Qed.

End ActivationFacts.

Lemma apply_activation_fallback_witness :
  apply_activation (H := reference_numpy) minus_ones_2x2 "gelu" = minus_ones_2x2.
Proof.
  refine (proj1 (apply_activation_fallback (H := reference_numpy)
                   minus_ones_2x2 "gelu") _ _ _); discriminate.
Defined.

(** [relu([-2, 0, 3]) = [0, 0, 3]]. *)
Lemma relu_example :
  apply_activation (H := reference_numpy)
    (ndarray_map Z_astype_float32 {| width := 3; rows := [[-2; 0; 3]] |}) "relu"
  = ndarray_map Z_astype_float32 {| width := 3; rows := [[0; 0; 3]] |}.
Proof. vm_compute. reflexivity. Qed.

(** ** Random arrays, matrix generator and pipeline *)

Section PipelineFacts.
Context `{Numpy}.

Lemma draw_list_spec {A} (P : A -> Prop) (n : nat) (draw : rng -> A * rng)
    (g : rng) :
  (forall g, P (draw g).1) ->
  length (draw_list n draw g).1 = n /\ Forall P (draw_list n draw g).1.
Proof.
  intros HP. revert g. induction n as [| n IH]; intros g; cbn [draw_list].
  - split; [reflexivity | constructor].
  - specialize (HP g). destruct (draw g) as [x g1]. specialize (IH g1).
    destruct (draw_list n draw g1) as [l g2]. cbn [fst] in *.
    destruct IH as [Hlen Hall]. split; [cbn; lia | constructor; assumption].
Qed.

Lemma draw_rows_spec {A} (P : A -> Prop) (h w : nat) (draw : rng -> A * rng)
    (g : rng) :
  (forall g, P (draw g).1) ->
  length (draw_rows h w draw g).1 = h /\
  Forall (fun r => length r = w /\ Forall P r) (draw_rows h w draw g).1.
Proof.
  intros HP. revert g. induction h as [| h IH]; intros g; cbn [draw_rows].
  - split; [reflexivity | constructor].
  - pose proof (draw_list_spec P w draw g HP) as Hrow.
    destruct (draw_list w draw g) as [r g1]. specialize (IH g1).
    destruct (draw_rows h w draw g1) as [rs g2]. cbn [fst] in *.
    destruct IH as [Hlen Hall]. split; [cbn; lia | constructor; assumption].
Qed.

Lemma draw_ndarray_spec {A} (P : A -> Prop) (h w : nat)
    (draw : rng -> A * rng) (g : rng) :
  (forall g, P (draw g).1) ->
  let m := (draw_ndarray h w draw g).1 in
  wf_ndarray m /\ shape m = (h, w) /\ Forall (Forall P) (rows m).
Proof.
  intros HP. cbn zeta. unfold draw_ndarray.
  pose proof (draw_rows_spec P h w draw g HP) as [Hlen Hall].
  destruct (draw_rows h w draw g) as [rs g']. cbn [fst] in *.
  unfold wf_ndarray, shape, shape_h, shape_w. cbn [rows width].
  rewrite Hlen. repeat split.
  - eapply Forall_impl; [exact Hall |]. intros r [Hr _]. exact Hr.
  - eapply Forall_impl; [exact Hall |]. intros r [_ Hr]. exact Hr.
Qed.

Lemma dimension_ok (n : Z) (k : nat) :
  dimension n = Ok k -> 0 <= n /\ k = Z.to_nat n.
Proof.
  unfold dimension. destruct (Z.ltb_spec n 0); [discriminate |].
  intros [= <-]. split; [lia | reflexivity].
Qed.

Lemma np_eye_square (n : Z) (m : ndarray float32) :
  np_eye n = Ok m -> 0 <= n /\ square n m.
Proof.
  unfold np_eye. destruct (dimension n) as [k |] eqn:Hk; [| discriminate].
  apply dimension_ok in Hk as [Hn ->]. cbn. intros [= <-].
  split; [exact Hn |]. unfold square, wf_ndarray, shape, shape_h, shape_w.
  cbn [rows width]. rewrite length_map, length_seq. split; [| reflexivity].
  rewrite map_fmap. apply Forall_fmap, Forall_forall. intros i _. cbn.
  rewrite length_map, length_seq. reflexivity.
Qed.

Lemma np_ones_square (n : Z) (m : ndarray float32) :
  np_ones n = Ok m -> 0 <= n /\ square n m.
Proof.
  unfold np_ones. destruct (dimension n) as [k |] eqn:Hk; [| discriminate].
  apply dimension_ok in Hk as [Hn ->]. cbn. intros [= <-].
  split; [exact Hn |]. unfold square, wf_ndarray, shape, shape_h, shape_w.
  cbn [rows width]. rewrite length_replicate. split; [| reflexivity].
  apply Forall_replicate, length_replicate.
Qed.

Lemma np_random_randint_f32_square (lo hi n : Z) (g g' : rng)
    (m : ndarray float32) :
  np_random_randint_f32 lo hi n g = Ok (m, g') -> 0 <= n /\ square n m.
Proof.
  unfold np_random_randint_f32.
  destruct (dimension n) as [k |] eqn:Hk; [| discriminate].
  apply dimension_ok in Hk as [Hn ->]. cbn [mbind result_bind].
  pose proof (draw_ndarray_spec (fun _ => True) (Z.to_nat n) (Z.to_nat n)
                (draw_randint lo hi) g (fun _ => I)) as (Hwf & Hshape & _).
  cbn zeta in *.
  destruct (draw_ndarray _ _ _ g) as [a g1]. cbn [fst] in *.
  intros [= <- <-]. split; [exact Hn |]. split.
  - apply ndarray_map_wf, Hwf.
  - rewrite ndarray_map_shape. exact Hshape.
Qed.

Lemma np_random_uniform_f32_square (lo hi : float64) (n : Z) (g g' : rng)
    (m : ndarray float32) :
  np_random_uniform_f32 lo hi n g = Ok (m, g') -> 0 <= n /\ square n m.
Proof.
  unfold np_random_uniform_f32.
  assert (Hgen : (k ← dimension n;
                  let '(a, g1) := draw_ndarray k k (draw_uniform lo hi) g in
                  mret (ndarray_map f64_astype_float32 a, g1)) = Ok (m, g') ->
                 0 <= n /\ square n m).
  { destruct (dimension n) as [k |] eqn:Hk; [| discriminate].
    apply dimension_ok in Hk as [Hn ->]. cbn [mbind result_bind].
    pose proof (draw_ndarray_spec (fun _ => True) (Z.to_nat n) (Z.to_nat n)
                  (draw_uniform lo hi) g (fun _ => I)) as (Hwf & Hshape & _).
    cbn zeta in *.
    destruct (draw_ndarray _ _ _ g) as [a g1]. cbn [fst] in *.
    intros [= <- <-]. split; [exact Hn |]. split.
    - apply ndarray_map_wf, Hwf.
    - rewrite ndarray_map_shape. exact Hshape. }
  destruct (f64_sub hi lo); try exact Hgen; discriminate.
Qed.

Lemma generate_matrices_square (n : Z) (matrix_type : string)
    (value_range : float64 * float64) (g g' : rng) (a b : ndarray float32) :
  generate_matrices n matrix_type value_range g = Ok (a, b, g') ->
  0 <= n /\ square n a /\ square n b.
Proof.
  unfold generate_matrices. repeat case_match.
  - destruct (np_eye n) as [a' |] eqn:Ha; [| discriminate].
    cbn. intros [= <- <- <-].
    apply np_eye_square in Ha. tauto.
  - destruct (np_ones n) as [a' |] eqn:Ha; [| discriminate].
    cbn. intros [= <- <- <-].
    apply np_ones_square in Ha. tauto.
  - destruct (np_random_randint_f32 (-3) 4 n g) as [[a' g1] |] eqn:Ha;
      [| discriminate]. cbn [mbind result_bind].
    destruct (np_random_randint_f32 (-3) 4 n g1) as [[b' g2] |] eqn:Hb;
      [| discriminate]. cbn. intros [= <- <- <-].
    apply np_random_randint_f32_square in Ha, Hb. tauto.
  - destruct (np_random_uniform_f32 _ _ n g) as [[a' g1] |] eqn:Ha;
      [| discriminate]. cbn [mbind result_bind].
    destruct (np_random_uniform_f32 _ _ n g1) as [[b' g2] |] eqn:Hb;
      [| discriminate]. cbn. intros [= <- <- <-].
    apply np_random_uniform_f32_square in Ha, Hb. tauto.
Qed.

Lemma np_matmul_square (n : Z) (a b c : ndarray float32) :
  square n a -> square n b -> np_matmul a b = Ok c -> square n c.
Proof.
  intros [Hwa Hsa] [Hwb Hsb]. unfold np_matmul.
  destruct (Nat.eqb (shape_w a) (shape_h b)); [| discriminate].
  intros [= <-]. unfold square, wf_ndarray, shape, shape_h, shape_w in *.
  cbn [rows width]. rewrite length_map.
  injection Hsa as Ha1 Ha2. injection Hsb as Hb1 Hb2.
  split; [| congruence].
  rewrite map_fmap. apply Forall_fmap, Forall_forall. intros r _. cbn.
  rewrite length_map, length_seq. reflexivity.
Qed.

End PipelineFacts.

Lemma py_slice_prefix {A} (k : nat) (l : list A) (i : nat) :
  py_slice 0 (Z.of_nat k) l !! i = if (i <? k)%nat then l !! i else None.
Proof.
  unfold py_slice, slice_bound.
  destruct (Z.ltb_spec 0 0); [lia |]. destruct (Z.ltb_spec (Z.of_nat k) 0); [lia |].
  replace (Z.to_nat (Z.min 0 (Z.of_nat (length l)))) with 0%nat by lia.
  rewrite drop_0, Nat.sub_0_r.
  replace (Z.to_nat (Z.min (Z.of_nat k) (Z.of_nat (length l))))
    with (Nat.min k (length l)) by lia.
  destruct (Nat.ltb_spec i k) as [Hlt | Hge].
  - destruct (Nat.lt_ge_cases i (length l)) as [Hil | Hil].
    + apply lookup_take_lt. lia.
    + rewrite lookup_take_ge by lia. symmetry. apply lookup_ge_None_2. lia.
  - apply lookup_take_ge. lia.
Qed.

Lemma py_slice_prefix_length {A} (k : nat) (l : list A) :
  length (py_slice 0 (Z.of_nat k) l) = Nat.min k (length l).
Proof.
  unfold py_slice, slice_bound.
  destruct (Z.ltb_spec 0 0); [lia |]. destruct (Z.ltb_spec (Z.of_nat k) 0); [lia |].
  replace (Z.to_nat (Z.min 0 (Z.of_nat (length l)))) with 0%nat by lia.
  rewrite drop_0, length_take. lia.
Qed.

Lemma slice_bound_nat (k n : nat) : slice_bound (Z.of_nat k) n = Nat.min k n.
Proof. unfold slice_bound. destruct (Z.ltb_spec (Z.of_nat k) 0); lia. Qed.

(** The top-left corner [a[:5, :5]]: at most five rows and five columns of
    [a], each cell being the cell of [a] at the same place. *)
Lemma maxpool_input_spec (a : ndarray float32) :
  (forall i j, lookup2 (maxpool_input a) i j
               = if (i <? 5)%nat && (j <? 5)%nat then lookup2 a i j else None) /\
  shape_h (maxpool_input a) = Nat.min 5 (shape_h a) /\
  shape_w (maxpool_input a) = Nat.min 5 (shape_w a) /\
  (wf_ndarray a -> wf_ndarray (maxpool_input a)).
Proof.
  unfold maxpool_input, slice2, lookup2, shape_h, shape_w, wf_ndarray,
    in_rows, in_cols. cbn [rows width].
  change 5 with (Z.of_nat 5). split; [| split; [| split]].
  - intros i j. rewrite map_fmap, list_lookup_fmap, py_slice_prefix.
    destruct (Nat.ltb_spec i 5); cbn [andb]; [| reflexivity].
    destruct (rows a !! i) as [r |]; cbn [fmap option_fmap option_map mbind option_bind];
      [apply py_slice_prefix | destruct (j <? 5)%nat; reflexivity].
  - rewrite length_map. apply py_slice_prefix_length.
  - change 0 with (Z.of_nat 0). rewrite !slice_bound_nat. lia.
  - intros Hwf. rewrite map_fmap. apply Forall_fmap, Forall_forall.
    intros r Hr. cbn. rewrite py_slice_prefix_length.
    apply list_elem_of_lookup in Hr as [i Hi]. rewrite py_slice_prefix in Hi.
    destruct (i <? 5)%nat; [| discriminate].
    rewrite (proj1 (Forall_lookup _ _) Hwf i r Hi).
    change 0 with (Z.of_nat 0). rewrite !slice_bound_nat. lia.
Qed.

Section PipelineTheorems.
Context `{Numpy}.
Variables (n : Z) (activation_type : string) (pool_h pool_w pool_padding : Z)
  (dropout_p : float64) (matrix_type : string)
  (value_range : float64 * float64).

(** The steps a successful run of the orchestrator went through. *)
Lemma pipeline_inv (seed : option Z) (g g' : rng) (res : PipelineResult)
    (files : PipelineFiles) :
  generate_pipeline_test_vectors n activation_type pool_h pool_w pool_padding
    dropout_p seed matrix_type value_range g = Ok (res, files, g') ->
  exists g0,
    generate_matrices n matrix_type value_range g0 = Ok (r_A res, r_B res, g') /\
    np_matmul (r_A res) (r_B res) = Ok (r_matmul res) /\
    r_activated res = apply_activation (r_matmul res) activation_type /\
    apply_maxpool_2d (maxpool_input (r_activated res)) pool_h pool_w None None
      pool_padding = Ok (r_pooled res) /\
    r_final res = r_pooled res /\
    matrix_north files = map float_to_hex (flatten (r_A res)) /\
    matrix_west files = map float_to_hex (flatten (r_B res)) /\
    exists v, first_element (r_final res) = Ok v /\
              expected_output files = [float_to_hex v].
Proof.
  unfold generate_pipeline_test_vectors. intros Hrun.
  destruct (match seed with Some s => np_random_seed s | None => Ok g end)
    as [g0 |]; [| discriminate]. cbn [mbind result_bind] in Hrun.
  destruct (generate_matrices n matrix_type value_range g0)
    as [[[a b] g1] |] eqn:Hgen; [| discriminate].
  cbn [mbind result_bind] in Hrun.
  destruct (np_matmul a b) as [c |] eqn:Hc; [| discriminate].
  cbn [mbind result_bind] in Hrun.
  destruct (apply_maxpool_2d _ _ _ _ _ _) as [pooled |] eqn:Hpool;
    [| discriminate].
  cbn [mbind result_bind apply_dropout] in Hrun.
  destruct (first_element pooled) as [v |] eqn:Hv; [| discriminate].
  cbn [mbind result_bind] in Hrun.
  destruct (getitem2 a 0 0) as [a00 |] eqn:Ha00; [| discriminate].
  destruct (getitem2 b 0 0) as [b00 |] eqn:Hb00; [| discriminate].
  destruct (getitem2 c 0 0) as [c00 |] eqn:Hc00; [| discriminate].
  cbn in Hrun. injection Hrun as <- <- <-. cbn [r_A r_B r_matmul r_activated
    r_pooled r_final matrix_north matrix_west expected_output].
  exists g0. repeat split; try assumption; try reflexivity.
  exists v. split; [exact Hv | reflexivity].
Qed.

(** C7. Dropout inference-mode identity: with [training_mode] false,
    [apply_dropout] returns its input array exactly (and leaves the random
    state alone), for every input and every probability; hence the
    orchestrator's [final] is its [pooled]. *)
Theorem dropout_inference_identity (x : ndarray float32) (p : float64)
    (dropout_seed : option Z) (g0 : rng) (seed : option Z) (g : rng) :
  apply_dropout x p false dropout_seed g0 = Ok (x, g0) /\
  forall res files g',
    generate_pipeline_test_vectors n activation_type pool_h pool_w
      pool_padding dropout_p seed matrix_type value_range g
      = Ok (res, files, g') ->
    r_final res = r_pooled res.
Proof.
  split; [reflexivity |]. intros res files g' Hrun.
  destruct (pipeline_inv _ _ _ _ _ Hrun) as (g1 & _ & _ & _ & _ & Hfinal & _).
  exact Hfinal.
Qed.

(** C8. Fixed sub-region extraction: the max-pool input of the
    orchestrator is the top-left corner [activated[:5, :5]], the constant
    5 not depending on [n]; for an [n] x [n] array it has
    [min(n, 5)] rows and columns, and its cells are the cells of
    [activated] at the same places: nothing is padded at this step. *)
Theorem maxpool_input_extraction (seed : option Z) (g : rng) :
  in_rows = 5 /\ in_cols = 5 /\
  (forall a i j,
     lookup2 (maxpool_input a) i j
     = if (i <? 5)%nat && (j <? 5)%nat then lookup2 a i j else None) /\
  (forall k a, 0 <= k -> square k a ->
     wf_ndarray (maxpool_input a) /\
     shape (maxpool_input a) = (Z.to_nat (Z.min k 5), Z.to_nat (Z.min k 5))) /\
  forall res files g',
    generate_pipeline_test_vectors n activation_type pool_h pool_w
      pool_padding dropout_p seed matrix_type value_range g
      = Ok (res, files, g') ->
    0 <= n /\ square n (r_activated res) /\
    apply_maxpool_2d (maxpool_input (r_activated res)) pool_h pool_w None None
      pool_padding = Ok (r_pooled res).
Proof.
  split; [reflexivity |]. split; [reflexivity |].
  split; [intros a; apply maxpool_input_spec |]. split.
  - intros k a Hk [Hwf Hshape].
    destruct (maxpool_input_spec a) as (_ & Hh & Hw & Hwf').
    split; [apply Hwf', Hwf |].
    pose proof (f_equal fst Hshape) as H1. pose proof (f_equal snd Hshape) as H2.
    unfold shape in *. cbn [fst snd] in H1, H2. rewrite Hh, Hw, H1, H2.
    f_equal; lia.
  - intros res files g' Hrun.
    destruct (pipeline_inv _ _ _ _ _ Hrun)
      as (g1 & Hgen & Hmm & Hact & Hpool & _).
    apply generate_matrices_square in Hgen as (Hn & Ha & Hb).
    pose proof (np_matmul_square n _ _ _ Ha Hb Hmm) as [Hwc Hsc].
    split; [exact Hn |]. split; [| exact Hpool].
    rewrite Hact. destruct (apply_activation_shape (r_matmul res) activation_type)
      as [Hs Hw]. split; [apply Hw, Hwc | rewrite Hs; exact Hsc].
Qed.

(** C9. End-to-end determinism: with a seed supplied, a run of the
    orchestrator does not depend on the random state it starts from; two
    runs with the same seed and configuration return the same six arrays,
    write the same files and leave the same random state (or fail with the
    same exception). The files written are functions of the arrays
    returned: the hex lines of [A], of [B] and of the first element of
    [final]. *)
Theorem pipeline_deterministic (s : Z) (g1 g2 : rng) :
  generate_pipeline_test_vectors n activation_type pool_h pool_w pool_padding
    dropout_p (Some s) matrix_type value_range g1
  = generate_pipeline_test_vectors n activation_type pool_h pool_w
      pool_padding dropout_p (Some s) matrix_type value_range g2 /\
  forall res files g',
    generate_pipeline_test_vectors n activation_type pool_h pool_w
      pool_padding dropout_p (Some s) matrix_type value_range g1
      = Ok (res, files, g') ->
    generate_pipeline_test_vectors n activation_type pool_h pool_w
      pool_padding dropout_p (Some s) matrix_type value_range g2
      = Ok (res, files, g') /\
    matrix_north files = map float_to_hex (flatten (r_A res)) /\
    matrix_west files = map float_to_hex (flatten (r_B res)) /\
    exists v, first_element (r_final res) = Ok v /\
              expected_output files = [float_to_hex v].
Proof.
  assert (Hsame :
    generate_pipeline_test_vectors n activation_type pool_h pool_w
      pool_padding dropout_p (Some s) matrix_type value_range g1
    = generate_pipeline_test_vectors n activation_type pool_h pool_w
        pool_padding dropout_p (Some s) matrix_type value_range g2).
  { unfold generate_pipeline_test_vectors.
    destruct (np_random_seed s) as [g0 | e]; reflexivity. }
  split; [exact Hsame |].
  intros res files g' Hrun. split; [rewrite <- Hsame; exact Hrun |].
  destruct (pipeline_inv _ _ _ _ _ Hrun)
    as (g0 & _ & _ & _ & _ & _ & Hnorth & Hwest & Hexp).
  auto.
Qed.

End PipelineTheorems.

Lemma dropout_inference_identity_witness :
  exists res files g',
    generate_pipeline_test_vectors (H := reference_numpy) 3 "relu" 2 2 1
      f64_one (Some 42) "small_int" (f64_zero, f64_one) 0
      = Ok (res, files, g') /\
    r_final res = r_pooled res.
Proof.
  destruct (generate_pipeline_test_vectors (H := reference_numpy) 3 "relu"
              2 2 1 f64_one (Some 42) "small_int" (f64_zero, f64_one) 0)
    as [[[res files] g'] | e] eqn:Hrun.
  - exists res, files, g'. split; [reflexivity |].
    exact (proj2 (dropout_inference_identity (H := reference_numpy) 3 "relu"
                    2 2 1 f64_one "small_int" (f64_zero, f64_one)
                    (r_pooled res) f64_one None 0 (Some 42) 0) res files g' Hrun).
  - vm_compute in Hrun. discriminate.
Defined.

Lemma maxpool_input_extraction_witness :
  exists res files g',
    generate_pipeline_test_vectors (H := reference_numpy) 3 "relu" 2 2 1
      f64_one (Some 42) "small_int" (f64_zero, f64_one) 0
      = Ok (res, files, g') /\
    square 3 (r_activated res) /\
    shape (maxpool_input (r_activated res)) = (3%nat, 3%nat) /\
    apply_maxpool_2d (maxpool_input (r_activated res)) 2 2 None None 1
      = Ok (r_pooled res).
Proof.
  destruct (generate_pipeline_test_vectors (H := reference_numpy) 3 "relu"
              2 2 1 f64_one (Some 42) "small_int" (f64_zero, f64_one) 0)
    as [[[res files] g'] | e] eqn:Hrun.
  - exists res, files, g'. split; [reflexivity |].
    destruct (maxpool_input_extraction (H := reference_numpy) 3 "relu"
                2 2 1 f64_one "small_int" (f64_zero, f64_one) (Some 42) 0)
      as (_ & _ & _ & Hshape & Hpipe).
    destruct (Hpipe res files g' Hrun) as (Hn & Hsq & Hpool).
    split; [exact Hsq |]. split; [| exact Hpool].
    exact (proj2 (Hshape 3 (r_activated res) Hn Hsq)).
  - vm_compute in Hrun. discriminate.
Defined.

Lemma pipeline_deterministic_witness :
  exists res files g',
    generate_pipeline_test_vectors (H := reference_numpy) 3 "relu" 2 2 1
      f64_one (Some 42) "small_int" (f64_zero, f64_one) 0
      = Ok (res, files, g') /\
    generate_pipeline_test_vectors (H := reference_numpy) 3 "relu" 2 2 1
      f64_one (Some 42) "small_int" (f64_zero, f64_one) 12345
      = Ok (res, files, g') /\
    matrix_north files = map float_to_hex (flatten (r_A res)).
Proof.
  destruct (generate_pipeline_test_vectors (H := reference_numpy) 3 "relu"
              2 2 1 f64_one (Some 42) "small_int" (f64_zero, f64_one) 0)
    as [[[res files] g'] | e] eqn:Hrun.
  - exists res, files, g'. split; [reflexivity |].
    destruct (proj2 (pipeline_deterministic (H := reference_numpy) 3 "relu"
                       2 2 1 f64_one "small_int" (f64_zero, f64_one)
                       42 0 12345) res files g' Hrun)
      as (Hother & Hnorth & _).
    split; [exact Hother | exact Hnorth].
  - vm_compute in Hrun. discriminate.
Defined.

(** Without a seed the run does depend on the random state it starts
    from. *)
Lemma pipeline_unseeded_depends_on_state :
  generate_pipeline_test_vectors (H := reference_numpy) 2 "relu" 2 2 1
    f64_one None "small_int" (f64_zero, f64_one) 0
  <> generate_pipeline_test_vectors (H := reference_numpy) 2 "relu" 2 2 1
       f64_one None "small_int" (f64_zero, f64_one) 1.
Proof. vm_compute. discriminate. Qed.

(** ** Dropout in training mode *)

Section DropoutFacts.
Context `{Numpy}.

Lemma div_by_zero_not_finite (v : float64) :
  np_isfinite (f64_div v f64_zero) = false.
Proof. destruct v; reflexivity. Qed.

Lemma zero_times_div_zero_nan (v : float64) :
  f64_div (f64_mul v (f64_of_Z 0)) f64_zero = S754_nan.
Proof. destruct v; reflexivity. Qed.

Lemma ndarray_zip_lookup {A B C} (f : A -> B -> C) (x : ndarray A)
    (y : ndarray B) (i j : nat) :
  lookup2 (ndarray_zip f x y) i j
  = (a ← lookup2 x i j; b ← lookup2 y i j; Some (f a b)).
Proof.
  unfold lookup2, ndarray_zip. cbn [rows]. rewrite lookup_zip_with.
  destruct (rows x !! i) as [r |]; cbn; [| reflexivity].
  destruct (rows y !! i) as [r' |]; cbn.
  - apply lookup_zip_with.
  - destruct (r !! j); reflexivity.
Qed.

(** C10. In training mode with [dropout_p = 1] the scaling factor
    [1 / (1 - p)] has a zero denominator: [apply_dropout] raises nothing
    and returns an array of the shape of its input whose every element is
    not finite; every element is a NaN, since a binomial draw with success
    probability [0] is [0]. *)
Theorem dropout_training_p_one (x : ndarray float32) (seed : option Z)
    (g : rng) :
  wf_ndarray x ->
  match seed with Some s => 0 <= s < 2 ^ 32 | None => True end ->
  exists (out : ndarray float64) (g' : rng),
    apply_dropout x f64_one true seed g = Ok (out, g') /\
    (forall i j, (i < shape_h x)%nat -> (j < shape_w x)%nat ->
       exists v, lookup2 out i j = Some v /\ np_isfinite v = false) /\
    ((forall g0, (draw_binomial 1 f64_zero g0).1 = 0) ->
     forall i j, (i < shape_h x)%nat -> (j < shape_w x)%nat ->
       lookup2 out i j = Some S754_nan).
Proof.
  intros Hwf Hseed. unfold apply_dropout.
  change (f64_sub f64_one f64_one) with f64_zero.
  assert (Hg : exists g1,
    match seed with Some s => np_random_seed s | None => Ok g end = Ok g1).
  { destruct seed as [s |]; [| eauto]. unfold np_random_seed.
    destruct (Z.leb_spec 0 s); [| lia].
    destruct (Z.ltb_spec s (2 ^ 32)); [| lia]. cbn. eauto. }
  destruct Hg as [g1 ->]. cbn [mbind result_bind].
  unfold np_random_binomial. change (SFleb f64_zero f64_zero) with true.
  change (SFleb f64_zero f64_one) with true. cbn [andb mbind result_bind].
  pose proof (draw_ndarray_spec (fun _ => True) (shape_h x) (shape_w x)
                (draw_binomial 1 f64_zero) g1 (fun _ => I)) as (Hwm & Hsm & _).
  pose proof (fun Hlaw => draw_ndarray_spec (fun z => z = 0) (shape_h x)
                (shape_w x) (draw_binomial 1 f64_zero) g1 Hlaw) as Hzero.
  cbn zeta in *.
  destruct (draw_ndarray (shape_h x) (shape_w x) (draw_binomial 1 f64_zero) g1)
    as [mask g2]. cbn [fst] in *.
  eexists _, _. split; [reflexivity |].
  assert (Hlk : forall i j, (i < shape_h x)%nat -> (j < shape_w x)%nat ->
            exists a b, lookup2 x i j = Some a /\ lookup2 mask i j = Some b).
  { intros i j Hi Hj.
    destruct (lookup2_is_Some x i j Hwf Hi Hj) as [a Ha].
    pose proof (f_equal fst Hsm) as H1. pose proof (f_equal snd Hsm) as H2.
    unfold shape in H1, H2. cbn [fst snd] in H1, H2.
    destruct (lookup2_is_Some mask i j Hwm) as [b Hb]; [lia | lia |].
    eauto. }
  split.
  - intros i j Hi Hj. destruct (Hlk i j Hi Hj) as (a & b & Ha & Hb).
    rewrite ndarray_zip_lookup, Ha, Hb. cbn. eexists. split; [reflexivity |].
    apply div_by_zero_not_finite.
  - intros Hlaw i j Hi Hj. destruct (Hlk i j Hi Hj) as (a & b & Ha & Hb).
    rewrite ndarray_zip_lookup, Ha, Hb. cbn. f_equal.
    destruct (Hzero Hlaw) as (_ & _ & Hall).
    unfold lookup2 in Hb.
    destruct (rows mask !! i) as [r |] eqn:Hr; [| discriminate]. cbn in Hb.
    pose proof (proj1 (Forall_lookup _ _) Hall i r Hr) as Hrow.
    rewrite (proj1 (Forall_lookup _ _) Hrow j b Hb).
    apply zero_times_div_zero_nan.
Qed.

End DropoutFacts.

Lemma dropout_training_p_one_witness :
  exists (out : ndarray float64) (g' : rng (Numpy := reference_numpy)),
    apply_dropout (H := reference_numpy) minus_ones_2x2 f64_one true
      (Some 7) 0 = Ok (out, g') /\
    forall i j, (i < 2)%nat -> (j < 2)%nat -> lookup2 out i j = Some S754_nan.
Proof.
  destruct (dropout_training_p_one (H := reference_numpy) minus_ones_2x2
              (Some 7) 0 minus_ones_2x2_wf) as (out & g' & Hrun & _ & Hnan).
  - cbn. lia.
  - exists out, g'. split; [exact Hrun |]. apply Hnan.
    intros g0. reflexivity.
Defined.

(** * Further properties of the codec *)

(** Whatever string [hex_to_float] accepts, what it returns is a 32-bit
    pattern. *)
Theorem hex_to_float_in_range (s : string) (v : float32) :
  hex_to_float s = Ok v -> is_float32 v.
Proof.
  intros Hv. destruct (hex_to_float_ok s v Hv) as (_ & -> & Hrange).
  apply via_double_float32, Hrange.
Qed.

Lemma hex_to_float_in_range_witness :
  hex_to_float "c0 40 00 00" = Ok 0xc0400000 /\ is_float32 0xc0400000.
Proof.
  assert (H : hex_to_float "c0 40 00 00" = Ok 0xc0400000) by reflexivity.
  split; [exact H | exact (hex_to_float_in_range _ _ H)].
Defined.

(** The text written for a value identifies it up to the quieting of a
    signalling NaN: two 32-bit patterns share a hex string exactly when
    they are the same after quieting. So two different patterns that are
    not signalling NaNs never share a string, and a signalling NaN shares
    its string with its quiet version. *)
Theorem float_to_hex_injective (x y : float32) :
  is_float32 x -> is_float32 y ->
  (float_to_hex x = float_to_hex y <-> via_double x = via_double y) /\
  (is_signalling x = false -> is_signalling y = false ->
   float_to_hex x = float_to_hex y -> x = y) /\
  float_to_hex (via_double x) = float_to_hex x.
Proof.
  intros Hx Hy.
  assert (Hiff : float_to_hex x = float_to_hex y <->
                 via_double x = via_double y).
  { split; intros Heq.
    - pose proof (hex_to_float_float_to_hex x Hx) as H1.
      rewrite Heq, (hex_to_float_float_to_hex y Hy) in H1. congruence.
    - rewrite <- (float_to_hex_via_double x), <- (float_to_hex_via_double y).
      rewrite Heq. reflexivity. }
  split; [exact Hiff |]. split; [| apply float_to_hex_via_double].
  intros Hqx Hqy Heq. apply Hiff in Heq.
  rewrite (via_double_quiet x Hqx), (via_double_quiet y Hqy) in Heq.
  exact Heq.
Qed.

Lemma float_to_hex_injective_witness :
  float_to_hex pos_zero <> float_to_hex neg_zero /\
  float_to_hex 0x7fa00000 = float_to_hex 0x7fe00000.
Proof.
  assert (Hp : is_float32 pos_zero) by (unfold is_float32, pos_zero; lia).
  assert (Hn : is_float32 neg_zero) by (unfold is_float32, neg_zero; lia).
  assert (Hs : is_float32 0x7fa00000) by (unfold is_float32; lia).
  assert (Hq : is_float32 0x7fe00000) by (unfold is_float32; lia).
  split.
  - intros Heq.
    pose proof (proj1 (proj2 (float_to_hex_injective pos_zero neg_zero Hp Hn))
                  eq_refl eq_refl Heq) as H.
    discriminate H.
  - exact (proj2 (proj1 (float_to_hex_injective 0x7fa00000 0x7fe00000 Hs Hq))
             eq_refl).
Defined.

Lemma lower_hex_char c :
  is_lower_hex c = true ->
  exists d, hex_digit c = Some d /\ 0 <= d < 16 /\ hex_char d = c.
Proof.
  destruct c as [[] [] [] [] [] [] [] []]; intros H;
    try (vm_compute in H; discriminate H); clear H;
    eexists; (split; [vm_compute; reflexivity | split; [lia | reflexivity]]).
Qed.

Lemma format_02x_digits d1 d2 :
  0 <= d1 < 16 -> 0 <= d2 < 16 ->
  format_02x (d1 * 16 + d2) = String (hex_char d1) (String (hex_char d2) EmptyString).
Proof.
  intros H1 H2. unfold format_02x.
  replace ((d1 * 16 + d2) / 16) with d1 by (Z.div_mod_to_equations; lia).
  replace ((d1 * 16 + d2) mod 16) with d2 by (Z.div_mod_to_equations; lia).
  reflexivity.
Qed.

(** A string of exactly eight lowercase hexadecimal characters is what
    [float_to_hex] writes for the pattern it denotes, unless that pattern
    is a signalling NaN. *)
Lemma float_to_hex_hex_value (s : string) :
  String.length s = 8%nat -> string_forall is_lower_hex s = true ->
  is_signalling (hex_value s) = false ->
  float_to_hex (hex_value s) = s.
Proof.
  intros Hlen Hall Hq.
  destruct s as [| c1 [| c2 [| c3 [| c4 [| c5 [| c6 [| c7 [| c8 [| ? ?]]]]]]]]];
    try discriminate. clear Hlen.
  cbn [string_forall] in Hall. rewrite andb_true_r in Hall.
  apply andb_true_iff in Hall as [H1 Hall].
  apply andb_true_iff in Hall as [H2 Hall].
  apply andb_true_iff in Hall as [H3 Hall].
  apply andb_true_iff in Hall as [H4 Hall].
  apply andb_true_iff in Hall as [H5 Hall].
  apply andb_true_iff in Hall as [H6 Hall].
  apply andb_true_iff in Hall as [H7 H8].
  apply lower_hex_char in H1 as (d1 & E1 & R1 & <-).
  apply lower_hex_char in H2 as (d2 & E2 & R2 & <-).
  apply lower_hex_char in H3 as (d3 & E3 & R3 & <-).
  apply lower_hex_char in H4 as (d4 & E4 & R4 & <-).
  apply lower_hex_char in H5 as (d5 & E5 & R5 & <-).
  apply lower_hex_char in H6 as (d6 & E6 & R6 & <-).
  apply lower_hex_char in H7 as (d7 & E7 & R7 & <-).
  apply lower_hex_char in H8 as (d8 & E8 & R8 & <-).
  rewrite float_to_hex_unfold, (via_double_quiet _ Hq). cbn zeta.
  unfold hex_value. cbn [hex_value_from].
  rewrite E1, E2, E3, E4, E5, E6, E7, E8. unfold default, from_option, id.
  change (2 ^ 24) with 16777216. change (2 ^ 16) with 65536.
  change (2 ^ 8) with 256.
  match goal with
  | |- context [format_02x (?v mod 256)] =>
      replace ((v / 16777216) mod 256) with (d1 * 16 + d2)
        by (Z.div_mod_to_equations; lia);
      replace ((v / 65536) mod 256) with (d3 * 16 + d4)
        by (Z.div_mod_to_equations; lia);
      replace ((v / 256) mod 256) with (d5 * 16 + d6)
        by (Z.div_mod_to_equations; lia);
      replace (v mod 256) with (d7 * 16 + d8)
        by (Z.div_mod_to_equations; lia)
  end.
  rewrite !format_02x_digits by assumption. reflexivity.
Qed.

Lemma lower_hex_is_hex (s : string) :
  string_forall is_lower_hex s = true -> string_forall is_hex s = true.
Proof.
  induction s as [| c s IH]; cbn [string_forall]; [reflexivity |].
  intros H. apply andb_true_iff in H as [Hc Hs]. rewrite (IH Hs), andb_true_r.
  apply lower_hex_char in Hc as (d & Hd & _). unfold is_hex. rewrite Hd.
  reflexivity.
Qed.

(** The round trip in the other direction: a string of exactly eight
    lowercase hexadecimal characters is decoded to a value that is not a
    signalling NaN and that the codec takes back to itself; encoding that
    value gives back the very same string, unless the string denotes a
    signalling NaN. *)
Theorem float_to_hex_hex_to_float (s : string) :
  String.length s = 8%nat -> string_forall is_lower_hex s = true ->
  exists v,
    hex_to_float s = Ok v /\
    is_signalling v = false /\
    hex_to_float (float_to_hex v) = Ok v /\
    (is_signalling (hex_value s) = false -> float_to_hex v = s).
Proof.
  intros Hlen Hall.
  assert (H8 : eight_hex s = true).
  { unfold eight_hex. rewrite Hlen, (lower_hex_is_hex s Hall). reflexivity. }
  destruct (eight_hex_decode s H8) as [Hdec Hrange].
  exists (via_double (hex_value s)). split; [exact Hdec |].
  split; [apply is_signalling_via_double |]. split.
  - rewrite hex_to_float_float_to_hex by (apply via_double_float32, Hrange).
    rewrite via_double_idempotent. reflexivity.
  - intros Hq. rewrite (via_double_quiet _ Hq).
    apply float_to_hex_hex_value; assumption.
Qed.

Lemma float_to_hex_hex_to_float_witness :
  exists v,
    hex_to_float "7fc00000" = Ok v /\
    is_signalling v = false /\
    hex_to_float (float_to_hex v) = Ok v /\
    float_to_hex v = "7fc00000"%string.
Proof.
  destruct (float_to_hex_hex_to_float "7fc00000" eq_refl eq_refl)
    as (v & Hdec & Hq & Hrt & Henc).
  exists v. split; [exact Hdec |]. split; [exact Hq |].
  split; [exact Hrt | exact (Henc eq_refl)].
Defined.

Lemma bytes_fromhex_all_hex s :
  string_forall is_hex s = true ->
  if Nat.even (String.length s)
  then exists bs, bytes_fromhex s = Ok bs /\
                  (2 * length bs = String.length s)%nat
  else bytes_fromhex s = Error ValueError.
Proof.
  remember (String.length s) as n eqn:Hn.
  revert s Hn. induction (lt_wf n) as [n _ IH]. intros s -> Hall.
  destruct s as [| c s].
  { cbn. exists []. split; reflexivity. }
  cbn [string_forall] in Hall. apply andb_true_iff in Hall as [Hc Hall].
  apply is_hex_digit in Hc as [top Hc].
  cbn [bytes_fromhex]. rewrite (hex_digit_not_space _ _ Hc), Hc.
  destruct s as [| c' s]; [reflexivity |].
  cbn [string_forall] in Hall. apply andb_true_iff in Hall as [Hc' Hall].
  apply is_hex_digit in Hc' as [bot Hc']. rewrite Hc'.
  specialize (IH (String.length s) ltac:(cbn; lia) s eq_refl Hall).
  cbn [String.length]. change (Nat.even (S (S ?k))) with (Nat.even k).
  destruct (Nat.even (String.length s)).
  - destruct IH as (bs & -> & Hlen). cbn. eexists. split; [reflexivity |].
    cbn. lia.
  - rewrite IH. reflexivity.
Qed.

(** Which exception a string of hexadecimal digits of the wrong length
    meets: [ValueError] (from [bytes.fromhex]) when the number of digits is
    odd, [struct.error] (from [struct.unpack]) when it is even but not
    eight; the empty string is of the second kind. *)
Theorem hex_to_float_wrong_length (s : string) :
  string_forall is_hex s = true -> String.length s <> 8%nat ->
  hex_to_float s =
  Error (if Nat.even (String.length s) then StructError else ValueError).
Proof.
  intros Hall Hlen. unfold hex_to_float.
  pose proof (bytes_fromhex_all_hex s Hall) as Hb.
  destruct (Nat.even (String.length s)).
  - destruct Hb as (bs & -> & Hbs). cbn [mbind result_bind].
    destruct bs as [| ? [| ? [| ? [| ? [| ? ?]]]]]; try reflexivity.
    cbn in Hbs. lia.
  - rewrite Hb. reflexivity.
Qed.

Lemma hex_to_float_wrong_length_witness :
  hex_to_float "3f8" = Error ValueError /\
  hex_to_float "3f80" = Error StructError /\
  hex_to_float EmptyString = Error StructError.
Proof.
  split; [| split].
  - apply (hex_to_float_wrong_length "3f8"); [reflexivity | discriminate].
  - apply (hex_to_float_wrong_length "3f80"); [reflexivity | discriminate].
  - apply (hex_to_float_wrong_length EmptyString); [reflexivity | discriminate].
Defined.

(** * Further properties of the max-pool stage *)

Lemma range_positive (n : Z) : 0 < n -> exists l, range n = 0 :: l.
Proof.
  intros Hn. unfold range. destruct (Z.to_nat n) as [| k] eqn:Hk; [lia |].
  cbn [seq map]. eauto.
Qed.

Lemma concat_nil_rows {A B} (l : list A) :
  concat (map (fun _ => @nil B) l) = [].
Proof. induction l as [| x l IH]; [reflexivity | exact IH]. Qed.

Lemma py_slice_empty {A} (l : list A) : py_slice 0 0 l = [].
Proof. unfold py_slice. rewrite Nat.sub_diag. reflexivity. Qed.

(** A window of one cell holds that cell and nothing else. *)
Lemma slice2_cell {A} (m : ndarray A) (i j : nat) (x : A) :
  lookup2 m i j = Some x ->
  flatten (slice2 m (Z.of_nat i) (Z.of_nat i + Z.of_nat 1)
                    (Z.of_nat j) (Z.of_nat j + Z.of_nat 1)) = [x].
Proof.
  unfold lookup2, flatten, slice2. cbn [rows].
  destruct (rows m !! i) as [r |] eqn:Hr; [| discriminate].
  cbn [mbind option_bind]. intros Hx.
  rewrite py_slice_in_range by (apply lookup_lt_Some in Hr; lia).
  rewrite (drop_S _ _ _ Hr). cbn [take map concat].
  rewrite py_slice_in_range by (apply lookup_lt_Some in Hx; lia).
  rewrite (drop_S _ _ _ Hx). reflexivity.
Qed.

Section MaxPoolEdges.
Context `{Numpy}.

Lemma np_max_empty_window (m : ndarray float32) (ph pw : Z) :
  ph = 0 \/ pw = 0 -> np_max (slice2 m 0 ph 0 pw) = Error ValueError.
Proof.
  intros [-> | ->]; unfold np_max, flatten, slice2; cbn [rows].
  - rewrite py_slice_empty. reflexivity.
  - rewrite (map_ext _ (fun _ => []) (fun r => py_slice_empty r)).
    rewrite concat_nil_rows. reflexivity.
Qed.

(** Degenerate parameters of [apply_maxpool_2d]: a zero stride (given, or
    defaulted from a zero window dimension) is a [ZeroDivisionError]; a
    zero window dimension with non-zero strides is a [ValueError] as soon
    as the output has a cell, [np.max] being applied to an empty window. *)
Theorem maxpool_degenerate_parameters (m : ndarray float32) (ph pw : Z)
    (sh sw : option Z) (p : Z) :
  (default ph sh = 0 \/ default pw sw = 0 ->
   apply_maxpool_2d m ph pw sh sw p = Error ZeroDivisionError) /\
  (default ph sh <> 0 -> default pw sw <> 0 -> ph = 0 \/ pw = 0 ->
   0 < (Z.of_nat (shape_h (padded m p)) - ph) / default ph sh + 1 ->
   0 < (Z.of_nat (shape_w (padded m p)) - pw) / default pw sw + 1 ->
   apply_maxpool_2d m ph pw sh sw p = Error ValueError).
Proof.
  split.
  - intros Hzero. unfold apply_maxpool_2d, floordiv.
    destruct (Z.eqb_spec (default ph sh) 0) as [Hh | Hh]; [reflexivity |].
    destruct (Z.eqb_spec (default pw sw) 0) as [Hw | Hw]; [reflexivity | lia].
  - intros Hsh Hsw Hwin Hoh How. unfold apply_maxpool_2d. fold (padded m p).
    rewrite !floordiv_nonzero by assumption. cbn [mbind result_bind].
    destruct (np_zeros_spec _ _ (Z.lt_le_incl _ _ Hoh) (Z.lt_le_incl _ _ How))
      as (o & -> & _). cbn [mbind result_bind].
    destruct (range_positive _ Hoh) as [lh ->].
    destruct (range_positive _ How) as [lw ->].
    cbn [for_each]. change (0 * ?s) with 0. change (0 + ?k) with k.
    rewrite np_max_empty_window by exact Hwin. reflexivity.
Qed.

(** Pooling with a 1x1 window, stride 1 and no padding is the identity. *)
Theorem maxpool_1x1_identity (m : ndarray float32) (sh sw : option Z) (p : Z) :
  wf_ndarray m -> default 1 sh = 1 -> default 1 sw = 1 -> p <= 0 ->
  apply_maxpool_2d m 1 1 sh sw p = Ok m.
Proof.
  intros Hwf Hsh Hsw Hp.
  assert (Hpad : padded m p = m).
  { unfold padded. destruct (Z.ltb_spec 0 p); [lia | reflexivity]. }
  destruct (maxpool_total m 1 1 sh sw p) as (out & Hrun & Hwfo & Hshape & Hcells);
    rewrite ?Hsh, ?Hsw, ?Hpad, ?Z.div_1_r; try assumption; try lia.
  rewrite Hsh, Hsw, Hpad, !Z.div_1_r in Hshape, Hcells.
  rewrite Hrun. f_equal. apply ndarray_ext; try assumption.
  - rewrite Hshape. unfold shape. f_equal; lia.
  - pose proof (f_equal fst Hshape) as H1. pose proof (f_equal snd Hshape) as H2.
    unfold shape in H1, H2. cbn [fst snd] in H1, H2.
    intros i j Hi Hj.
    destruct (Hcells i j) as (_ & _ & v & -> & Hv); [lia | lia |].
    change (Z.to_nat 1) with 1%nat in Hv. rewrite !Nat.mul_1_r in Hv.
    destruct (lookup2_is_Some m i j Hwf) as [x Hx]; [lia | lia |].
    unfold np_max in Hv. rewrite (slice2_cell m i j x Hx) in Hv.
    rewrite Hx. congruence.
Qed.

End MaxPoolEdges.

Lemma maxpool_degenerate_parameters_witness :
  apply_maxpool_2d (H := reference_numpy) minus_ones_2x2 0 2 None None 0
    = Error ZeroDivisionError /\
  apply_maxpool_2d (H := reference_numpy) minus_ones_2x2 2 0 (Some 1) (Some 1)
    0 = Error ValueError.
Proof.
  split.
  - apply (maxpool_degenerate_parameters (H := reference_numpy) minus_ones_2x2 0 2 None None 0).
    left. reflexivity.
  - apply (maxpool_degenerate_parameters (H := reference_numpy) minus_ones_2x2 2 0 (Some 1) (Some 1) 0);
      [discriminate | discriminate | right; reflexivity
      | vm_compute; reflexivity | vm_compute; reflexivity].
Defined.

Lemma maxpool_1x1_identity_witness :
  apply_maxpool_2d (H := reference_numpy) counting_4x4 1 1 None None 0
  = Ok counting_4x4.
Proof.
  refine (maxpool_1x1_identity (H := reference_numpy) counting_4x4 None None 0
            counting_4x4_wf _ _ _);
    [reflexivity | reflexivity | lia].
Defined.

Section MaxPoolValues.
Context `{Numpy}.

(** numpy's maximum-reduction is taken with what numpy documents of it. *)
Hypothesis maximum_reduce_ok : maximum_reduce_contract.

(** Max-pooling invents no number: every cell of the output that is not a
    NaN is, bit for bit, a cell of the input or the [0.0] of the padding;
    and a cell of the output is a NaN only if a cell of the input is. *)
Theorem maxpool_values_from_input (m : ndarray float32) (ph pw : Z)
    (sh sw : option Z) (p : Z) (out : ndarray float32) :
  wf_ndarray m -> 0 < ph -> 0 < pw ->
  0 < default ph sh -> 0 < default pw sw ->
  apply_maxpool_2d m ph pw sh sw p = Ok out ->
  forall i j v, lookup2 out i j = Some v ->
    (isnan v = false ->
     (0 < p /\ v = pos_zero) \/ exists r c, lookup2 m r c = Some v) /\
    (isnan v = true ->
     exists r c w, lookup2 m r c = Some w /\ isnan w = true).
Proof.
  intros Hwf Hph Hpw Hsh Hsw Hrun i j v Hv.
  destruct (maxpool_ok_cells maximum_reduce_ok m ph pw sh sw p out
              Hwf Hph Hpw Hsh Hsw Hrun) as (_ & _ & _ & Hcells).
  destruct (Hcells i j v Hv) as [Hnan Hmax]. split.
  - intros Hn. destruct (Hmax Hn) as ((a & b & _ & _ & Hin) & _).
    exact (padded_lookup_origin m p _ _ v Hwf Hin).
  - intros Hn. destruct (proj1 Hnan Hn) as (w & (a & b & _ & _ & Hin) & Hwn).
    destruct (padded_lookup_origin m p _ _ w Hwf Hin)
      as [[_ ->] | (r & c & Hrc)]; [discriminate Hwn | eauto].
Qed.

(** With padding, a window whose top-left corner lies in the padding holds
    a [0.0]: the maximum of such a window is never negative. In particular
    the first output cell is a NaN or [>= 0.0]. *)
Theorem maxpool_border_nonnegative (m : ndarray float32) (ph pw : Z)
    (sh sw : option Z) (p : Z) (out : ndarray float32) :
  wf_ndarray m -> 0 < ph -> 0 < pw ->
  0 < default ph sh -> 0 < default pw sw -> 0 < p ->
  apply_maxpool_2d m ph pw sh sw p = Ok out ->
  forall i j v, lookup2 out i j = Some v ->
    (i * Z.to_nat (default ph sh) < Z.to_nat p \/
     j * Z.to_nat (default pw sw) < Z.to_nat p)%nat ->
    isnan v = true \/ f32_ge v pos_zero = true.
Proof.
  intros Hwf Hph Hpw Hsh Hsw Hp Hrun i j v Hv Hcorner.
  destruct (maxpool_ok_cells maximum_reduce_ok m ph pw sh sw p out
              Hwf Hph Hpw Hsh Hsw Hrun)
    as (_ & _ & _ & Hcells).
  destruct (isnan v) eqn:Hnan; [auto | right].
  destruct (proj2 (Hcells i j v Hv) Hnan) as ((a & b & _ & _ & Hin) & Hge).
  apply Hge. exists 0%nat, 0%nat.
  split; [lia |]. split; [lia |]. rewrite !Nat.add_0_r.
  pose proof (lookup2_Some_lt _ _ _ _ (padded_wf m p Hwf) Hin) as [Hr Hc].
  unfold padded in *. destruct (Z.ltb_spec 0 p) as [_ | ?]; [| lia].
  pose proof (f_equal fst (np_pad_shape m (Z.to_nat p))) as H1.
  pose proof (f_equal snd (np_pad_shape m (Z.to_nat p))) as H2.
  unfold shape in H1, H2. cbn [fst snd] in H1, H2.
  rewrite np_pad_lookup by (assumption || lia).
  destruct Hcorner as [Hlt | Hlt].
  - destruct (Nat.leb_spec (Z.to_nat p) (i * Z.to_nat (default ph sh)));
      [lia | reflexivity].
  - destruct (Nat.leb_spec (Z.to_nat p) (j * Z.to_nat (default pw sw)));
      [lia |]. rewrite andb_false_r. reflexivity.
Qed.

End MaxPoolValues.

Lemma maxpool_values_from_input_witness :
  apply_maxpool_2d (H := reference_numpy) minus_ones_2x2 2 2 None None 1
    = Ok {| width := 2; rows := [[pos_zero; pos_zero]; [pos_zero; pos_zero]] |} /\
  isnan pos_zero = false /\
  ((0 < 1 /\ pos_zero = pos_zero) \/
   exists r c, lookup2 minus_ones_2x2 r c = Some pos_zero).
Proof.
  split; [reflexivity |]. split; [reflexivity |].
  refine (proj1 (maxpool_values_from_input (H := reference_numpy)
                   reference_maximum_reduce_contract minus_ones_2x2 2 2 None
                   None 1 _ minus_ones_2x2_wf _ _ _ _ eq_refl 0%nat 0%nat
                   pos_zero eq_refl) eq_refl);
    cbn; lia.
Defined.

Lemma maxpool_border_nonnegative_witness :
  apply_maxpool_2d (H := reference_numpy) minus_ones_2x2 2 2 None None 1
    = Ok {| width := 2; rows := [[pos_zero; pos_zero]; [pos_zero; pos_zero]] |} /\
  (isnan pos_zero = true \/ f32_ge pos_zero pos_zero = true).
Proof.
  split; [reflexivity |].
  refine (maxpool_border_nonnegative (H := reference_numpy)
            reference_maximum_reduce_contract minus_ones_2x2 2 2 None None 1 _
            minus_ones_2x2_wf _ _ _ _ _ eq_refl 0%nat 0%nat pos_zero eq_refl _);
    [cbn; lia | cbn; lia | cbn; lia | cbn; lia | lia | left; cbn; lia].
Defined.

(** * Further properties of the activation stage *)

(** A pattern whose value is not negative and whose sign bit is set is
    [-0.0]. *)
Lemma nonnegative_key_sign x :
  0 <= f32_key x -> sign_bit x = true -> is_zero x = true.
Proof.
  unfold f32_key, is_zero. pose proof (exponent_bits_range x).
  pose proof (fraction_bits_range x). intros Hk Hs. rewrite Hs in Hk.
  assert (exponent_bits x = 0 /\ fraction_bits x = 0) as [-> ->] by nia.
  reflexivity.
Qed.

Lemma relu_scalar_idempotent v :
  np_maximum pos_zero (np_maximum pos_zero v) = np_maximum pos_zero v.
Proof.
  rewrite (relu_scalar v). destruct (isnan v) eqn:Hv.
  - rewrite relu_scalar, Hv. reflexivity.
  - destruct (f32_key v <? 0) eqn:Hk.
    + reflexivity.
    + rewrite relu_scalar, Hv, Hk. reflexivity.
Qed.

Lemma relu_scalar_nonnegative (u : float32) :
  isnan (np_maximum pos_zero u) = false ->
  f32_ge (np_maximum pos_zero u) pos_zero = true /\
  (sign_bit (np_maximum pos_zero u) = true ->
   is_zero (np_maximum pos_zero u) = true).
Proof.
  rewrite relu_scalar. destruct (isnan u) eqn:Hu; [congruence |]. intros _.
  destruct (Z.ltb_spec (f32_key u) 0) as [Hneg | Hpos].
  - split; [reflexivity | discriminate].
  - split; [| apply nonnegative_key_sign, Hpos].
    rewrite f32_ge_key, Hu, isnan_pos_zero, f32_key_pos_zero.
    apply Z.leb_le. lia.
Qed.

Section ReluFacts.
Context `{Numpy}.

(** [relu] is idempotent on arrays, and no cell of its output is
    negative: a cell that is not a NaN is [>= 0.0], and if its sign bit is
    set it is [-0.0]. A [-0.0] of the input is indeed kept as it is. *)
Theorem relu_idempotent_nonnegative (x : ndarray float32) :
  apply_activation (apply_activation x "relu") "relu"
    = apply_activation x "relu" /\
  (forall i j v, lookup2 (apply_activation x "relu") i j = Some v ->
     isnan v = false ->
     f32_ge v pos_zero = true /\ (sign_bit v = true -> is_zero v = true)) /\
  (forall i j, lookup2 x i j = Some neg_zero ->
     lookup2 (apply_activation x "relu") i j = Some neg_zero).
Proof.
  unfold apply_activation. rewrite String.eqb_refl. split; [| split].
  - unfold ndarray_map. cbn [rows width]. f_equal.
    rewrite map_map. apply map_ext. intros r. rewrite map_map.
    apply map_ext. intros v. apply relu_scalar_idempotent.
  - intros i j v Hv Hnan. rewrite ndarray_map_lookup in Hv.
    destruct (lookup2 x i j) as [u |]; [| discriminate].
    cbn in Hv. injection Hv as <-. apply relu_scalar_nonnegative, Hnan.
  - intros i j Hx. rewrite ndarray_map_lookup, Hx. reflexivity.
Qed.

(** The sigmoid clamps its argument: above [500.0] it has the value it has
    at [500.0], below [-500.0] the value it has at [-500.0]. *)
Theorem sigmoid_saturates (x : float32) :
  (f32_gt x (Z_astype_float32 500) = true ->
   sigmoid x = sigmoid (Z_astype_float32 500)) /\
  (f32_lt x (Z_astype_float32 (-500)) = true ->
   sigmoid x = sigmoid (Z_astype_float32 (-500))).
Proof.
  assert (Hclip_hi : np_clip (Z_astype_float32 500) (Z_astype_float32 (-500))
                       (Z_astype_float32 500) = Z_astype_float32 500)
    by reflexivity.
  assert (Hclip_lo : np_clip (Z_astype_float32 (-500))
                       (Z_astype_float32 (-500)) (Z_astype_float32 500)
                     = Z_astype_float32 (-500)) by reflexivity.
  unfold sigmoid. rewrite Hclip_hi, Hclip_lo. split; intros Hx.
  - replace (np_clip x (Z_astype_float32 (-500)) (Z_astype_float32 500))
      with (Z_astype_float32 500); [reflexivity |].
    unfold np_clip. unfold f32_gt in *. rewrite Hx.
    rewrite f32_lt_key in Hx. rewrite f32_lt_key.
    destruct (isnan x); [rewrite andb_false_r in Hx; discriminate |].
    change (isnan (Z_astype_float32 500)) with false in *.
    change (isnan (Z_astype_float32 (-500))) with false.
    cbn [negb andb] in *. apply Z.ltb_lt in Hx.
    change (f32_key (Z_astype_float32 500)) with 1140457472 in Hx.
    change (f32_key (Z_astype_float32 (-500))) with (-1140457472).
    destruct (Z.ltb_spec (f32_key x) (-1140457472)); [lia | reflexivity].
  - replace (np_clip x (Z_astype_float32 (-500)) (Z_astype_float32 500))
      with (Z_astype_float32 (-500)); [reflexivity |].
    unfold np_clip. rewrite Hx. rewrite f32_lt_key in Hx.
    destruct (isnan x); [discriminate | reflexivity].
Qed.

End ReluFacts.

Lemma relu_idempotent_nonnegative_witness :
  lookup2 (apply_activation (H := reference_numpy)
             {| width := 2; rows := [[neg_zero; neg_one]] |} "relu") 0 0
    = Some neg_zero /\
  f32_ge neg_zero pos_zero = true /\ is_zero neg_zero = true.
Proof.
  destruct (relu_idempotent_nonnegative (H := reference_numpy)
              {| width := 2; rows := [[neg_zero; neg_one]] |})
    as (_ & Hcell & Hkept).
  pose proof (Hkept 0%nat 0%nat eq_refl) as Hv.
  split; [exact Hv |].
  destruct (Hcell 0%nat 0%nat neg_zero Hv eq_refl) as [Hge Hz].
  split; [exact Hge | exact (Hz eq_refl)].
Defined.

Lemma sigmoid_saturates_witness :
  sigmoid (H := reference_numpy) pos_inf
    = sigmoid (H := reference_numpy) (Z_astype_float32 500) /\
  sigmoid (H := reference_numpy) (Z_astype_float32 (-1000))
    = sigmoid (H := reference_numpy) (Z_astype_float32 (-500)).
Proof.
  split.
  - exact (proj1 (sigmoid_saturates (H := reference_numpy) pos_inf) eq_refl).
  - exact (proj2 (sigmoid_saturates (H := reference_numpy)
                    (Z_astype_float32 (-1000))) eq_refl).
Defined.

(** * Further properties of the matrix generator and the orchestrator *)

Lemma flatten_length {A} (m : ndarray A) :
  wf_ndarray m -> length (flatten m) = (shape_h m * shape_w m)%nat.
Proof.
  unfold wf_ndarray, flatten, shape_h, shape_w. intros Hwf.
  induction Hwf as [| r rs Hr _ IH]; [reflexivity |].
  cbn [concat length]. rewrite length_app, IH, Hr. lia.
Qed.

Lemma first_element_ok {A} (m : ndarray A) :
  wf_ndarray m -> (0 < shape_h m)%nat -> (0 < shape_w m)%nat ->
  exists v, first_element m = Ok v.
Proof.
  unfold wf_ndarray, first_element, flatten, shape_h, shape_w.
  intros Hwf Hh Hw. destruct (rows m) as [| r rs]; [cbn in Hh; lia |].
  apply Forall_cons in Hwf as [Hr _]. destruct r as [| v r]; [cbn in Hr; lia |].
  cbn. eauto.
Qed.

Lemma first_element_empty {A} (m : ndarray A) :
  flatten m = [] -> first_element m = Error IndexError.
Proof. unfold first_element. intros ->. reflexivity. Qed.

Section GeneratorFacts.
Context `{Numpy}.

Lemma np_random_seed_ok (seed : option Z) (g : rng) :
  seed_ok seed = true ->
  exists g0, match seed with Some s => np_random_seed s | None => Ok g end
             = Ok g0.
Proof.
  destruct seed as [s |]; cbn [seed_ok]; [| eauto].
  unfold np_random_seed. intros ->. eauto.
Qed.

Lemma dimension_nonneg (n : Z) : 0 <= n -> dimension n = Ok (Z.to_nat n).
Proof. intros Hn. unfold dimension. destruct (Z.ltb_spec n 0); [lia | reflexivity]. Qed.

Lemma dimension_negative (n : Z) : n < 0 -> dimension n = Error ValueError.
Proof. intros Hn. unfold dimension. destruct (Z.ltb_spec n 0); [reflexivity | lia]. Qed.

Lemma np_random_randint_f32_total (lo hi n : Z) (g : rng) :
  (n < 0 -> np_random_randint_f32 lo hi n g = Error ValueError) /\
  (0 <= n -> exists a g', np_random_randint_f32 lo hi n g = Ok (a, g')).
Proof.
  unfold np_random_randint_f32. split; intros Hn.
  - rewrite dimension_negative by exact Hn. reflexivity.
  - rewrite dimension_nonneg by exact Hn. cbn [mbind result_bind].
    destruct (draw_ndarray _ _ _ g) as [a g1]. cbn. eauto.
Qed.

Lemma np_random_uniform_f32_total (lo hi : float64) (n : Z) (g : rng) :
  (np_isfinite (f64_sub hi lo) = false ->
   np_random_uniform_f32 lo hi n g = Error OverflowError) /\
  (np_isfinite (f64_sub hi lo) = true -> n < 0 ->
   np_random_uniform_f32 lo hi n g = Error ValueError) /\
  (np_isfinite (f64_sub hi lo) = true -> 0 <= n ->
   exists a g', np_random_uniform_f32 lo hi n g = Ok (a, g')).
Proof.
  unfold np_random_uniform_f32.
  destruct (f64_sub hi lo); cbn [np_isfinite];
    (split; [try discriminate; try reflexivity
            | split; try discriminate; intros _ Hn]).
  all: try (rewrite dimension_negative by exact Hn; reflexivity).
  all: rewrite dimension_nonneg by exact Hn; cbn [mbind result_bind];
    destruct (draw_ndarray _ _ _ g) as [a g1]; cbn; eauto.
Qed.

Lemma generate_matrices_total (n : Z) (matrix_type : string)
    (value_range : float64 * float64) (g : rng) :
  (range_ok matrix_type value_range = false ->
   generate_matrices n matrix_type value_range g = Error OverflowError) /\
  (range_ok matrix_type value_range = true -> n < 0 ->
   generate_matrices n matrix_type value_range g = Error ValueError) /\
  (range_ok matrix_type value_range = true -> 0 <= n ->
   exists a b g',
     generate_matrices n matrix_type value_range g = Ok (a, b, g') /\
     square n a /\ square n b).
Proof.
  assert (Hsquare : forall a b g',
    generate_matrices n matrix_type value_range g = Ok (a, b, g') ->
    square n a /\ square n b).
  { intros a b g' Hgen. apply generate_matrices_square in Hgen. tauto. }
  revert Hsquare. unfold range_ok, generate_matrices.
  destruct (String.eqb_spec matrix_type "identity") as [Hid | Hid];
    [| destruct (String.eqb_spec matrix_type "ones") as [Hon | Hon];
       [| destruct (String.eqb_spec matrix_type "small_int") as [Hsi | Hsi]]];
    cbn [orb]; intros Hsquare.
  - unfold np_eye in *. split; [discriminate |]. split; intros _ Hn.
    + rewrite dimension_negative by exact Hn. reflexivity.
    + rewrite dimension_nonneg in * by exact Hn.
      cbn [mbind result_bind mret result_ret] in *. eexists _, _, _.
      split; [reflexivity |].
      exact (Hsquare _ _ _ eq_refl).
  - unfold np_ones in *. split; [discriminate |]. split; intros _ Hn.
    + rewrite dimension_negative by exact Hn. reflexivity.
    + rewrite dimension_nonneg in * by exact Hn.
      cbn [mbind result_bind mret result_ret] in *. eexists _, _, _.
      split; [reflexivity |].
      exact (Hsquare _ _ _ eq_refl).
  - split; [discriminate |]. split; intros _ Hn.
    + rewrite (proj1 (np_random_randint_f32_total (-3) 4 n g) Hn). reflexivity.
    + destruct (proj2 (np_random_randint_f32_total (-3) 4 n g) Hn)
        as (a & g1 & Ha). rewrite Ha in *. cbn [mbind result_bind] in *.
      destruct (proj2 (np_random_randint_f32_total (-3) 4 n g1) Hn)
        as (b & g2 & Hb). rewrite Hb in *.
      cbn [mbind result_bind mret result_ret] in *. eexists _, _, _.
      split; [reflexivity |]. exact (Hsquare _ _ _ eq_refl).
  - pose proof (np_random_uniform_f32_total value_range.1 value_range.2 n)
      as Huni.
    split; [| split].
    + intros Hinf. rewrite (proj1 (Huni g) Hinf). reflexivity.
    + intros Hfin Hn. rewrite (proj1 (proj2 (Huni g)) Hfin Hn). reflexivity.
    + intros Hfin Hn.
      destruct (proj2 (proj2 (Huni g)) Hfin Hn) as (a & g1 & Ha).
      rewrite Ha in *. cbn [mbind result_bind] in *.
      destruct (proj2 (proj2 (Huni g1)) Hfin Hn) as (b & g2 & Hb).
      rewrite Hb in *. cbn [mbind result_bind mret result_ret] in *.
      eexists _, _, _. split; [reflexivity |].
      exact (Hsquare _ _ _ eq_refl).
Qed.

(** The outcome of the matrix generator: an [OverflowError] when uniform
    samples are asked over a range that is not finite; otherwise a
    [ValueError] for a negative size, and for a size [n >= 0] two
    well-formed [n] x [n] matrices. The kinds [identity] and [ones] give
    twice the same matrix and do not touch the random state. *)
Theorem generate_matrices_outcome (n : Z) (matrix_type : string)
    (value_range : float64 * float64) (g : rng) :
  (range_ok matrix_type value_range = false ->
   generate_matrices n matrix_type value_range g = Error OverflowError) /\
  (range_ok matrix_type value_range = true -> n < 0 ->
   generate_matrices n matrix_type value_range g = Error ValueError) /\
  (range_ok matrix_type value_range = true -> 0 <= n ->
   exists a b g',
     generate_matrices n matrix_type value_range g = Ok (a, b, g') /\
     square n a /\ square n b /\
     (matrix_type = "identity"%string \/ matrix_type = "ones"%string ->
      a = b /\ g' = g)).
Proof.
  destruct (generate_matrices_total n matrix_type value_range g)
    as (Hover & Hneg & Hok).
  split; [exact Hover |]. split; [exact Hneg |].
  intros Hrange Hn. destruct (Hok Hrange Hn) as (a & b & g' & Hgen & Ha & Hb).
  exists a, b, g'. split; [exact Hgen |]. split; [exact Ha |].
  split; [exact Hb |].
  intros [-> | ->]; unfold generate_matrices in Hgen;
    cbn [String.eqb Ascii.eqb Bool.eqb] in Hgen.
  - destruct (np_eye n); cbn in Hgen; [| discriminate].
    injection Hgen as <- <- <-. auto.
  - destruct (np_ones n); cbn in Hgen; [| discriminate].
    injection Hgen as <- <- <-. auto.
Qed.

End GeneratorFacts.

Section OrchestratorFacts.
Context `{Numpy}.
Variables (n : Z) (activation_type : string) (pool_h pool_w pool_padding : Z)
  (dropout_p : float64) (seed : option Z) (matrix_type : string)
  (value_range : float64 * float64) (g : rng).

Lemma np_matmul_square_ok (a b : ndarray float32) :
  square n a -> square n b ->
  exists c, np_matmul a b = Ok c /\ square n c.
Proof.
  intros Ha Hb. destruct (np_matmul a b) as [c | e] eqn:Hc.
  - exists c. split; [reflexivity |]. exact (np_matmul_square n a b c Ha Hb Hc).
  - exfalso. unfold np_matmul in Hc. destruct Ha as [_ Ha], Hb as [_ Hb].
    pose proof (f_equal snd Ha) as H1. pose proof (f_equal fst Hb) as H2.
    unfold shape in H1, H2. cbn [fst snd] in H1, H2.
    rewrite H1, H2, Nat.eqb_refl in Hc. discriminate.
Qed.

(** With valid inputs a run reaches the max-pool stage: what is left of
    it are the pooling, the read of the first element, the reads of the
    summary and the result. *)
Lemma pipeline_reaches_maxpool :
  seed_ok seed = true -> range_ok matrix_type value_range = true -> 0 <= n ->
  exists a b c g',
    square n a /\ square n b /\ square n c /\
    generate_pipeline_test_vectors n activation_type pool_h pool_w
      pool_padding dropout_p seed matrix_type value_range g
    = (pooled ← apply_maxpool_2d
                  (maxpool_input (apply_activation c activation_type))
                  pool_h pool_w None None pool_padding;
       expected ← first_element pooled;
       _ ← getitem2 a 0 0;
       _ ← getitem2 b 0 0;
       _ ← getitem2 c 0 0;
       mret ({| r_A := a; r_B := b; r_matmul := c;
                r_activated := apply_activation c activation_type;
                r_pooled := pooled; r_final := pooled |},
             {| matrix_north := map float_to_hex (flatten a);
                matrix_west := map float_to_hex (flatten b);
                expected_output := [float_to_hex expected] |},
             g')).
Proof.
  intros Hseed Hrange Hn. unfold generate_pipeline_test_vectors.
  destruct (np_random_seed_ok seed g Hseed) as [g0 ->].
  cbn [mbind result_bind].
  destruct (proj2 (proj2 (generate_matrices_total n matrix_type
                            value_range g0)) Hrange Hn)
    as (a & b & g1 & -> & Ha & Hb).
  cbn [mbind result_bind].
  destruct (np_matmul_square_ok a b Ha Hb) as (c & -> & Hc).
  cbn [mbind result_bind]. exists a, b, c, g1.
  repeat split; try apply Ha; try apply Hb; try apply Hc.
Qed.

(** The read [m[0, 0]] of an [n] x [n] array. *)
Lemma square_origin (m : ndarray float32) :
  square n m ->
  (0 < n -> exists v, getitem2 m 0 0 = Ok v) /\
  (n <= 0 -> getitem2 m 0 0 = Error IndexError).
Proof.
  intros [Hwf Hshape]. pose proof (getitem2_origin m Hwf) as Hget.
  pose proof (f_equal fst Hshape) as H1. pose proof (f_equal snd Hshape) as H2.
  unfold shape in H1, H2. cbn [fst snd] in H1, H2. rewrite H1, H2 in Hget.
  split; intros Hn.
  - destruct (Nat.ltb_spec 0 (Z.to_nat n)); [exact Hget | lia].
  - destruct (Nat.ltb_spec 0 (Z.to_nat n)); [lia | exact Hget].
Qed.

Lemma maxpool_input_square (c : ndarray float32) :
  0 <= n -> square n c ->
  let mi := maxpool_input (apply_activation c activation_type) in
  wf_ndarray mi /\
  Z.of_nat (shape_h mi) = Z.min n 5 /\ Z.of_nat (shape_w mi) = Z.min n 5.
Proof.
  intros Hn [Hwf Hshape]. cbn zeta.
  destruct (apply_activation_shape c activation_type) as [Hs Hw].
  destruct (maxpool_input_spec (apply_activation c activation_type))
    as (_ & Hh & Hwd & Hwf').
  rewrite Hshape in Hs.
  pose proof (f_equal fst Hs) as H1. pose proof (f_equal snd Hs) as H2.
  unfold shape in H1, H2. cbn [fst snd] in H1, H2.
  split; [auto |]. lia.
Qed.

(** A valid configuration runs to the end: for [n >= 1], a window that
    fits the padded 5x5 corner, a valid seed and a finite range, the
    orchestrator returns; [A], [B], [matmul] and [activated] are
    [n] x [n], [pooled] has the max-pool dimensions of the [min(n, 5)]
    corner, and the files hold [n * n], [n * n] and one line. *)
Theorem pipeline_succeeds :
  seed_ok seed = true -> range_ok matrix_type value_range = true ->
  0 < n -> 0 <= pool_padding ->
  0 < pool_h <= Z.min n 5 + 2 * pool_padding ->
  0 < pool_w <= Z.min n 5 + 2 * pool_padding ->
  exists res files g',
    generate_pipeline_test_vectors n activation_type pool_h pool_w
      pool_padding dropout_p seed matrix_type value_range g
      = Ok (res, files, g') /\
    square n (r_A res) /\ square n (r_B res) /\
    square n (r_matmul res) /\ square n (r_activated res) /\
    wf_ndarray (r_pooled res) /\
    Z.of_nat (shape_h (r_pooled res))
      = out_dim (Z.min n 5) pool_h pool_h pool_padding /\
    Z.of_nat (shape_w (r_pooled res))
      = out_dim (Z.min n 5) pool_w pool_w pool_padding /\
    length (matrix_north files) = (Z.to_nat n * Z.to_nat n)%nat /\
    length (matrix_west files) = (Z.to_nat n * Z.to_nat n)%nat /\
    length (expected_output files) = 1%nat.
Proof.
  intros Hseed Hrange Hpos Hp Hph Hpw.
  assert (Hn : 0 <= n) by lia.
  destruct (pipeline_reaches_maxpool Hseed Hrange Hn)
    as (a & b & c & g1 & Ha & Hb & Hc & ->).
  destruct (maxpool_input_square c Hn Hc) as (Hwfi & Hhi & Hwi).
  cbn zeta in *.
  set (mi := maxpool_input (apply_activation c activation_type)) in *.
  destruct (out_dim_padded mi pool_padding pool_h pool_h Hp) as [Eh _].
  destruct (out_dim_padded mi pool_padding pool_w pool_w Hp) as [_ Ew].
  rewrite Hhi in Eh. rewrite Hwi in Ew.
  assert (Hoh : 1 <= out_dim (Z.min n 5) pool_h pool_h pool_padding).
  { unfold out_dim.
    assert (0 <= (Z.min n 5 + 2 * pool_padding - pool_h) / pool_h)
      by (apply Z.div_pos; lia). lia. }
  assert (How : 1 <= out_dim (Z.min n 5) pool_w pool_w pool_padding).
  { unfold out_dim.
    assert (0 <= (Z.min n 5 + 2 * pool_padding - pool_w) / pool_w)
      by (apply Z.div_pos; lia). lia. }
  destruct (maxpool_total mi pool_h pool_w None None pool_padding)
    as (pooled & Hrun & Hwfo & Hshape & _);
    cbn [default from_option]; unfold id; rewrite ?Eh, ?Ew;
    try assumption; try lia.
  cbn [default from_option] in Hshape. unfold id in Hshape.
  rewrite Eh, Ew in Hshape.
  pose proof (f_equal fst Hshape) as H1. pose proof (f_equal snd Hshape) as H2.
  unfold shape in H1, H2. cbn [fst snd] in H1, H2.
  rewrite Hrun. cbn [mbind result_bind].
  destruct (first_element_ok pooled Hwfo) as [v ->]; [lia | lia |].
  destruct (proj1 (square_origin a Ha) Hpos) as [a00 ->].
  destruct (proj1 (square_origin b Hb) Hpos) as [b00 ->].
  destruct (proj1 (square_origin c Hc) Hpos) as [c00 ->].
  cbn [mbind result_bind mret result_ret]. eexists _, _, _.
  split; [reflexivity |].
  cbn [r_A r_B r_matmul r_activated r_pooled matrix_north matrix_west
       expected_output].
  destruct (apply_activation_shape c activation_type) as [Hs Hw].
  destruct Ha as [Hwa Hsa], Hb as [Hwb Hsb].
  pose proof (f_equal fst Hsa) as A1. pose proof (f_equal snd Hsa) as A2.
  pose proof (f_equal fst Hsb) as B1. pose proof (f_equal snd Hsb) as B2.
  unfold shape in A1, A2, B1, B2. cbn [fst snd] in A1, A2, B1, B2.
  repeat split; try assumption; try (destruct Hc; auto; fail).
  - rewrite Hs. apply Hc.
  - lia.
  - lia.
  - rewrite length_map, flatten_length, A1, A2 by assumption. reflexivity.
  - rewrite length_map, flatten_length, B1, B2 by assumption. reflexivity.
Qed.

(** Pooling the corner with a window larger than the padded corner gives
    an empty array. *)
Lemma corner_pool_empty (c : ndarray float32) :
  0 <= n -> square n c -> 0 <= pool_padding -> 0 < pool_h -> 0 < pool_w ->
  Z.min n 5 + 2 * pool_padding < pool_h \/
  Z.min n 5 + 2 * pool_padding < pool_w ->
  exists pooled,
    apply_maxpool_2d (maxpool_input (apply_activation c activation_type))
      pool_h pool_w None None pool_padding = Ok pooled /\
    flatten pooled = [].
Proof.
  intros Hn Hc Hp Hph Hpw Hbig.
  destruct (maxpool_input_square c Hn Hc) as (Hwfi & Hhi & Hwi).
  cbn zeta in *.
  set (mi := maxpool_input (apply_activation c activation_type)) in *.
  destruct (padded_shape mi pool_padding Hp) as [Eh Ew].
  assert (Hqh : -1 <= (Z.of_nat (shape_h (padded mi pool_padding)) - pool_h)
                      / pool_h) by (apply Z.div_le_lower_bound; lia).
  assert (Hqw : -1 <= (Z.of_nat (shape_w (padded mi pool_padding)) - pool_w)
                      / pool_w) by (apply Z.div_le_lower_bound; lia).
  destruct (maxpool_empty mi pool_h pool_w None None pool_padding)
    as (pooled & Hrun & _ & Hempty);
    cbn [default from_option]; unfold id; try assumption; try lia; [| eauto].
  destruct Hbig as [Hb1 | Hb1]; [left | right].
  - assert ((Z.of_nat (shape_h (padded mi pool_padding)) - pool_h)
            / pool_h < 0) by (apply Z.div_lt_upper_bound; lia). lia.
  - assert ((Z.of_nat (shape_w (padded mi pool_padding)) - pool_w)
            / pool_w < 0) by (apply Z.div_lt_upper_bound; lia). lia.
Qed.

(** A window larger than the padded 5x5 corner: the pooling returns an
    empty array without complaint, and the run then dies on the read of
    its first element, with an [IndexError]. *)
Theorem pipeline_oversized_window :
  seed_ok seed = true -> range_ok matrix_type value_range = true ->
  0 <= n -> 0 <= pool_padding -> 0 < pool_h -> 0 < pool_w ->
  Z.min n 5 + 2 * pool_padding < pool_h \/
  Z.min n 5 + 2 * pool_padding < pool_w ->
  generate_pipeline_test_vectors n activation_type pool_h pool_w
    pool_padding dropout_p seed matrix_type value_range g
  = Error IndexError.
Proof.
  intros Hseed Hrange Hn Hp Hph Hpw Hbig.
  destruct (pipeline_reaches_maxpool Hseed Hrange Hn)
    as (a & b & c & g1 & Ha & Hb & Hc & ->).
  destruct (corner_pool_empty c Hn Hc Hp Hph Hpw Hbig)
    as (pooled & -> & Hempty).
  cbn [mbind result_bind].
  rewrite (first_element_empty pooled Hempty). reflexivity.
Qed.

(** Matrices of size zero: whatever the (positive) window and the
    padding, the run ends in an [IndexError]. Either the pooled array is
    empty and its first element cannot be read, or that read succeeds
    (the padding alone fills a window), and the summary then fails on
    [A[0,0]]. *)
Theorem pipeline_size_zero :
  seed_ok seed = true -> range_ok matrix_type value_range = true ->
  n = 0 -> 0 <= pool_padding -> 0 < pool_h -> 0 < pool_w ->
  generate_pipeline_test_vectors n activation_type pool_h pool_w
    pool_padding dropout_p seed matrix_type value_range g
  = Error IndexError /\
  (pool_h <= 2 * pool_padding -> pool_w <= 2 * pool_padding ->
   exists pooled v,
     apply_maxpool_2d
       (maxpool_input (apply_activation {| width := 0; rows := [] |}
                         activation_type))
       pool_h pool_w None None pool_padding = Ok pooled /\
     first_element pooled = Ok v).
Proof.
  intros Hseed Hrange Hzero Hp Hph Hpw.
  assert (Hn : 0 <= n) by lia.
  destruct (pipeline_reaches_maxpool Hseed Hrange Hn)
    as (a & b & c & g1 & Ha & Hb & Hc & Hrun).
  assert (Hfit : forall c0, square n c0 ->
    pool_h <= 2 * pool_padding -> pool_w <= 2 * pool_padding ->
    exists pooled v,
      apply_maxpool_2d (maxpool_input (apply_activation c0 activation_type))
        pool_h pool_w None None pool_padding = Ok pooled /\
      first_element pooled = Ok v).
  { intros c0 Hc0 Hfh Hfw.
    destruct (maxpool_input_square c0 Hn Hc0) as (Hwfi & Hhi & Hwi).
    cbn zeta in *.
    set (mi := maxpool_input (apply_activation c0 activation_type)) in *.
    destruct (padded_shape mi pool_padding Hp) as [Eh Ew].
    assert (Hqh : 0 <= (Z.of_nat (shape_h (padded mi pool_padding)) - pool_h)
                       / pool_h) by (apply Z.div_pos; lia).
    assert (Hqw : 0 <= (Z.of_nat (shape_w (padded mi pool_padding)) - pool_w)
                       / pool_w) by (apply Z.div_pos; lia).
    destruct (maxpool_total mi pool_h pool_w None None pool_padding)
      as (pooled & Hpool & Hwfo & Hshape & _);
      cbn [default from_option]; unfold id; try assumption; try lia.
    cbn [default from_option] in Hshape. unfold id in Hshape.
    pose proof (f_equal fst Hshape) as H1. pose proof (f_equal snd Hshape) as H2.
    unfold shape in H1, H2. cbn [fst snd] in H1, H2.
    destruct (first_element_ok pooled Hwfo) as [v Hv]; [lia | lia |].
    eauto. }
  split.
  - rewrite Hrun.
    destruct (Z_le_gt_dec pool_h (2 * pool_padding)) as [Hfh | Hfh];
      [destruct (Z_le_gt_dec pool_w (2 * pool_padding)) as [Hfw | Hfw] |].
    + destruct (Hfit c Hc Hfh Hfw) as (pooled & v & -> & Hv).
      cbn [mbind result_bind]. rewrite Hv. cbn [mbind result_bind].
      rewrite (proj2 (square_origin a Ha)) by lia. reflexivity.
    + destruct (corner_pool_empty c Hn Hc Hp Hph Hpw)
        as (pooled & -> & Hempty); [lia |].
      cbn [mbind result_bind].
      rewrite (first_element_empty pooled Hempty). reflexivity.
    + destruct (corner_pool_empty c Hn Hc Hp Hph Hpw)
        as (pooled & -> & Hempty); [lia |].
      cbn [mbind result_bind].
      rewrite (first_element_empty pooled Hempty). reflexivity.
  - apply Hfit. subst n. split; [constructor | reflexivity].
Qed.

(** Invalid inputs of the orchestrator: a seed that does not fit in 32
    bits is a [ValueError] before anything else; with a valid seed, a
    range that is not finite for uniform samples is an [OverflowError],
    and a negative size a [ValueError]. *)
Theorem pipeline_input_errors :
  (seed_ok seed = false ->
   generate_pipeline_test_vectors n activation_type pool_h pool_w
     pool_padding dropout_p seed matrix_type value_range g
   = Error ValueError) /\
  (seed_ok seed = true -> range_ok matrix_type value_range = false ->
   generate_pipeline_test_vectors n activation_type pool_h pool_w
     pool_padding dropout_p seed matrix_type value_range g
   = Error OverflowError) /\
  (seed_ok seed = true -> range_ok matrix_type value_range = true -> n < 0 ->
   generate_pipeline_test_vectors n activation_type pool_h pool_w
     pool_padding dropout_p seed matrix_type value_range g
   = Error ValueError).
Proof.
  unfold generate_pipeline_test_vectors. split; [| split].
  - destruct seed as [s |]; cbn [seed_ok]; [| discriminate].
    unfold np_random_seed. intros ->. reflexivity.
  - intros Hseed Hrange. destruct (np_random_seed_ok seed g Hseed) as [g0 ->].
    cbn [mbind result_bind].
    rewrite (proj1 (generate_matrices_total n matrix_type value_range g0)
               Hrange). reflexivity.
  - intros Hseed Hrange Hn. destruct (np_random_seed_ok seed g Hseed) as [g0 ->].
    cbn [mbind result_bind].
    rewrite (proj1 (proj2 (generate_matrices_total n matrix_type
                             value_range g0)) Hrange Hn). reflexivity.
Qed.

End OrchestratorFacts.

Section OrchestratorOutputs.
Context `{Numpy}.
Variables (n : Z) (activation_type : string) (pool_h pool_w pool_padding : Z)
  (dropout_p : float64) (seed : option Z) (matrix_type : string)
  (value_range : float64 * float64) (g : rng).

Lemma decode_encoded_lines (l : list float32) :
  Forall is_float32 l ->
  Forall2 (fun line v => hex_to_float line = Ok (via_double v))
    (map float_to_hex l) l /\
  (Forall (fun v => is_signalling v = false) l ->
   Forall2 (fun line v => hex_to_float line = Ok v) (map float_to_hex l) l).
Proof.
  induction 1 as [| x l Hx _ [IH1 IH2]]; cbn [map].
  - split; constructor.
  - pose proof (hex_to_float_float_to_hex x Hx) as Hrt. split.
    + constructor; [exact Hrt | exact IH1].
    + intros Hq. apply Forall_cons in Hq as [Hqx Hq].
      constructor; [| exact (IH2 Hq)].
      rewrite Hrt, (via_double_quiet x Hqx). reflexivity.
Qed.

(** The files can be read back: decoding the lines of the north and west
    files gives [A] and [B] element for element, in row-major order, and
    the line of the expected-output file decodes to the first element of
    [final], a signalling NaN being read back quiet. Where no signalling
    NaN is involved the files are lossless, bit for bit. *)
Theorem pipeline_files_decode (res : PipelineResult) (files : PipelineFiles)
    (g' : rng) :
  generate_pipeline_test_vectors n activation_type pool_h pool_w pool_padding
    dropout_p seed matrix_type value_range g = Ok (res, files, g') ->
  Forall is_float32 (flatten (r_A res)) ->
  Forall is_float32 (flatten (r_B res)) ->
  Forall is_float32 (flatten (r_final res)) ->
  (Forall2 (fun line v => hex_to_float line = Ok (via_double v))
     (matrix_north files) (flatten (r_A res)) /\
   Forall2 (fun line v => hex_to_float line = Ok (via_double v))
     (matrix_west files) (flatten (r_B res)) /\
   exists v, first_element (r_final res) = Ok v /\
             Forall2 (fun line v => hex_to_float line = Ok (via_double v))
               (expected_output files) [v]) /\
  (Forall (fun v => is_signalling v = false) (flatten (r_A res)) ->
   Forall2 (fun line v => hex_to_float line = Ok v)
     (matrix_north files) (flatten (r_A res))) /\
  (Forall (fun v => is_signalling v = false) (flatten (r_B res)) ->
   Forall2 (fun line v => hex_to_float line = Ok v)
     (matrix_west files) (flatten (r_B res))) /\
  (forall v, first_element (r_final res) = Ok v -> is_signalling v = false ->
     Forall2 (fun line v => hex_to_float line = Ok v)
       (expected_output files) [v]).
Proof.
  intros Hrun HA HB HF.
  destruct (pipeline_inv _ _ _ _ _ _ _ _ _ _ _ _ _ Hrun)
    as (g0 & _ & _ & _ & _ & _ & -> & -> & v & Hv & ->).
  assert (Hvf : Forall is_float32 [v]).
  { unfold first_element in Hv.
    destruct (flatten (r_final res)) as [| v' l]; [discriminate |].
    injection Hv as ->. apply Forall_cons in HF as [Hv _].
    constructor; [exact Hv | constructor]. }
  split; [split; [| split] | split; [| split]].
  - apply decode_encoded_lines, HA.
  - apply decode_encoded_lines, HB.
  - exists v. split; [exact Hv |]. apply (decode_encoded_lines [v] Hvf).
  - apply decode_encoded_lines, HA.
  - apply decode_encoded_lines, HB.
  - intros v' Hv' Hq. rewrite Hv in Hv'. injection Hv' as <-.
    apply (decode_encoded_lines [v] Hvf). constructor; [exact Hq | constructor].
Qed.

End OrchestratorOutputs.

Section OrchestratorRelu.
Context `{Numpy}.

(** numpy's maximum-reduction is taken with what numpy documents of it. *)
Hypothesis maximum_reduce_ok : maximum_reduce_contract.
Variables (n : Z) (activation_type : string) (pool_h pool_w pool_padding : Z)
  (dropout_p : float64) (seed : option Z) (matrix_type : string)
  (value_range : float64 * float64) (g : rng).

(** After [relu], pooling with a positive window can only return
    non-negative values: every cell of [final] that is not a NaN is
    [>= 0.0], and if its sign bit is set it is [-0.0]. *)
Theorem pipeline_relu_nonnegative (res : PipelineResult)
    (files : PipelineFiles) (g' : rng) :
  activation_type = "relu"%string -> 0 < pool_h -> 0 < pool_w ->
  generate_pipeline_test_vectors n activation_type pool_h pool_w pool_padding
    dropout_p seed matrix_type value_range g = Ok (res, files, g') ->
  forall i j v, lookup2 (r_final res) i j = Some v -> isnan v = false ->
    f32_ge v pos_zero = true /\ (sign_bit v = true -> is_zero v = true).
Proof.
  intros Hact Hph Hpw Hrun i j v Hv Hnan.
  destruct (pipeline_inv _ _ _ _ _ _ _ _ _ _ _ _ _ Hrun)
    as (g0 & Hgen & Hmm & Hactd & Hpool & Hfinal & _).
  rewrite Hfinal in Hv.
  apply generate_matrices_square in Hgen as (Hn & Ha & Hb).
  pose proof (np_matmul_square n _ _ _ Ha Hb Hmm) as [Hwc _].
  assert (Hwfa : wf_ndarray (r_activated res)).
  { rewrite Hactd. apply apply_activation_shape, Hwc. }
  destruct (maxpool_input_spec (r_activated res)) as (Hlk & _ & _ & Hwfi).
  destruct (maxpool_ok_cells maximum_reduce_ok _ pool_h pool_w None None
              pool_padding _ (Hwfi Hwfa) Hph Hpw Hph Hpw Hpool)
    as (_ & _ & _ & Hcells).
  destruct (proj2 (Hcells i j v Hv) Hnan) as ((a & b & _ & _ & Hin) & _).
  destruct (padded_lookup_origin _ _ _ _ _ (Hwfi Hwfa) Hin)
    as [[_ ->] | (r & c & Hrc)]; [split; [reflexivity | discriminate] |].
  rewrite Hlk in Hrc. destruct (_ && _) in Hrc; [| discriminate].
  rewrite Hactd, Hact in Hrc. unfold apply_activation in Hrc.
  rewrite String.eqb_refl, ndarray_map_lookup in Hrc.
  destruct (lookup2 (r_matmul res) r c) as [u |]; [| discriminate].
  cbn in Hrc. injection Hrc as <-. apply relu_scalar_nonnegative, Hnan.
Qed.

End OrchestratorRelu.

(** * Further properties of the dropout stage *)

Lemma ndarray_zip_wf {A B C} (f : A -> B -> C) (x : ndarray A) (y : ndarray B) :
  wf_ndarray x -> wf_ndarray y -> shape x = shape y ->
  wf_ndarray (ndarray_zip f x y) /\ shape (ndarray_zip f x y) = shape x.
Proof.
  unfold wf_ndarray, shape, shape_h, shape_w, ndarray_zip. cbn [rows width].
  intros Hx Hy [= Hlen Hw]. split.
  - apply Forall_lookup. intros i r Hr.
    apply lookup_zip_with_Some in Hr as (rx & ry & -> & Hrx & Hry).
    rewrite length_zip_with.
    rewrite (proj1 (Forall_lookup _ _) Hx i rx Hrx).
    rewrite (proj1 (Forall_lookup _ _) Hy i ry Hry). lia.
  - rewrite length_zip_with. f_equal. lia.
Qed.

Section DropoutTraining.
Context `{Numpy}.

(** Training-mode dropout: a seed that does not fit in 32 bits is a
    [ValueError]; so is a keep probability [1 - p] outside [0, 1] (or a
    NaN), refused by the binomial sampler; otherwise the result is an
    array of the shape of the input. *)
Theorem dropout_training_outcome (x : ndarray float32) (p : float64)
    (seed : option Z) (g : rng) :
  wf_ndarray x ->
  (seed_ok seed = false ->
   apply_dropout x p true seed g = Error ValueError) /\
  (seed_ok seed = true ->
   SFleb f64_zero (f64_sub f64_one p) && SFleb (f64_sub f64_one p) f64_one
     = false ->
   apply_dropout x p true seed g = Error ValueError) /\
  (seed_ok seed = true ->
   SFleb f64_zero (f64_sub f64_one p) && SFleb (f64_sub f64_one p) f64_one
     = true ->
   exists (out : ndarray float64) (g' : rng),
     apply_dropout x p true seed g = Ok (out, g') /\
     wf_ndarray out /\ shape out = shape x).
Proof.
  intros Hwf. unfold apply_dropout. split; [| split].
  - destruct seed as [s |]; cbn [seed_ok]; [| discriminate].
    unfold np_random_seed. intros ->. reflexivity.
  - intros Hseed Hkeep. destruct (np_random_seed_ok seed g Hseed) as [g0 ->].
    cbn [mbind result_bind]. unfold np_random_binomial. rewrite Hkeep.
    reflexivity.
  - intros Hseed Hkeep. destruct (np_random_seed_ok seed g Hseed) as [g0 ->].
    cbn [mbind result_bind]. unfold np_random_binomial. rewrite Hkeep.
    cbn [mbind result_bind].
    pose proof (draw_ndarray_spec (fun _ => True) (shape_h x) (shape_w x)
                  (draw_binomial 1 (f64_sub f64_one p)) g0 (fun _ => I))
      as (Hwm & Hsm & _). cbn zeta in *.
    destruct (draw_ndarray _ _ _ g0) as [mask g1]. cbn [fst] in *.
    eexists _, _. split; [reflexivity |].
    apply ndarray_zip_wf; [exact Hwf | exact Hwm |].
    rewrite Hsm. reflexivity.
Qed.

End DropoutTraining.

Lemma dropout_training_outcome_witness :
  apply_dropout (H := reference_numpy) minus_ones_2x2
    (S754_finite false 6755399441055744 (-52)) true None 0
    = Error ValueError /\
  exists (out : ndarray float64) (g' : rng (Numpy := reference_numpy)),
    apply_dropout (H := reference_numpy) minus_ones_2x2
      (S754_finite false 4503599627370496 (-53)) true (Some 7) 0
      = Ok (out, g') /\
    wf_ndarray out /\ shape out = shape minus_ones_2x2.
Proof.
  split.
  - exact (proj1 (proj2 (dropout_training_outcome (H := reference_numpy)
                           minus_ones_2x2
                           (S754_finite false 6755399441055744 (-52)) None 0
                           minus_ones_2x2_wf)) eq_refl eq_refl).
  - exact (proj2 (proj2 (dropout_training_outcome (H := reference_numpy)
                           minus_ones_2x2
                           (S754_finite false 4503599627370496 (-53))
                           (Some 7) 0 minus_ones_2x2_wf)) eq_refl eq_refl).
Defined.

(** * Runs of the orchestrator on concrete configurations *)

Lemma generate_matrices_outcome_witness :
  generate_matrices (H := reference_numpy) (-1) "ones" (f64_zero, f64_one) 0
    = Error ValueError /\
  generate_matrices (H := reference_numpy) 2 "random"
    (f64_zero, S754_infinity false) 0 = Error OverflowError /\
  exists a b g',
    generate_matrices (H := reference_numpy) 2 "identity"
      (f64_zero, f64_one) 5 = Ok (a, b, g') /\
    square 2 a /\ square 2 b /\ a = b /\ g' = 5.
Proof.
  split; [| split].
  - refine (proj1 (proj2 (generate_matrices_outcome (H := reference_numpy)
                            (-1) "ones" (f64_zero, f64_one) 0)) eq_refl _).
    lia.
  - exact (proj1 (generate_matrices_outcome (H := reference_numpy) 2 "random"
                    (f64_zero, S754_infinity false) 0) eq_refl).
  - destruct (proj2 (proj2 (generate_matrices_outcome (H := reference_numpy)
                              2 "identity" (f64_zero, f64_one) 5)) eq_refl)
      as (a & b & g' & Hgen & Ha & Hb & Hsame); [lia |].
    exists a, b, g'. destruct Hsame as [Hab Hg]; [left; reflexivity |].
    auto.
Defined.

Lemma pipeline_succeeds_witness :
  exists res files g',
    generate_pipeline_test_vectors (H := reference_numpy) 32 "relu" 2 2 1
      (S754_finite false 4503599627370496 (-53)) (Some 42) "small_int"
      (f64_zero, f64_one) 0 = Ok (res, files, g') /\
    Z.of_nat (shape_h (r_pooled res)) = 3 /\
    length (matrix_north files) = 1024%nat /\
    length (expected_output files) = 1%nat.
Proof.
  destruct (pipeline_succeeds (H := reference_numpy) 32 "relu" 2 2 1
              (S754_finite false 4503599627370496 (-53)) (Some 42)
              "small_int" (f64_zero, f64_one) 0)
    as (res & files & g' & Hrun & _ & _ & _ & _ & _ & Hh & _ & Hn & _ & He);
    [reflexivity | reflexivity | lia | lia | lia | lia |].
  exists res, files, g'. split; [exact Hrun |].
  split; [exact Hh |]. split; [exact Hn | exact He].
Defined.

Lemma pipeline_oversized_window_witness :
  generate_pipeline_test_vectors (H := reference_numpy) 3 "relu" 6 6 1
    f64_one (Some 42) "ones" (f64_zero, f64_one) 0 = Error IndexError.
Proof.
  apply (pipeline_oversized_window (H := reference_numpy) 3 "relu" 6 6 1
           f64_one (Some 42) "ones" (f64_zero, f64_one) 0);
    [reflexivity | reflexivity | lia | lia | lia | lia | lia].
Defined.

Lemma pipeline_size_zero_witness :
  generate_pipeline_test_vectors (H := reference_numpy) 0 "relu" 2 2 1
    f64_one (Some 42) "identity" (f64_zero, f64_one) 0 = Error IndexError /\
  exists pooled v,
    apply_maxpool_2d (H := reference_numpy)
      (maxpool_input (apply_activation (H := reference_numpy)
                        {| width := 0; rows := [] |} "relu"))
      2 2 None None 1 = Ok pooled /\
    first_element pooled = Ok v.
Proof.
  destruct (pipeline_size_zero (H := reference_numpy) 0 "relu" 2 2 1
              f64_one (Some 42) "identity" (f64_zero, f64_one) 0)
    as [Hrun Hfit]; [reflexivity | reflexivity | reflexivity | lia | lia | lia |].
  split; [exact Hrun | apply Hfit; lia].
Defined.

Lemma pipeline_input_errors_witness :
  generate_pipeline_test_vectors (H := reference_numpy) 4 "relu" 2 2 1
    f64_one (Some (-1)) "ones" (f64_zero, f64_one) 0 = Error ValueError /\
  generate_pipeline_test_vectors (H := reference_numpy) 4 "relu" 2 2 1
    f64_one None "random" (S754_infinity true, f64_one) 0
    = Error OverflowError /\
  generate_pipeline_test_vectors (H := reference_numpy) (-4) "relu" 2 2 1
    f64_one None "identity" (f64_zero, f64_one) 0 = Error ValueError.
Proof.
  split; [| split].
  - exact (proj1 (pipeline_input_errors (H := reference_numpy) 4 "relu" 2 2 1
                    f64_one (Some (-1)) "ones" (f64_zero, f64_one) 0) eq_refl).
  - exact (proj1 (proj2 (pipeline_input_errors (H := reference_numpy) 4 "relu"
                           2 2 1 f64_one None "random"
                           (S754_infinity true, f64_one) 0)) eq_refl eq_refl).
  - refine (proj2 (proj2 (pipeline_input_errors (H := reference_numpy) (-4)
                            "relu" 2 2 1 f64_one None "identity"
                            (f64_zero, f64_one) 0)) eq_refl eq_refl _).
    lia.
Defined.

Lemma identity_run_eq :
  generate_pipeline_test_vectors (H := reference_numpy) 2 "relu" 2 2 1
    f64_one (Some 42) "identity" (f64_zero, f64_one) 0 = identity_run.
Proof. vm_compute. reflexivity. Qed.

Lemma pipeline_files_decode_witness :
  match identity_run with
  | Ok (res, files, _) =>
      Forall2 (fun line v => hex_to_float line = Ok v)
        (matrix_north files) (flatten (r_A res)) /\
      Forall2 (fun line v => hex_to_float line = Ok v)
        (matrix_west files) (flatten (r_B res)) /\
      Forall2 (fun line v => hex_to_float line = Ok v)
        (expected_output files) [pos_one]
  | Error _ => False
  end.
Proof.
  pose proof identity_run_eq as Hrun. unfold identity_run in *.
  match type of Hrun with
  | _ = Ok (?r, ?f, ?g0) =>
      assert (HA : Forall is_float32 (flatten (r_A r)))
        by (repeat constructor; unfold is_float32; cbn; lia);
      assert (HF : Forall is_float32 (flatten (r_final r)))
        by (repeat constructor; unfold is_float32; cbn; lia);
      assert (HQ : Forall (fun v => is_signalling v = false) (flatten (r_A r)))
        by (repeat constructor);
      destruct (pipeline_files_decode (H := reference_numpy) 2 "relu" 2 2 1
                  f64_one (Some 42) "identity" (f64_zero, f64_one) 0
                  r f g0 Hrun HA HA HF) as (_ & Hn & Hw & He)
  end.
  split; [exact (Hn HQ) |]. split; [exact (Hw HQ) |].
  exact (He pos_one eq_refl eq_refl).
Defined.

Lemma pipeline_relu_nonnegative_witness :
  match identity_run with
  | Ok (res, _, _) =>
      lookup2 (r_final res) 0 0 = Some pos_one /\
      f32_ge pos_one pos_zero = true
  | Error _ => False
  end.
Proof.
  pose proof identity_run_eq as Hrun. unfold identity_run in *.
  split; [reflexivity |].
  match type of Hrun with
  | _ = Ok (?r, ?f, ?g0) =>
      refine (proj1 (pipeline_relu_nonnegative (H := reference_numpy)
                reference_maximum_reduce_contract 2 "relu" 2 2 1
                f64_one (Some 42) "identity" (f64_zero, f64_one) 0
                r f g0 eq_refl _ _ Hrun 0%nat 0%nat pos_one eq_refl eq_refl))
  end; lia.
Defined.
